(** * Risk decision engine of the ml-models service

    A shallow embedding of [app/models/fraud_model.py],
    [app/models/credit_model.py], [app/models/risk_model.py], the
    constants of [app/config.py] and the label rule of [train_models.py].

    Python [float] is IEEE 754 binary64: it is modelled by Rocq's
    primitive [float], whose operations are the processor's and are
    specified by [FloatAxioms] against [SpecFloat].  A feature dictionary
    [Dict[str, float]] is a [gmap string float]; [features.get(k, d)] is
    [default d (features !! k)].  A Python exception is [None] in the
    option monad. *)

From Stdlib Require Import ZArith Lia Bool Floats.
From stdpp Require Import base option strings gmap.

Set Warnings "-inexact-float".
Local Open Scope Z_scope.

(** ** Python numbers *)

Module Py.

(** The value of [max(CREDIT_SCORE_MIN, min(CREDIT_SCORE_MAX, score))] is
    one of the two [int] bounds or the [float] score itself. *)
Inductive num :=
| Int (z : Z)
| Float (x : float).

(** [float(z)]: the nearest double, ties to even (the OverflowError of an
    [int] beyond the range of a double is not modelled). *)
Definition float_of_Z (z : Z) : float :=
  SF2Prim (binary_normalize prec emax z 0 false).

(** [np.float32(x)]: the nearest binary32 value, ties to even, overflowing
    to an infinity; it is held as the double of the same value, which is
    what [float()] of a [np.float32] returns. *)
Definition float32 (x : float) : float :=
  match Prim2SF x with
  | S754_finite s m e =>
      match binary_round 24 128 s m e with
      | S754_finite s' m' e' =>
          SF2Prim (binary_normalize prec emax (cond_Zopp s' (Zpos m')) e' s')
      | r => SF2Prim r
      end
  | _ => x
  end.

(** [p >= c] for a [np.float32] [p] and a Python [float] [c]: NumPy takes
    the Python scalar to the dtype of [p] and compares in float32. *)
Definition float32_ge (p c : float) : bool := PrimFloat.leb (float32 c) p.

Definition to_float (a : num) : float :=
  match a with
  | Int z => float_of_Z z
  | Float x => x
  end.

(** [a < b], [a > b] and [a >= b]: between two [int]s the integer
    comparison, otherwise the IEEE comparison (false on NaN) with the [int]
    converted.  Python compares an [int] with a [float] exactly; every [int]
    compared here (the bounds of [config.py], the band thresholds) is below
    2^53, where the conversion is exact and the two agree. *)
Definition lt (a b : num) : bool :=
  match a, b with
  | Int x, Int y => x <? y
  | _, _ => PrimFloat.ltb (to_float a) (to_float b)
  end.

Definition gt (a b : num) : bool := lt b a.

Definition ge (a b : num) : bool :=
  match a, b with
  | Int x, Int y => y <=? x
  | _, _ => PrimFloat.leb (to_float b) (to_float a)
  end.

(** The builtins [min(a, b)] and [max(a, b)] keep the first argument
    unless the second is strictly smaller (resp. larger). *)
Definition min (a b : num) : num := if lt b a then b else a.
Definition max (a b : num) : num := if gt b a then b else a.

Definition fmin (a b : float) : float := if PrimFloat.ltb b a then b else a.
Definition fmax (a b : float) : float := if PrimFloat.ltb a b then b else a.

(** [int(x)] of a float truncates toward zero; it raises on NaN and on
    the infinities. *)
Definition trunc_SF (x : spec_float) : option Z :=
  match x with
  | S754_zero _ => Some 0
  | S754_finite s m e =>
      let a := match e with
               | Zneg k => Z.shiftr (Zpos m) (Zpos k)
               | _ => Z.shiftl (Zpos m) e
               end in
      Some (if s then - a else a)
  | S754_infinity _ | S754_nan => None
  end.

Definition int (a : num) : option Z :=
  match a with
  | Int z => Some z
  | Float x => trunc_SF (Prim2SF x)
  end.

(** [a / b] on floats raises ZeroDivisionError when [b == 0]. *)
Definition truediv (a b : float) : option float :=
  if PrimFloat.eqb b 0 then None else Some (a / b)%float.

End Py.

(** ** [app/config.py] *)

Record Settings := {
  FRAUD_THRESHOLD : float;
  CREDIT_SCORE_MIN : Z;
  CREDIT_SCORE_MAX : Z
}.

Definition settings : Settings :=
  {| FRAUD_THRESHOLD := 0.5; CREDIT_SCORE_MIN := 300; CREDIT_SCORE_MAX := 850 |}.

(** [features.get(name, dflt)] *)
Definition get (features : gmap string float) (name : string) (dflt : float) : float :=
  default dflt (features !! name).

(** [_prepare_features]: one entry per declared name, [0.0] when absent. *)
Definition _prepare_features (feature_names : list string)
    (features : gmap string float) : list float :=
  map (fun feature_name => get features feature_name 0) feature_names.

(** ** [app/models/fraud_model.py] *)

Module Fraud.

Record Result := {
  fraud_score : float;
  risk_level : string;
  is_fraud : bool
}.

Definition feature_names : list string :=
  [ "amount"; "hour"; "day_of_week"; "transaction_count_24h";
    "transaction_count_7d"; "avg_amount_7d"; "beneficiary_age_days";
    "device_risk"; "location_risk"; "user_account_age_days";
    "user_balance"; "is_new_beneficiary"; "is_unusual_hour";
    "amount_vs_avg_ratio"; "velocity_score" ]%string.

Definition _get_risk_level (score : float) : string :=
  if PrimFloat.leb 0.7 score then "HIGH"
  else if PrimFloat.leb 0.4 score then "MEDIUM"
  else "LOW".

Definition _mock_predict (cfg : Settings) (features : gmap string float) : Result :=
  let amount := get features "amount" 0 in
  let beneficiary_age := get features "beneficiary_age_days" 365 in
  let txn_count_24h := get features "transaction_count_24h" 0 in
  let score := 0%float in
  let score :=
    if PrimFloat.ltb 200000 amount then (score + 0.4)%float
    else if PrimFloat.ltb 100000 amount then (score + 0.2)%float
    else if PrimFloat.ltb 50000 amount then (score + 0.1)%float
    else score in
  let score :=
    if PrimFloat.ltb beneficiary_age 7 then (score + 0.3)%float else score in
  let score :=
    if PrimFloat.ltb 10 txn_count_24h then (score + 0.3)%float
    else if PrimFloat.ltb 5 txn_count_24h then (score + 0.15)%float
    else score in
  let score := (score + get features "device_risk" 0 * 0.1)%float in
  let score := (score + get features "location_risk" 0 * 0.1)%float in
  let score := if PrimFloat.ltb 1 score then 1%float else score in
  {| fraud_score := score;
     risk_level := _get_risk_level score;
     is_fraud := PrimFloat.leb (FRAUD_THRESHOLD cfg) score |}.

(** [_get_risk_level] on the [np.float32] that the classifier yields: the
    two comparisons are NumPy's. *)
Definition _get_risk_level_float32 (score : float) : string :=
  if Py.float32_ge score 0.7 then "HIGH"
  else if Py.float32_ge score 0.4 then "MEDIUM"
  else "LOW".

(** [self.model] is [None] or a loaded classifier, the [XGBClassifier] that
    [train_models.py] saves; of the classifier only
    [predict_proba([v])[0][1]] is used, and that is a [np.float32]:
    [predict_proba] stands for the probability before it is stored in
    float32.  The labels are computed on the [np.float32]; the returned
    [fraud_score] is [float()] of it. *)
Definition predict (cfg : Settings) (model : option (list float -> float))
    (features : gmap string float) : Result :=
  match model with
  | None => _mock_predict cfg features
  | Some predict_proba =>
      let feature_vector := _prepare_features feature_names features in
      let fraud_probability := Py.float32 (predict_proba feature_vector) in
      let risk_level := _get_risk_level_float32 fraud_probability in
      {| fraud_score := fraud_probability;
         risk_level := risk_level;
         is_fraud := Py.float32_ge fraud_probability (FRAUD_THRESHOLD cfg) |}
  end.

End Fraud.

(** ** [app/models/credit_model.py] *)

Module Credit.

(** A value of the [factors] dictionary: a literal text, or the f-string
    of the delinquency entry, which prints the number before its suffix. *)
Inductive Note :=
| Text (s : string)
| Fmt (d : float) (suffix : string).

Record Result := {
  credit_score : Z;
  risk_category : string;
  score_range : string;
  factors : gmap string Note
}.

Definition feature_names : list string :=
  [ "account_age_days"; "monthly_income"; "total_balance";
    "transaction_count_30d"; "delinquency_count"; "loan_history_count";
    "avg_transaction_amount"; "credit_utilization"; "savings_ratio" ]%string.

Definition _get_risk_category (score : Py.num) : string :=
  if Py.ge score (Py.Int 750) then "LOW"
  else if Py.ge score (Py.Int 700) then "MEDIUM_LOW"
  else if Py.ge score (Py.Int 650) then "MEDIUM"
  else if Py.ge score (Py.Int 600) then "MEDIUM_HIGH"
  else "HIGH".

Definition _get_score_range (score : Py.num) : string :=
  if Py.ge score (Py.Int 750) then "EXCELLENT"
  else if Py.ge score (Py.Int 700) then "GOOD"
  else if Py.ge score (Py.Int 650) then "FAIR"
  else if Py.ge score (Py.Int 600) then "POOR"
  else "VERY_POOR".

Definition _get_factor_analysis (features : gmap string float) : gmap string Note :=
  let factors : gmap string Note := ∅ in
  let account_age := get features "account_age_days" 0 in
  let factors :=
    if PrimFloat.ltb account_age 90 then
      <["account_age" := Text "New account - negative impact"]> factors
    else if PrimFloat.ltb 365 account_age then
      <["account_age" := Text "Established account - positive impact"]> factors
    else factors in
  let delinquency := get features "delinquency_count" 0 in
  let factors :=
    if PrimFloat.ltb 0 delinquency then
      <["delinquency" := Fmt delinquency " delinquencies - negative impact"]> factors
    else factors in
  let income := get features "monthly_income" 0 in
  let factors :=
    if PrimFloat.ltb 100000 income then
      <["income" := Text "High income - positive impact"]> factors
    else if PrimFloat.ltb income 25000 then
      <["income" := Text "Low income - negative impact"]> factors
    else factors in
  factors.

(** The blocks of [_mock_predict], each taking the running [score]. *)
Definition account_age_factor (account_age score : float) : float :=
  if PrimFloat.ltb 365 account_age then (score + 50)%float
  else if PrimFloat.ltb 180 account_age then (score + 30)%float
  else if PrimFloat.ltb 90 account_age then (score + 15)%float
  else score.

Definition income_factor (income score : float) : float :=
  if PrimFloat.ltb 100000 income then (score + 100)%float
  else if PrimFloat.ltb 50000 income then (score + 60)%float
  else if PrimFloat.ltb 25000 income then (score + 30)%float
  else score.

Definition delinquency_penalty (delinquency score : float) : float :=
  (score - delinquency * 20)%float.

Definition loan_history_bonus (loan_history score : float) : float :=
  if PrimFloat.ltb 0 loan_history then (score + 30)%float else score.

Definition balance_factor (balance score : float) : float :=
  if PrimFloat.ltb 100000 balance then (score + 50)%float
  else if PrimFloat.ltb 50000 balance then (score + 30)%float
  else score.

(** [max(settings.CREDIT_SCORE_MIN, min(settings.CREDIT_SCORE_MAX, score))] *)
Definition cap (cfg : Settings) (score : float) : Py.num :=
  Py.max (Py.Int (CREDIT_SCORE_MIN cfg))
         (Py.min (Py.Int (CREDIT_SCORE_MAX cfg)) (Py.Float score)).

(** The score of [_mock_predict] before the cap. *)
Definition mock_score (features : gmap string float) : float :=
  let account_age := get features "account_age_days" 365 in
  let income := get features "monthly_income" 50000 in
  let balance := get features "total_balance" 100000 in
  let delinquency := get features "delinquency_count" 0 in
  let loan_history := get features "loan_history_count" 0 in
  let score := 600%float in
  let score := account_age_factor account_age score in
  let score := income_factor income score in
  let score := delinquency_penalty delinquency score in
  let score := loan_history_bonus loan_history score in
  let score := balance_factor balance score in
  score.

Definition _mock_predict (cfg : Settings) (features : gmap string float)
    : option Result :=
  let score := cap cfg (mock_score features) in
  credit_score ← Py.int score;
  Some {| credit_score := credit_score;
          risk_category := _get_risk_category score;
          score_range := _get_score_range score;
          factors := _get_factor_analysis features |}.

(** [self.model] is [None] or a loaded regressor; of the regressor only
    [predict([v])[0]] is used. *)
Definition predict (cfg : Settings) (model : option (list float -> float))
    (features : gmap string float) : option Result :=
  match model with
  | None => _mock_predict cfg features
  | Some model_predict =>
      let feature_vector := _prepare_features feature_names features in
      let credit_score := model_predict feature_vector in
      let credit_score := cap cfg credit_score in
      let risk_category := _get_risk_category credit_score in
      let score_range := _get_score_range credit_score in
      score ← Py.int credit_score;
      Some {| credit_score := score;
              risk_category := risk_category;
              score_range := score_range;
              factors := _get_factor_analysis features |}
  end.

End Credit.

(** ** [app/models/risk_model.py] *)

Module Risk.

Record Components := {
  credit_risk : float;
  fraud_risk : float;
  amount_risk : float
}.

Record Decision := {
  overall_risk_score : float;
  risk_category : string;
  components : Components;
  credit_score : Z;
  fraud_score : float;
  recommendation : string
}.

(** The dictionary [credit_features] that [predict] builds. *)
Definition credit_features (features : gmap string float) : gmap string float :=
  list_to_map
    [ ("account_age_days", get features "account_age_days" 365);
      ("monthly_income", get features "monthly_income" 50000);
      ("total_balance", get features "total_balance" 100000);
      ("transaction_count_30d", get features "transaction_count_30d" 10);
      ("delinquency_count", get features "delinquency_count" 0);
      ("loan_history_count", get features "loan_history_count" 0);
      ("avg_transaction_amount", get features "avg_transaction_amount" 10000);
      ("credit_utilization", get features "credit_utilization" 0.3);
      ("savings_ratio", get features "savings_ratio" 0.2) ]%string.

(** The divisor of [amount_vs_avg_ratio]. *)
Definition avg_divisor (features : gmap string float) : float :=
  Py.fmax (get features "avg_amount_7d" 1) 1.

(** The dictionary [fraud_features] that [predict] builds; its two quotients
    are the only operations of the derivation that can raise. *)
Definition fraud_features (features : gmap string float)
    : option (gmap string float) :=
  amount_vs_avg_ratio ← Py.truediv (get features "amount" 0) (avg_divisor features);
  velocity ← Py.truediv (get features "transaction_count_24h" 0) 10;
  Some (list_to_map
    [ ("amount", get features "amount" 0);
      ("hour", get features "hour" 12);
      ("day_of_week", get features "day_of_week" 3);
      ("transaction_count_24h", get features "transaction_count_24h" 0);
      ("transaction_count_7d", get features "transaction_count_7d" 5);
      ("avg_amount_7d", get features "avg_amount_7d" 10000);
      ("beneficiary_age_days", get features "beneficiary_age_days" 365);
      ("device_risk", get features "device_risk" 0);
      ("location_risk", get features "location_risk" 0);
      ("user_account_age_days", get features "account_age_days" 365);
      ("user_balance", get features "total_balance" 100000);
      ("is_new_beneficiary",
        if PrimFloat.ltb (get features "beneficiary_age_days" 365) 7
        then 1 else 0);
      ("is_unusual_hour",
        if PrimFloat.ltb (get features "hour" 12) 6
           || PrimFloat.ltb 23 (get features "hour" 12)
        then 1 else 0);
      ("amount_vs_avg_ratio", amount_vs_avg_ratio);
      ("velocity_score", Py.fmin velocity 1) ]%string%float).

Definition _calculate_amount_risk (amount : float) : float :=
  if PrimFloat.ltb 200000 amount then 0.8
  else if PrimFloat.ltb 100000 amount then 0.5
  else if PrimFloat.ltb 50000 amount then 0.3
  else 0.1.

Definition _get_risk_category (risk : float) : string :=
  if PrimFloat.ltb risk 0.3 then "LOW"
  else if PrimFloat.ltb risk 0.6 then "MEDIUM"
  else "HIGH".

Definition _get_recommendation (risk : float) : string :=
  if PrimFloat.ltb 0.7 risk then "BLOCK"
  else if PrimFloat.ltb 0.4 risk then "REVIEW"
  else "APPROVE".

(** [credit_model] and [fraud_model] are the module-level scorers; their
    [model] attributes are the two optional artifacts. *)
Definition predict (cfg : Settings)
    (credit_model fraud_model : option (list float -> float))
    (features : gmap string float) : option Decision :=
  let credit_features := credit_features features in
  fraud_features ← fraud_features features;
  credit_result ← Credit.predict cfg credit_model credit_features;
  let credit_score := Credit.credit_score credit_result in
  q ← Py.truediv (Py.float_of_Z credit_score) 850;
  let credit_risk := (1 - q)%float in
  let fraud_result := Fraud.predict cfg fraud_model fraud_features in
  let fraud_risk := Fraud.fraud_score fraud_result in
  let amount := get features "amount" 0 in
  let amount_risk := _calculate_amount_risk amount in
  let overall_risk :=
    (credit_risk * 0.4 + fraud_risk * 0.4 + amount_risk * 0.2)%float in
  let overall_risk := Py.fmax 0 (Py.fmin 1 overall_risk) in
  Some {| overall_risk_score := overall_risk;
          risk_category := _get_risk_category overall_risk;
          components := {| credit_risk := credit_risk;
                           fraud_risk := fraud_risk;
                           amount_risk := amount_risk |};
          credit_score := credit_score;
          fraud_score := fraud_risk;
          recommendation := _get_recommendation overall_risk |}.

End Risk.

(** ** [train_models.py] *)

Module Train.

(** The probability [prob] that [generate_synthetic_data] passes to
    [np.random.binomial] for one sample; [transaction_count_24h] is drawn
    from a Poisson distribution and is an integer. *)
Definition fraud_label_probability (amount beneficiary_age_days : float)
    (transaction_count_24h : Z) (device_risk : float) : float :=
  let prob := 0.1%float in
  let prob := if PrimFloat.ltb 100000 amount then (prob + 0.3)%float else prob in
  let prob :=
    if PrimFloat.ltb beneficiary_age_days 7 then (prob + 0.2)%float else prob in
  let prob := if 5 <? transaction_count_24h then (prob + 0.2)%float else prob in
  let prob := if PrimFloat.ltb 0.5 device_risk then (prob + 0.2)%float else prob in
  Py.fmin prob 0.95.

End Train.

(** ** Inputs and expected values of the scenarios *)

Definition scenario_1 : gmap string float :=
  list_to_map
    [ ("amount", 250000); ("beneficiary_age_days", 3);
      ("transaction_count_24h", 12); ("device_risk", 0.8);
      ("location_risk", 0.6) ]%string%float.

Definition scenario_2 : gmap string float :=
  list_to_map
    [ ("account_age_days", 400); ("monthly_income", 120000);
      ("delinquency_count", 1); ("loan_history_count", 1);
      ("total_balance", 150000) ]%string%float.

Definition scenario_3 : gmap string float := scenario_1 ∪ scenario_2.

(** The empty feature set scored by the credit scorer without artifact. *)
Definition empty_features_result : Credit.Result :=
  {| Credit.credit_score := 690;
     Credit.risk_category := "MEDIUM";
     Credit.score_range := "FAIR";
     Credit.factors :=
       list_to_map
         [ ("account_age", Credit.Text "New account - negative impact");
           ("income", Credit.Text "Low income - negative impact") ]%string |}.

(** The dictionary the fraud router passes for the request body
    [{"amount": 1000, "device_risk": -5}]. *)
Definition negative_device_risk : gmap string float :=
  list_to_map
    [ ("amount", 1000); ("hour", 12); ("day_of_week", 3);
      ("transaction_count_24h", 0); ("transaction_count_7d", 0);
      ("avg_amount_7d", 10000); ("beneficiary_age_days", 365);
      ("device_risk", -5); ("location_risk", 0);
      ("user_account_age_days", 365); ("user_balance", 100000) ]%string%float.

(** The range clamp of the specification, [clamp01(x)]: the aggregator's
    [max(0.0, min(1.0, x))]. *)
Definition clamp01 (x : float) : float := Py.fmax 0 (Py.fmin 1 x).

(** The composition law as the specification writes it. *)
Definition composition_law (credit_score : Z) (fraud_score amount_risk : float)
    : float :=
  clamp01 (0.4 * (1 - Py.float_of_Z credit_score / 850)
           + 0.4 * fraud_score + 0.2 * amount_risk)%float.

(** The bands of the specification over the integer credit_score:
    [>=750 LOW, >=700 MEDIUM_LOW, >=650 MEDIUM, >=600 MEDIUM_HIGH, else HIGH]
    and [>=750 EXCELLENT, >=700 GOOD, >=650 FAIR, >=600 POOR, else VERY_POOR]. *)
Definition risk_band (credit_score : Z) : string :=
  if 750 <=? credit_score then "LOW"
  else if 700 <=? credit_score then "MEDIUM_LOW"
  else if 650 <=? credit_score then "MEDIUM"
  else if 600 <=? credit_score then "MEDIUM_HIGH"
  else "HIGH".

Definition range_band (credit_score : Z) : string :=
  if 750 <=? credit_score then "EXCELLENT"
  else if 700 <=? credit_score then "GOOD"
  else if 650 <=? credit_score then "FAIR"
  else if 600 <=? credit_score then "POOR"
  else "VERY_POOR".

(** ** Parts of the scorers *)

(** The score of [Fraud._mock_predict] after its first three blocks. *)
Definition fraud_rule_score (amount beneficiary_age txn_count_24h : float)
    : float :=
  let score := 0%float in
  let score :=
    if PrimFloat.ltb 200000 amount then (score + 0.4)%float
    else if PrimFloat.ltb 100000 amount then (score + 0.2)%float
    else if PrimFloat.ltb 50000 amount then (score + 0.1)%float
    else score in
  let score :=
    if PrimFloat.ltb beneficiary_age 7 then (score + 0.3)%float else score in
  let score :=
    if PrimFloat.ltb 10 txn_count_24h then (score + 0.3)%float
    else if PrimFloat.ltb 5 txn_count_24h then (score + 0.15)%float
    else score in
  score.

(** The three terms of the weighted sum of [Risk.predict]. *)
Definition credit_risk_term (credit_score : Z) : float :=
  ((1 - Py.float_of_Z credit_score / 850) * 0.4)%float.

Definition fraud_risk_term (fraud_score : float) : float :=
  (fraud_score * 0.4)%float.

Definition amount_risk_term (amount : float) : float :=
  (Risk._calculate_amount_risk amount * 0.2)%float.

(** ** An integer image of binary64

    Every finite double is a multiple of 2^-1074 below 2^1024.  Its [key] is
    that multiple; the infinities get the keys [INF] and [- INF], which no
    finite double reaches.  On doubles other than NaN the IEEE order is the
    order of the keys, and the sum or difference of two finite doubles is
    the rounding [rnd] of the sum or difference of their keys. *)

Module B64.

Definition INF : Z := 2 ^ 2098.

(** The key of 1.0. *)
Definition ONE : Z := 2 ^ 1074.

Definition key (x : spec_float) : Z :=
  match x with
  | S754_zero _ | S754_nan => 0
  | S754_infinity s => cond_Zopp s INF
  | S754_finite s m e => cond_Zopp s (Zpos m * 2 ^ (e + 1074))
  end.

Definition SFis_nan (x : spec_float) : bool :=
  match x with S754_nan => true | _ => false end.

Definition SFis_finite (x : spec_float) : bool :=
  match x with S754_zero _ | S754_finite _ _ _ => true | _ => false end.

(** [X / 2^n] rounded to the nearest integer, ties to even. *)
Definition rne (X n : Z) : Z :=
  let q := X / 2 ^ n in
  let r := X mod 2 ^ n in
  if (2 ^ n <? 2 * r) || ((2 ^ n =? 2 * r) && Z.odd q) then q + 1 else q.

(** Rounding of a positive key to 53 significant bits, overflowing to [INF]. *)
Definition rnd_pos (X : Z) : Z :=
  let n := Z.max (Z.log2 X - 52) 0 in
  Z.min (rne X n * 2 ^ n) INF.

Definition rnd (X : Z) : Z :=
  match X with
  | Z0 => 0
  | Zpos _ => rnd_pos X
  | Zneg p => - rnd_pos (Zpos p)
  end.

Definition fkey (x : float) : Z := key (Prim2SF x).
Definition fnan (x : float) : bool := SFis_nan (Prim2SF x).
Definition ffinite (x : float) : bool := SFis_finite (Prim2SF x).

(** Two scores are in order when both are NaN or the first is at most the
    second. *)
Definition ord (x y : float) : Prop :=
  fnan x = true /\ fnan y = true \/ PrimFloat.leb x y = true.

(** The integer that [int(max(300, min(850, score)))] yields for a score of
    key [k], and for a score [x]: NaN is capped to 850. *)
Definition cap_key (k : Z) : Z :=
  if k <? 850 * ONE then (if 300 * ONE <? k then k / ONE else 300) else 850.

Definition capped (x : float) : Z :=
  if fnan x then 850 else cap_key (fkey x).

(** [x] and [y] are the same number, or [x <= y]. *)
Definition le_or_same (x y : float) : Prop :=
  x = y \/ PrimFloat.leb x y = true.

(** [x] and [y] are the same number, or finite with [x <= y]. *)
Definition le_finite_or_same (x y : float) : Prop :=
  x = y
  \/ PrimFloat.leb x y = true /\ ffinite x = true /\ ffinite y = true.

(** The largest key of a finite double. *)
Definition KMAX : Z := (2 ^ 53 - 1) * 2 ^ 2045.

(** Finite and of magnitude at most 2. *)
Definition small (x : float) : Prop :=
  ffinite x = true /\ - (2 * ONE) <= fkey x <= 2 * ONE.

(** What the rule-based credit score is without delinquencies. *)
Definition undelinquent (x : float) : Prop :=
  fnan x = false /\ 600 * ONE <= fkey x <= 830 * ONE.

(** Rounding of a positive number given in units of [2^(-1074-t)] to a key:
    53 significant bits, nothing below [2^-1074], overflowing to [INF]. *)
Definition rnd_pos_at (t X : Z) : Z :=
  let n := Z.max (Z.log2 X - 52) t in
  Z.min (rne X n * 2 ^ (n - t)) INF.

Definition rnd_at (t X : Z) : Z :=
  match X with
  | Z0 => 0
  | Zpos _ => rnd_pos_at t X
  | Zneg p => - rnd_pos_at t (Zpos p)
  end.

End B64.

(** * Properties *)

Example py_int_truncates :
  Py.int (Py.Float 809.99) = Some 809
  /\ Py.int (Py.Float (-3.7)) = Some (-3)
  /\ Py.int (Py.Float nan) = None
  /\ Py.int (Py.Float infinity) = None
  /\ Py.float_of_Z 850 = 850%float
  /\ Py.max (Py.Int 300) (Py.min (Py.Int 850) (Py.Float nan)) = Py.Int 850.
Proof. repeat split; vm_compute; reflexivity. Qed.

Example fraud_scenario_1 :
  Fraud._mock_predict settings scenario_1
  = {| Fraud.fraud_score := 1; Fraud.risk_level := "HIGH"; Fraud.is_fraud := true |}.
Proof. vm_compute. reflexivity. Qed.

Example credit_scenario_2 :
  Credit._mock_predict settings scenario_2
  = Some {| Credit.credit_score := 810;
            Credit.risk_category := "LOW";
            Credit.score_range := "EXCELLENT";
            Credit.factors :=
              list_to_map
                [ ("account_age", Credit.Text "Established account - positive impact");
                  ("delinquency", Credit.Fmt 1 " delinquencies - negative impact");
                  ("income", Credit.Text "High income - positive impact") ]%string |}.
Proof. vm_compute. reflexivity. Qed.

(** ** Facts about binary64 *)

Module B64_facts.
Import B64.

(** *** The operations of [SpecFloat] *)

Lemma SFcompare_antisym (x y : spec_float) :
  SFcompare y x = option_map CompOpp (SFcompare x y).
Proof.
  destruct x as [[]|[]| |[] mx ex], y as [[]|[]| |[] my ey]; simpl; try reflexivity;
    rewrite (Z.compare_antisym ex ey);
    change Eq with (CompOpp Eq) at 1;
    rewrite <- (Pos.compare_cont_antisym mx my Eq);
    destruct (ex ?= ey); simpl; try reflexivity;
    destruct (Pos.compare_cont Eq mx my); reflexivity.
Qed.

Lemma SFmul_comm (x y : spec_float) : SF64mul x y = SF64mul y x.
Proof.
  unfold SF64mul.
  destruct x as [sx|sx| |sx mx ex], y as [sy|sy| |sy my ey]; simpl;
    rewrite ?(xorb_comm sy sx); try reflexivity.
  now rewrite (Pos.mul_comm my mx), (Z.add_comm ey ex).
Qed.

(** A float strictly between two others is a zero or a finite number. *)
Lemma SFltb_between_trunc (a x b : spec_float) :
  SFltb a x = true -> SFltb x b = true -> is_Some (Py.trunc_SF x).
Proof.
  unfold SFltb. intros Ha Hb.
  destruct x as [s|[]| |s m e]; simpl; eauto; exfalso;
    destruct a as [?|[]| |? ? ?], b as [?|[]| |? ? ?]; simpl in *; congruence.
Qed.

Lemma float_mul_comm (x y : float) : (x * y)%float = (y * x)%float.
Proof.
  apply Prim2SF_inj. rewrite !mul_spec. apply SFmul_comm.
Qed.

Lemma Prim2SF_zero : Prim2SF 0 = S754_zero false.
Proof. vm_compute. reflexivity. Qed.

Lemma Prim2SF_one : Prim2SF 1 = S754_finite false 4503599627370496 (-52).
Proof. vm_compute. reflexivity. Qed.

(** *** Keys and the IEEE order *)

Lemma digits2_pos_size (m : positive) : digits2_pos m = Pos.size m.
Proof. induction m; simpl; congruence. Qed.

Lemma Zdigits2_log2 (m : positive) : Zpos (digits2_pos m) = Z.log2 (Zpos m) + 1.
Proof.
  rewrite digits2_pos_size.
  destruct m; simpl; rewrite ?Pos.add_1_r; try reflexivity; lia.
Qed.

Lemma bounded_inv (m : positive) (e : Z) :
  bounded prec emax m e = true ->
  -1074 <= e <= 971 /\ Zpos m < 2 ^ 53 /\ (-1074 < e -> 2 ^ 52 <= Zpos m)
  /\ Z.max (Z.log2 (Zpos m) + 1 + e - 53) (-1074) = e.
Proof.
  unfold bounded, canonical_mantissa, fexp, SpecFloat.emin, prec, emax.
  rewrite Zdigits2_log2.
  intros [Hc He]%andb_prop. apply Z.eqb_eq in Hc. apply Z.leb_le in He.
  change (3 - 1024 - 53) with (-1074) in Hc.
  change (1024 - 53) with 971 in He.
  assert (0 < Zpos m) as Hpos by lia.
  pose proof (Z.log2_spec _ Hpos) as [Hlo Hhi].
  pose proof (Z.log2_nonneg (Zpos m)) as Hnn.
  split; [lia|]. split; [|split; [|lia]].
  - apply Z.log2_lt_pow2; lia.
  - intros Hn. apply Z.log2_le_pow2; lia.
Qed.

Lemma pow2_pos (n : Z) : 0 <= n -> 0 < 2 ^ n.
Proof. intros. apply Z.pow_pos_nonneg; lia. Qed.

Lemma key_finite_bounds (s : bool) (m : positive) (e : Z) :
  bounded prec emax m e = true ->
  0 < Zpos m * 2 ^ (e + 1074) < INF.
Proof.
  intros (He & Hm & _ & _)%bounded_inv.
  pose proof (pow2_pos (e + 1074) ltac:(lia)).
  split; [nia|].
  unfold INF. change 2098 with (53 + 2045).
  rewrite (Z.pow_add_r 2 53 2045) by lia.
  assert (2 ^ (e + 1074) <= 2 ^ 2045) by (apply Z.pow_le_mono_r; lia).
  generalize dependent (2 ^ (e + 1074)). generalize dependent (2 ^ 2045).
  generalize dependent (2 ^ 53). intros. nia.
Qed.

Lemma INF_pos : 0 < INF.
Proof. apply pow2_pos. lia. Qed.

Lemma ONE_pos : 0 < ONE.
Proof. apply pow2_pos. lia. Qed.

Lemma key_range (x : spec_float) :
  valid_binary x = true -> - INF <= key x <= INF.
Proof.
  pose proof INF_pos.
  destruct x as [?|[]| |[] m e]; cbn [key cond_Zopp valid_binary]; try lia;
    intros Hb%(key_finite_bounds true); lia.
Qed.

Lemma key_finite_range (x : spec_float) :
  valid_binary x = true -> SFis_finite x = true -> - INF < key x < INF.
Proof.
  pose proof INF_pos.
  destruct x as [?|[]| |[] m e]; cbn [key cond_Zopp valid_binary SFis_finite];
    try lia; try discriminate;
    intros Hb%(key_finite_bounds true); lia.
Qed.

Lemma key_pos_compare (m1 m2 : positive) (e1 e2 : Z) :
  bounded prec emax m1 e1 = true -> bounded prec emax m2 e2 = true ->
  match e1 ?= e2 with
  | Lt => Lt
  | Gt => Gt
  | Eq => Pos.compare_cont Eq m1 m2
  end = (Zpos m1 * 2 ^ (e1 + 1074) ?= Zpos m2 * 2 ^ (e2 + 1074)).
Proof.
  intros (He1 & Hm1 & Hn1 & _)%bounded_inv (He2 & Hm2 & Hn2 & _)%bounded_inv.
  assert (forall a b, 0 <= a < b -> 2 * 2 ^ a <= 2 ^ b) as Hstep.
  { intros a b Hab. replace b with (1 + a + (b - a - 1)) by lia.
    rewrite !Z.pow_add_r by lia.
    pose proof (pow2_pos a ltac:(lia)). pose proof (pow2_pos (b - a - 1) ltac:(lia)).
    change (2 ^ 1) with 2. nia. }
  destruct (Z.compare_spec e1 e2) as [->|Hlt|Hgt].
  - pose proof (pow2_pos (e2 + 1074) ltac:(lia)).
    change (Pos.compare_cont Eq m1 m2) with (Zpos m1 ?= Zpos m2).
    destruct (Z.compare_spec (Zpos m1) (Zpos m2)); symmetry;
      [apply Z.compare_eq_iff | apply Z.compare_lt_iff | apply Z.compare_gt_iff];
      nia.
  - symmetry. apply Z.compare_lt_iff.
    pose proof (Hstep (e1 + 1074) (e2 + 1074) ltac:(lia)).
    pose proof (pow2_pos (e1 + 1074) ltac:(lia)).
    specialize (Hn2 ltac:(lia)). nia.
  - symmetry. apply Z.compare_gt_iff.
    pose proof (Hstep (e2 + 1074) (e1 + 1074) ltac:(lia)).
    pose proof (pow2_pos (e2 + 1074) ltac:(lia)).
    specialize (Hn1 ltac:(lia)). nia.
Qed.

(** On valid floats other than NaN the IEEE comparison is the comparison of
    the keys. *)
Ltac compare_by_lia :=
  symmetry;
  first [ apply Z.compare_eq_iff; lia
        | apply Z.compare_lt_iff; lia
        | apply Z.compare_gt_iff; lia ].

Lemma SFcompare_key (x y : spec_float) :
  valid_binary x = true -> valid_binary y = true ->
  SFis_nan x = false -> SFis_nan y = false ->
  SFcompare x y = Some (key x ?= key y).
Proof.
  pose proof INF_pos as HI.
  destruct x as [sx|sx| |sx mx ex], y as [sy|sy| |sy my ey];
    intros Hx Hy Hnx Hny; try discriminate; cbn [valid_binary] in Hx, Hy;
    try pose proof (key_finite_bounds sx _ _ Hx);
    try pose proof (key_finite_bounds sy _ _ Hy).
  1-8: destruct sx, sy; cbn [SFcompare key cond_Zopp]; f_equal; compare_by_lia.
  destruct sx, sy; cbn [SFcompare key cond_Zopp]; f_equal.
  - rewrite Z.compare_opp, <- (key_pos_compare my mx ey ex) by assumption.
    rewrite (Z.compare_antisym ex ey).
    change (Pos.compare_cont Eq my mx) with (Pos.compare_cont (CompOpp Eq) my mx).
    rewrite <- (Pos.compare_cont_antisym mx my Eq).
    now destruct (ex ?= ey).
  - compare_by_lia.
  - compare_by_lia.
  - apply key_pos_compare; assumption.
Qed.

(** *** Rounding of keys *)

Lemma rne_between (X n : Z) : 0 <= n -> X / 2 ^ n <= rne X n <= X / 2 ^ n + 1.
Proof. intros. unfold rne. destruct (_ || _); lia. Qed.

Lemma rne_mono (X Y n : Z) : 0 <= n -> X <= Y -> rne X n <= rne Y n.
Proof.
  intros Hn HXY.
  pose proof (pow2_pos n Hn) as Hp.
  pose proof (rne_between X n Hn). pose proof (rne_between Y n Hn).
  pose proof (Z.div_le_mono X Y (2 ^ n) Hp HXY) as Hq.
  destruct (Z.eq_dec (X / 2 ^ n) (Y / 2 ^ n)) as [Heq|Hne]; [|lia].
  assert (X mod 2 ^ n <= Y mod 2 ^ n) as Hr.
  { pose proof (Z.div_mod X (2 ^ n)). pose proof (Z.div_mod Y (2 ^ n)). nia. }
  unfold rne. rewrite Heq.
  destruct (2 ^ n <? 2 * (X mod 2 ^ n)) eqn:E1, (2 ^ n =? 2 * (X mod 2 ^ n)) eqn:E2,
           (2 ^ n <? 2 * (Y mod 2 ^ n)) eqn:E3, (2 ^ n =? 2 * (Y mod 2 ^ n)) eqn:E4,
           (Z.odd (Y / 2 ^ n)); cbn [orb andb]; lia.
Qed.

Lemma rne_scale (X n a : Z) :
  0 <= n -> 0 <= a -> rne (X * 2 ^ a) (n + a) = rne X n.
Proof.
  intros Hn Ha. unfold rne.
  pose proof (pow2_pos n Hn). pose proof (pow2_pos a Ha).
  rewrite Z.pow_add_r by lia.
  rewrite Z.div_mul_cancel_r by lia.
  rewrite Z.mul_mod_distr_r by lia.
  replace (2 ^ n * 2 ^ a <? 2 * (X mod 2 ^ n * 2 ^ a))
    with (2 ^ n <? 2 * (X mod 2 ^ n)).
  2:{ destruct (Z.ltb_spec (2 ^ n) (2 * (X mod 2 ^ n)));
      symmetry; [apply Z.ltb_lt | apply Z.ltb_ge]; nia. }
  replace (2 ^ n * 2 ^ a =? 2 * (X mod 2 ^ n * 2 ^ a))
    with (2 ^ n =? 2 * (X mod 2 ^ n)).
  2:{ destruct (Z.eqb_spec (2 ^ n) (2 * (X mod 2 ^ n)));
      symmetry; [apply Z.eqb_eq | apply Z.eqb_neq]; nia. }
  reflexivity.
Qed.

Lemma rne_exact (m n : Z) : 0 <= n -> rne (m * 2 ^ n) n = m.
Proof.
  intros Hn. unfold rne. pose proof (pow2_pos n Hn).
  rewrite Z.div_mul, Z.mod_mul by lia.
  replace (2 ^ n <? 2 * 0) with false by (symmetry; apply Z.ltb_ge; lia).
  replace (2 ^ n =? 2 * 0) with false by (symmetry; apply Z.eqb_neq; lia).
  reflexivity.
Qed.

Lemma rne_0 (X : Z) : rne X 0 = X.
Proof.
  replace X with (X * 2 ^ 0) at 1 by (change (2 ^ 0) with 1; lia).
  apply rne_exact. lia.
Qed.

(** The shift of [rnd_pos] leaves a mantissa of at most 53 bits, and of
    exactly 53 bits when it is not zero. *)
Lemma shifted_mantissa (X : Z) :
  0 < X ->
  let n := Z.max (Z.log2 X - 52) 0 in
  X / 2 ^ n < 2 ^ 53 /\ (0 < n -> 2 ^ 52 <= X / 2 ^ n).
Proof.
  intros HX n.
  pose proof (Z.log2_spec X HX) as [Hlo Hhi].
  pose proof (Z.log2_nonneg X).
  assert (0 <= n) as Hn by lia.
  pose proof (pow2_pos n Hn).
  split.
  - apply Z.div_lt_upper_bound; [lia|].
    rewrite <- Z.pow_add_r by lia.
    eapply Z.lt_le_trans; [exact Hhi|].
    apply Z.pow_le_mono_r; lia.
  - intros Hn0. apply Z.div_le_lower_bound; [lia|].
    rewrite <- Z.pow_add_r by lia.
    replace (n + 52) with (Z.log2 X) by lia. exact Hlo.
Qed.

Lemma rnd_pos_mono (X Y : Z) : 0 < X -> X <= Y -> rnd_pos X <= rnd_pos Y.
Proof.
  intros HX HXY. unfold rnd_pos.
  pose proof (shifted_mantissa X HX) as [HXhi _].
  pose proof (shifted_mantissa Y ltac:(lia)) as [_ HYlo].
  pose proof (Z.log2_le_mono X Y HXY) as Hlog.
  pose proof (Z.log2_nonneg X).
  set (n := Z.max (Z.log2 X - 52) 0) in *.
  set (k := Z.max (Z.log2 Y - 52) 0) in *.
  assert (0 <= n <= k) as Hnk by lia.
  apply Z.min_le_compat_r.
  destruct (Z.eq_dec n k) as [<-|Hne].
  - pose proof (pow2_pos n ltac:(lia)).
    pose proof (rne_mono X Y n ltac:(lia) HXY). nia.
  - pose proof (rne_between X n ltac:(lia)).
    pose proof (rne_between Y k ltac:(lia)).
    specialize (HYlo ltac:(lia)).
    pose proof (pow2_pos n ltac:(lia)).
    pose proof (pow2_pos (k - n - 1) ltac:(lia)).
    assert (2 ^ k = 2 ^ n * 2 * 2 ^ (k - n - 1)) as ->.
    { replace k with (n + 1 + (k - n - 1)) at 1 by lia.
      rewrite !Z.pow_add_r by lia. reflexivity. }
    change (2 ^ 53) with (2 * 2 ^ 52) in HXhi.
    assert (rne X n <= 2 * rne Y k) as Hab by lia.
    assert (0 < rne Y k) by (pose proof (pow2_pos 52 ltac:(lia)); lia).
    set (a := rne X n) in *. set (b := rne Y k) in *.
    set (P := 2 ^ n) in *. set (Q := 2 ^ (k - n - 1)) in *.
    assert (a * P <= 2 * b * P) by nia.
    assert (2 * b * P * 1 <= 2 * b * P * Q) by (apply Z.mul_le_mono_nonneg_l; nia).
    lia.
Qed.

Lemma rnd_pos_range (X : Z) : 0 < X -> 0 < rnd_pos X <= INF.
Proof.
  intros HX. unfold rnd_pos.
  pose proof INF_pos.
  pose proof (Z.log2_nonneg X).
  set (n := Z.max (Z.log2 X - 52) 0).
  pose proof (pow2_pos n ltac:(lia)).
  pose proof (rne_between X n ltac:(lia)).
  pose proof (shifted_mantissa X HX) as [_ Hlo]. fold n in Hlo.
  assert (0 < X / 2 ^ n).
  { destruct (Z.eq_dec n 0) as [E|E].
    - rewrite E. change (2 ^ 0) with 1. rewrite Z.div_1_r. lia.
    - specialize (Hlo ltac:(lia)). pose proof (pow2_pos 52 ltac:(lia)). lia. }
  split; [|apply Z.le_min_r].
  apply Z.min_glb_lt; [nia|lia].
Qed.

Lemma rnd_mono (X Y : Z) : X <= Y -> rnd X <= rnd Y.
Proof.
  intros HXY.
  destruct X as [|x|x], Y as [|y|y]; cbn [rnd]; try lia;
    try (pose proof (rnd_pos_range (Zpos x) ltac:(lia)));
    try (pose proof (rnd_pos_range (Zpos y) ltac:(lia))); try lia.
  - apply rnd_pos_mono; lia.
  - pose proof (rnd_pos_mono (Zpos y) (Zpos x) ltac:(lia) ltac:(lia)). lia.
Qed.

Lemma rnd_range (X : Z) : - INF <= rnd X <= INF.
Proof.
  pose proof INF_pos.
  destruct X as [|x|x]; cbn [rnd]; try lia;
    pose proof (rnd_pos_range (Zpos x) ltac:(lia)); lia.
Qed.

Lemma rnd_opp (X : Z) : rnd (- X) = - rnd X.
Proof.
  destruct X as [|x|x]; try reflexivity.
  change (rnd_pos (Zpos x) = - - rnd_pos (Zpos x)). lia.
Qed.

(** *** [SpecFloat]'s rounding computes [rnd] *)

Lemma iter_pos_nat {A} (f : A -> A) (n : positive) (x : A) :
  SpecFloat.iter_pos f n x = Nat.iter (Pos.to_nat n) f x.
Proof.
  revert x. induction n as [n IH|n IH|]; intros x; cbn [SpecFloat.iter_pos].
  - rewrite !IH, Pos2Nat.inj_xI, <- Nat.iter_add, <- Nat.iter_succ_r.
    f_equal. lia.
  - rewrite !IH, Pos2Nat.inj_xO, <- Nat.iter_add. f_equal. lia.
  - reflexivity.
Qed.

Lemma iter_xO_pow (m k : positive) :
  Zpos (Pos.iter xO m k) = Zpos m * 2 ^ Zpos k.
Proof.
  rewrite Pos2Nat.inj_iter, <- (positive_nat_Z k).
  induction (Pos.to_nat k) as [|j IH]; [cbn; lia|].
  rewrite Nat2Z.inj_succ, Z.pow_succ_r by lia.
  cbn [nat_rect]. rewrite Pos2Z.inj_xO, IH. lia.
Qed.

Lemma shr_1_spec (m : Z) (r s : bool) :
  0 <= m ->
  shr_1 {| shr_m := m; shr_r := r; shr_s := s |}
  = {| shr_m := m / 2; shr_r := Z.odd m; shr_s := r || s |}.
Proof.
  intros Hm. rewrite <- Z.div2_div.
  destruct m as [|[p|p|]|]; try reflexivity. lia.
Qed.

(** After [j] steps the record holds the quotient by [2^j] and the position
    of the remainder with respect to the half. *)
Lemma iter_shr_1 (m : Z) (j : nat) :
  0 <= m ->
  let st := Nat.iter j shr_1 {| shr_m := m; shr_r := false; shr_s := false |} in
  let R := m mod 2 ^ Z.of_nat j in
  shr_m st = m / 2 ^ Z.of_nat j
  /\ (shr_r st = true <-> 2 ^ Z.of_nat j <= 2 * R)
  /\ (shr_s st = true <-> 0 < R /\ 2 * R <> 2 ^ Z.of_nat j).
Proof.
  intros Hm. induction j as [|j IH]; cbv zeta.
  - cbn [Nat.iter nat_rect shr_m shr_r shr_s Z.of_nat].
    change (2 ^ 0) with 1. rewrite Z.div_1_r, Z.mod_1_r.
    repeat split; intros; try lia; discriminate.
  - cbv zeta in IH. rewrite Nat.iter_succ.
    destruct (Nat.iter j shr_1 _) as [q r s].
    cbn [shr_m shr_r shr_s] in IH. destruct IH as (Hq & Hr & Hs).
    rewrite Nat2Z.inj_succ, Z.pow_succ_r by lia.
    set (P := 2 ^ Z.of_nat j) in *.
    assert (0 < P) as HP by (apply pow2_pos; lia).
    pose proof (Z.mod_pos_bound m P HP) as HR.
    assert (0 <= q) as Hq0 by (subst q; apply Z.div_pos; lia).
    rewrite shr_1_spec by assumption. cbn [shr_m shr_r shr_s].
    rewrite (Z.mul_comm 2 P), Z.rem_mul_r by lia.
    rewrite <- Z.div_div by lia. rewrite <- Hq.
    rewrite Zmod_odd.
    split; [reflexivity|].
    destruct (Z.odd q), r, s; split; split; intros; try split; try lia;
      try discriminate; try reflexivity;
      try (exfalso; lia).
Qed.

Lemma shr_round (m e n : Z) :
  0 <= m ->
  let k := Z.max n 0 in
  let '(mrs, e') := shr {| shr_m := m; shr_r := false; shr_s := false |} e n in
  e' = e + k
  /\ shr_m mrs = m / 2 ^ k
  /\ round_nearest_even (shr_m mrs) (loc_of_shr_record mrs) = rne m k.
Proof.
  intros Hm k.
  assert (exists j : nat, k = Z.of_nat j
          /\ shr {| shr_m := m; shr_r := false; shr_s := false |} e n
             = (Nat.iter j shr_1 {| shr_m := m; shr_r := false; shr_s := false |},
                e + k)) as (j & Hj & ->).
  { destruct n as [|p|p]; cbn [shr].
    - exists 0%nat. split; [reflexivity|]. f_equal. subst k. cbn. lia.
    - exists (Pos.to_nat p). rewrite iter_pos_nat.
      split; [subst k; lia|]. f_equal.
    - exists 0%nat. split; [reflexivity|]. f_equal. subst k. cbn. lia. }
  pose proof (iter_shr_1 m j Hm) as H. cbv zeta in H. rewrite <- Hj in H.
  destruct (Nat.iter j shr_1 _) as [q r s].
  cbn [shr_m shr_r shr_s] in H. destruct H as (Hq & Hr & Hs).
  split; [reflexivity|]. cbn [shr_m]. split; [assumption|].
  unfold rne. rewrite <- Hq.
  assert (0 < 2 ^ k) as HP by (apply pow2_pos; lia).
  pose proof (Z.mod_pos_bound m (2 ^ k) HP) as HR.
  destruct r, s; cbn [loc_of_shr_record round_nearest_even];
    rewrite <- ?(Z.negb_odd q);
    destruct (Z.ltb_spec (2 ^ k) (2 * (m mod 2 ^ k))),
             (Z.eqb_spec (2 ^ k) (2 * (m mod 2 ^ k))),
             (Z.odd q);
    cbn [orb andb negb];
    try reflexivity; exfalso;
    repeat match goal with
           | H : _ <-> _ |- _ => destruct H
           end;
    try lia;
    repeat match goal with
           | H : true = true -> _ |- _ => specialize (H eq_refl)
           end;
    try lia;
    repeat match goal with
           | H : ?P -> false = true |- _ =>
               assert (~ P) by (intros HP'; specialize (H HP'); discriminate);
               clear H
           end;
    lia.
Qed.

Lemma INF_split_hi : INF = 2 ^ 53 * 2 ^ 2045.
Proof. unfold INF. rewrite <- Z.pow_add_r by lia. reflexivity. Qed.

Lemma INF_split_lo : INF = 2 ^ 52 * 2 ^ 2046.
Proof. unfold INF. rewrite <- Z.pow_add_r by lia. reflexivity. Qed.

Lemma mul_lt_bound (p A B C : Z) :
  0 < p < C -> 0 < A <= B -> p * A < C * B.
Proof.
  intros Hp HA.
  apply Z.le_lt_trans with (p * B).
  - apply Z.mul_le_mono_nonneg_l; lia.
  - apply Z.mul_lt_mono_pos_r; lia.
Qed.

Lemma mul_ge_bound (p A B C : Z) :
  0 < C <= p -> 0 < B <= A -> C * B <= p * A.
Proof.
  intros Hp HA.
  apply Z.le_trans with (p * B).
  - apply Z.mul_le_mono_nonneg_r; lia.
  - apply Z.mul_le_mono_nonneg_l; lia.
Qed.

Lemma fexp64 (z : Z) : fexp prec emax z = Z.max (z - 53) (-1074).
Proof. reflexivity. Qed.

Lemma shl_align_spec (m : positive) (e e' : Z) :
  let '(mz, ez) := shl_align m e e' in
  ez = Z.min e e' /\ Zpos mz = Zpos m * 2 ^ (e - ez).
Proof.
  unfold shl_align.
  destruct (e' - e) as [|p|p] eqn:Hd.
  - replace (Z.min e e') with e by lia. rewrite Z.sub_diag. split; lia.
  - replace (Z.min e e') with e by lia. rewrite Z.sub_diag. split; lia.
  - replace (Z.min e e') with e' by lia. split; [reflexivity|].
    rewrite iter_xO_pow. do 2 f_equal. lia.
Qed.

Lemma Zdigits2_pos (q : Z) : 0 < q -> Zdigits2 q = Z.log2 q + 1.
Proof. destruct q; try lia. intros _. apply Zdigits2_log2. Qed.

(** The two shifts of [binary_round_aux] on an exact positive mantissa whose
    exponent is not above the target exponent. *)
Lemma binary_round_aux_key (s : bool) (mz : positive) (ez : Z) :
  -1074 <= ez ->
  ez <= Z.max (Z.log2 (Zpos mz) + 1 + ez - 53) (-1074) ->
  let r := binary_round_aux prec emax s (Zpos mz) ez loc_Exact in
  SFis_nan r = false
  /\ key r = cond_Zopp s (rnd_pos (Zpos mz * 2 ^ (ez + 1074))).
Proof.
  intros Hez HE. cbv zeta.
  remember (Z.max (Z.log2 (Zpos mz) + 1 + ez - 53) (-1074)) as E eqn:HEdef.
  remember (Zpos mz * 2 ^ (ez + 1074)) as X eqn:HXdef.
  assert (0 < 2 ^ (ez + 1074)) as Hpa by (apply pow2_pos; lia).
  assert (0 < X) as HX by (subst X; nia).
  assert (Z.log2 X = Z.log2 (Zpos mz) + (ez + 1074)) as HlogX.
  { rewrite HXdef, Z.log2_mul_pow2 by lia. lia. }
  pose proof (shifted_mantissa X HX) as Hsm. cbv zeta in Hsm.
  unfold rnd_pos.
  assert (Z.max (Z.log2 X - 52) 0 = E + 1074) as Hn
    by (clear - HEdef HlogX; lia).
  rewrite Hn in *.
  set (k1 := E - ez).
  assert (rne X (E + 1074) = rne (Zpos mz) k1) as Hrne.
  { subst k1. rewrite HXdef. replace (E + 1074) with (E - ez + (ez + 1074)) by lia.
    apply rne_scale; lia. }
  assert (X / 2 ^ (E + 1074) = Zpos mz / 2 ^ k1) as Hdiv.
  { subst k1. rewrite HXdef. replace (E + 1074) with (E - ez + (ez + 1074)) by lia.
    rewrite (Z.pow_add_r 2 (E - ez)) by lia. apply Z.div_mul_cancel_r; lia. }
  rewrite Hrne. rewrite Hdiv in Hsm. destruct Hsm as [Hhi Hlo].
  pose proof (rne_between (Zpos mz) k1 ltac:(lia)) as Hbt.
  unfold binary_round_aux, shr_fexp. cbn [shr_record_of_loc].
  rewrite Zdigits2_pos, fexp64 by lia.
  rewrite <- HEdef. fold k1.
  pose proof (shr_round (Zpos mz) ez k1 ltac:(lia)) as H1. cbv zeta in H1.
  destruct (shr _ ez k1) as [mrs' e'].
  destruct H1 as (-> & _ & ->).
  replace (Z.max k1 0) with k1 in * by lia.
  replace (ez + k1) with E by lia.
  set (q' := rne (Zpos mz) k1) in *.
  assert (0 < q') as Hq'.
  { destruct (Z.eq_dec k1 0) as [E0|E0].
    - subst q'. rewrite E0, rne_0. lia.
    - assert (0 < 2 ^ 52) by (apply pow2_pos; lia). lia. }
  rewrite Zdigits2_pos, fexp64 by assumption.
  set (k2 := Z.max (Z.log2 q' + 1 + E - 53) (-1074) - E).
  pose proof (shr_round q' E k2 ltac:(lia)) as H2. cbv zeta in H2.
  destruct (shr _ E k2) as [mrs'' e''].
  destruct H2 as (-> & Hq'' & _).
  change (Z.sub emax prec) with 971.
  assert (0 < 2 ^ 52) as H52 by (apply pow2_pos; lia).
  assert (2 ^ 53 = 2 * 2 ^ 52) as H53 by reflexivity.
  assert (exists j, Z.max k2 0 = j /\ 0 <= j
                    /\ shr_m mrs'' * 2 ^ j = q'
                    /\ 0 < shr_m mrs'' < 2 ^ 53
                    /\ (-1074 < E + j -> 2 ^ 52 <= shr_m mrs''))
    as (j & -> & Hj & Hqj & Hqr & Hqn).
  { destruct (Z.eq_dec q' (2 ^ 53)) as [Heq|Hne].
    - exists 1. assert (k2 = 1) as Hk2.
      { subst k2. rewrite Heq, Z.log2_pow2 by lia. lia. }
      rewrite Hk2 in *. change (Z.max 1 0) with 1 in *.
      rewrite Hq'', Heq. change (2 ^ 53 / 2 ^ 1) with (2 ^ 52).
      change (2 ^ 1) with 2. lia.
    - exists 0. assert (q' < 2 ^ 53) as Hlt by lia.
      apply Z.log2_lt_pow2 in Hlt; [|assumption].
      assert (0 < E + 1074 -> 52 <= Z.log2 q') as Hge.
      { intros HEp. apply Z.log2_le_pow2; [assumption|]. lia. }
      assert (Z.max k2 0 = 0) as Hk2 by (subst k2; lia).
      rewrite Hk2 in *. change (2 ^ 0) with 1 in *.
      rewrite Z.div_1_r in Hq''. rewrite Hq''.
      split; [reflexivity|]. split; [lia|]. split; [lia|].
      split; [lia|]. intros HEj. lia. }
  destruct (shr_m mrs'') as [|p|p]; try lia.
  rewrite <- Hqj.
  assert (0 < 2 ^ (E + 1074)) by (apply pow2_pos; lia).
  assert (Zpos p * 2 ^ j * 2 ^ (E + 1074) = Zpos p * 2 ^ (E + j + 1074)) as ->.
  { rewrite <- Z.mul_assoc, <- Z.pow_add_r by lia. do 2 f_equal. lia. }
  destruct (Z.leb_spec (E + j) 971) as [Hfin|Hovf]; cbn [SFis_nan key];
    (split; [reflexivity|]); f_equal.
  - symmetry. apply Z.min_l. apply Z.lt_le_incl.
    rewrite INF_split_hi. apply mul_lt_bound; [lia|].
    split; [apply pow2_pos; lia | apply Z.pow_le_mono_r; lia].
  - symmetry. apply Z.min_r.
    rewrite INF_split_lo. apply mul_ge_bound; [split; [assumption | apply Hqn; lia]|].
    split; [apply pow2_pos; lia | apply Z.pow_le_mono_r; lia].
Qed.

(** [binary_round] of a positive mantissa at an exponent of at least -1074. *)
Lemma binary_round_key (s : bool) (m : positive) (e : Z) :
  -1074 <= e ->
  let r := binary_round prec emax s m e in
  SFis_nan r = false
  /\ key r = cond_Zopp s (rnd_pos (Zpos m * 2 ^ (e + 1074))).
Proof.
  intros He. cbv zeta. unfold binary_round.
  rewrite Zdigits2_log2, fexp64.
  pose proof (shl_align_spec m e (Z.max (Z.log2 (Zpos m) + 1 + e - 53) (-1074)))
    as Hsh.
  destruct (shl_align m e _) as [mz ez]. destruct Hsh as [Hez Hmz].
  assert (Z.log2 (Zpos mz) = Z.log2 (Zpos m) + (e - ez)) as Hlog.
  { rewrite Hmz, Z.log2_mul_pow2 by lia. lia. }
  assert (Zpos mz * 2 ^ (ez + 1074) = Zpos m * 2 ^ (e + 1074)) as <-.
  { rewrite Hmz, <- Z.mul_assoc, <- Z.pow_add_r by lia. do 2 f_equal. lia. }
  apply binary_round_aux_key; lia.
Qed.

Lemma binary_normalize_key (M e : Z) (szero : bool) :
  -1074 <= e ->
  let r := binary_normalize prec emax M e szero in
  SFis_nan r = false /\ key r = rnd (M * 2 ^ (e + 1074)).
Proof.
  intros He. cbv zeta.
  assert (0 < 2 ^ (e + 1074)) as Hp by (apply pow2_pos; lia).
  destruct M as [|m|m]; cbn [binary_normalize].
  - split; reflexivity.
  - destruct (binary_round_key false m e He) as [-> ->].
    split; [reflexivity|]. cbn [cond_Zopp].
    destruct (Zpos m * 2 ^ (e + 1074)) eqn:E; try lia. reflexivity.
  - destruct (binary_round_key true m e He) as [-> ->].
    split; [reflexivity|]. cbn [cond_Zopp].
    replace (Zneg m * 2 ^ (e + 1074)) with (- (Zpos m * 2 ^ (e + 1074))) by lia.
    rewrite rnd_opp.
    destruct (Zpos m * 2 ^ (e + 1074)) eqn:E; try lia. reflexivity.
Qed.

(** *** Addition and subtraction on keys *)

Lemma cond_Zopp_mul (s : bool) (a b : Z) :
  cond_Zopp s a * b = cond_Zopp s (a * b).
Proof. destruct s; cbn [cond_Zopp]; lia. Qed.

Lemma cond_Zopp_negb (s : bool) (a : Z) : cond_Zopp (negb s) a = - cond_Zopp s a.
Proof. destruct s; cbn [cond_Zopp negb]; lia. Qed.

Lemma rnd_cond_Zopp (s : bool) (X : Z) : rnd (cond_Zopp s X) = cond_Zopp s (rnd X).
Proof. destruct s; cbn [cond_Zopp]; [apply rnd_opp | reflexivity]. Qed.

Lemma rnd_pos_id (m : positive) (e : Z) :
  bounded prec emax m e = true ->
  rnd_pos (Zpos m * 2 ^ (e + 1074)) = Zpos m * 2 ^ (e + 1074).
Proof.
  intros Hb. pose proof (key_finite_bounds false m e Hb) as HX.
  apply bounded_inv in Hb. destruct Hb as (He & _ & _ & Hc).
  unfold rnd_pos.
  assert (Z.max (Z.log2 (Zpos m * 2 ^ (e + 1074)) - 52) 0 = e + 1074) as ->.
  { rewrite Z.log2_mul_pow2 by lia. lia. }
  rewrite rne_exact by lia. apply Z.min_l. lia.
Qed.

(** Rounding leaves a representable number unchanged. *)
Lemma rnd_key_id (x : spec_float) :
  valid_binary x = true -> SFis_finite x = true -> rnd (key x) = key x.
Proof.
  destruct x as [s|s| |s m e]; try discriminate; intros Hv _; [reflexivity|].
  cbn [key valid_binary] in *.
  pose proof (key_finite_bounds s m e Hv) as HX.
  rewrite rnd_cond_Zopp. f_equal.
  destruct (Zpos m * 2 ^ (e + 1074)) eqn:E; try lia.
  cbn [rnd]. rewrite <- E. apply rnd_pos_id. assumption.
Qed.

Lemma aligned_key (s : bool) (m : positive) (e ez : Z) :
  -1074 <= ez -> ez <= e ->
  cond_Zopp s (Zpos (fst (shl_align m e ez))) * 2 ^ (ez + 1074)
  = cond_Zopp s (Zpos m * 2 ^ (e + 1074)).
Proof.
  intros Hz He. pose proof (shl_align_spec m e ez) as H.
  destruct (shl_align m e ez) as [mz ez']. destruct H as [-> Hm].
  cbn [fst]. rewrite cond_Zopp_mul. f_equal.
  rewrite Hm, <- Z.mul_assoc, <- Z.pow_add_r by lia. do 2 f_equal. lia.
Qed.

Lemma SFadd_key (x y : spec_float) :
  valid_binary x = true -> valid_binary y = true ->
  SFis_finite x = true -> SFis_finite y = true ->
  SFis_nan (SF64add x y) = false /\ key (SF64add x y) = rnd (key x + key y).
Proof.
  intros Hx Hy Fx Fy. unfold SF64add.
  destruct x as [sx|sx| |sx mx ex], y as [sy|sy| |sy my ey]; try discriminate.
  - destruct sx, sy; split; reflexivity.
  - cbn [SFadd key]. rewrite Z.add_0_l.
    split; [reflexivity|]. symmetry. apply (rnd_key_id (S754_finite sy my ey)); assumption.
  - cbn [SFadd key]. rewrite Z.add_0_r.
    split; [reflexivity|]. symmetry. apply (rnd_key_id (S754_finite sx mx ex)); assumption.
  - cbn [SFadd key]. cbn [valid_binary] in Hx, Hy.
    pose proof (bounded_inv _ _ Hx) as (Hex & _). pose proof (bounded_inv _ _ Hy) as (Hey & _).
    destruct (binary_normalize_key
                (cond_Zopp sx (Zpos (fst (shl_align mx ex (Z.min ex ey))))
                 + cond_Zopp sy (Zpos (fst (shl_align my ey (Z.min ex ey)))))
                (Z.min ex ey) false ltac:(lia)) as [Hn Hk].
    split; [exact Hn|]. rewrite Hk. f_equal.
    rewrite Z.mul_add_distr_r, !aligned_key by lia. reflexivity.
Qed.

Lemma SFsub_key (x y : spec_float) :
  valid_binary x = true -> valid_binary y = true ->
  SFis_finite x = true -> SFis_finite y = true ->
  SFis_nan (SF64sub x y) = false /\ key (SF64sub x y) = rnd (key x - key y).
Proof.
  intros Hx Hy Fx Fy. unfold SF64sub.
  destruct x as [sx|sx| |sx mx ex], y as [sy|sy| |sy my ey]; try discriminate.
  - destruct sx, sy; split; reflexivity.
  - cbn [SFsub key]. rewrite Z.sub_0_l.
    split; [reflexivity|]. rewrite cond_Zopp_negb, rnd_opp. f_equal.
    symmetry. apply (rnd_key_id (S754_finite sy my ey)); assumption.
  - cbn [SFsub key]. rewrite Z.sub_0_r.
    split; [reflexivity|]. symmetry. apply (rnd_key_id (S754_finite sx mx ex)); assumption.
  - cbn [SFsub key]. cbn [valid_binary] in Hx, Hy.
    pose proof (bounded_inv _ _ Hx) as (Hex & _). pose proof (bounded_inv _ _ Hy) as (Hey & _).
    destruct (binary_normalize_key
                (cond_Zopp sx (Zpos (fst (shl_align mx ex (Z.min ex ey))))
                 - cond_Zopp sy (Zpos (fst (shl_align my ey (Z.min ex ey)))))
                (Z.min ex ey) false ltac:(lia)) as [Hn Hk].
    split; [exact Hn|]. rewrite Hk. f_equal.
    rewrite Z.mul_sub_distr_r, !aligned_key by lia. reflexivity.
Qed.

Lemma key_infinite (x : spec_float) :
  SFis_finite x = false -> SFis_nan x = false ->
  exists s, x = S754_infinity s.
Proof. destruct x; try discriminate. eauto. Qed.

(** *** Primitive floats *)

Lemma SFcompare_nan_r (x : spec_float) : SFcompare x S754_nan = None.
Proof. destruct x; reflexivity. Qed.

Lemma compare_key (x y : float) :
  SFcompare (Prim2SF x) (Prim2SF y)
  = if fnan x || fnan y then None else Some (fkey x ?= fkey y).
Proof.
  unfold fnan, fkey.
  destruct (SFis_nan (Prim2SF x)) eqn:Hx.
  { destruct (Prim2SF x); try discriminate. reflexivity. }
  destruct (SFis_nan (Prim2SF y)) eqn:Hy.
  { destruct (Prim2SF y); try discriminate. apply SFcompare_nan_r. }
  apply SFcompare_key; auto using Prim2SF_valid.
Qed.

Lemma leb_key (x y : float) :
  PrimFloat.leb x y = negb (fnan x || fnan y) && (fkey x <=? fkey y).
Proof.
  rewrite FloatAxioms.leb_spec. unfold SFleb. rewrite compare_key.
  destruct (fnan x || fnan y); [reflexivity|]. cbn [negb andb].
  unfold Z.leb. now destruct (fkey x ?= fkey y).
Qed.

Lemma ltb_key (x y : float) :
  PrimFloat.ltb x y = negb (fnan x || fnan y) && (fkey x <? fkey y).
Proof.
  rewrite FloatAxioms.ltb_spec. unfold SFltb. rewrite compare_key.
  destruct (fnan x || fnan y); [reflexivity|]. cbn [negb andb].
  unfold Z.ltb. now destruct (fkey x ?= fkey y).
Qed.

Lemma fkey_range (x : float) : - INF <= fkey x <= INF.
Proof. apply key_range, Prim2SF_valid. Qed.

Lemma fkey_finite_range (x : float) : ffinite x = true -> - INF < fkey x < INF.
Proof. apply key_finite_range, Prim2SF_valid. Qed.

Lemma fkey_infinite (x : float) :
  ffinite x = false -> fnan x = false -> fkey x = INF \/ fkey x = - INF.
Proof.
  unfold ffinite, fnan, fkey. intros Hf Hn.
  destruct (key_infinite _ Hf Hn) as [[] ->]; cbn [key cond_Zopp]; auto.
Qed.

Lemma ffinite_not_nan (x : float) : ffinite x = true -> fnan x = false.
Proof. unfold ffinite, fnan. now destruct (Prim2SF x). Qed.

(** [x + c] for a finite [c]. *)
Lemma add_key (x c : float) :
  fnan x = false -> ffinite c = true ->
  fnan (x + c) = false
  /\ fkey (x + c) = if ffinite x then rnd (fkey x + fkey c) else fkey x.
Proof.
  unfold fnan, ffinite, fkey. rewrite add_spec. intros Hn Hc.
  destruct (SFis_finite (Prim2SF x)) eqn:Hf.
  - apply SFadd_key; auto using Prim2SF_valid.
  - destruct (key_infinite _ Hf Hn) as [s ->].
    unfold SF64add. destruct (Prim2SF c); try discriminate; split; reflexivity.
Qed.

Lemma add_nan (x c : float) : fnan x = true -> fnan (x + c) = true.
Proof.
  unfold fnan. rewrite add_spec. now destruct (Prim2SF x).
Qed.

(** Adding a finite constant is monotone. *)
Lemma add_mono (x y c : float) :
  PrimFloat.leb x y = true -> ffinite c = true ->
  PrimFloat.leb (x + c) (y + c) = true.
Proof.
  rewrite !leb_key. intros [Hn Hle]%andb_prop Hc.
  apply negb_true_iff, orb_false_elim in Hn. destruct Hn as [Hnx Hny].
  apply Z.leb_le in Hle.
  destruct (add_key x c Hnx Hc) as [-> ->], (add_key y c Hny Hc) as [-> ->].
  cbn [orb negb andb]. apply Z.leb_le.
  pose proof (rnd_range (fkey x + fkey c)). pose proof (rnd_range (fkey y + fkey c)).
  destruct (ffinite x) eqn:Fx, (ffinite y) eqn:Fy.
  - apply rnd_mono. lia.
  - pose proof (fkey_finite_range x Fx). destruct (fkey_infinite y Fy Hny); lia.
  - pose proof (fkey_finite_range y Fy). destruct (fkey_infinite x Fx Hnx); lia.
  - assumption.
Qed.

(** [a - t] and [b - t] for finite [a <= b]: both are NaN, or they are in
    order. *)
Lemma sub_mono (a b t : float) :
  PrimFloat.leb a b = true -> ffinite a = true -> ffinite b = true ->
  fnan (a - t) = true /\ fnan (b - t) = true
  \/ PrimFloat.leb (a - t) (b - t) = true.
Proof.
  rewrite !leb_key. intros [_ Hle]%andb_prop Fa Fb. apply Z.leb_le in Hle.
  unfold fnan, ffinite, fkey in *. rewrite !sub_spec.
  pose proof (Prim2SF_valid a) as Va. pose proof (Prim2SF_valid b) as Vb.
  pose proof (Prim2SF_valid t) as Vt.
  destruct (SFis_finite (Prim2SF t)) eqn:Ft.
  - right.
    destruct (SFsub_key _ _ Va Vt Fa Ft) as [-> ->].
    destruct (SFsub_key _ _ Vb Vt Fb Ft) as [-> ->].
    cbn [orb negb andb]. apply Z.leb_le, rnd_mono. lia.
  - unfold SF64sub.
    destruct (Prim2SF t) as [st|st| |st mt et]; try discriminate.
    + right.
      destruct (Prim2SF a); try discriminate; destruct (Prim2SF b); try discriminate;
        cbn [SFsub SFis_nan orb negb andb key]; apply Z.leb_refl.
    + left.
      destruct (Prim2SF a); try discriminate; destruct (Prim2SF b); try discriminate;
        split; reflexivity.
Qed.

(** The processor's sums and the rounding of keys, side by side. *)
Example rnd_agrees_with_the_processor :
  fkey (0.1 + 0.2) = rnd (fkey 0.1 + fkey 0.2)
  /\ fkey (600 - 0.3 * 20) = rnd (fkey 600 - fkey (0.3 * 20))
  /\ fkey (5e-324 + 1) = rnd (fkey 5e-324 + fkey 1)
  /\ fkey (1e308 + 1e308) = INF.
Proof. repeat split; vm_compute; reflexivity. Qed.

End B64_facts.

Import B64 B64_facts.

(** ** The range clamp *)

Lemma fkey_0 : fkey 0 = 0. Proof. reflexivity. Qed.
Lemma fkey_1 : fkey 1 = ONE. Proof. vm_compute. reflexivity. Qed.

(** [clamp01] is the clamp of the reals into [0, 1] on every double but NaN,
    which it sends to 1.0. *)
Lemma clamp01_cases (x : float) :
  (fnan x = true -> clamp01 x = 1%float)
  /\ (PrimFloat.leb x 0 = true -> clamp01 x = 0%float)
  /\ (PrimFloat.ltb 0 x = true -> PrimFloat.ltb x 1 = true -> clamp01 x = x)
  /\ (PrimFloat.leb 1 x = true -> clamp01 x = 1%float).
Proof.
  pose proof ONE_pos.
  assert (PrimFloat.ltb x 1 = negb (fnan x) && (fkey x <? ONE)) as A.
  { rewrite ltb_key, fkey_1. change (fnan 1) with false. now rewrite orb_false_r. }
  assert (PrimFloat.ltb 0 x = negb (fnan x) && (0 <? fkey x)) as B.
  { rewrite ltb_key, fkey_0. reflexivity. }
  assert (PrimFloat.leb x 0 = negb (fnan x) && (fkey x <=? 0)) as C.
  { rewrite leb_key, fkey_0. change (fnan 0) with false. now rewrite orb_false_r. }
  assert (PrimFloat.leb 1 x = negb (fnan x) && (ONE <=? fkey x)) as D.
  { rewrite leb_key, fkey_1. reflexivity. }
  unfold clamp01, Py.fmax, Py.fmin. rewrite C, D.
  destruct (PrimFloat.ltb x 1);
    [destruct (PrimFloat.ltb 0 x) | change (PrimFloat.ltb 0 1) with true; cbv iota];
    destruct (fnan x); cbn [negb andb] in *;
    repeat split; intros; try discriminate; try reflexivity; exfalso;
    repeat match goal with
           | H : (_ <? _) = _ |- _ => first [apply Z.ltb_lt in H | apply Z.ltb_ge in H]
           | H : _ = (_ <? _) |- _ => symmetry in H
           | H : (_ <=? _) = _ |- _ => first [apply Z.leb_le in H | apply Z.leb_gt in H]
           end;
    lia.
Qed.

Lemma clamp01_range (x : float) :
  PrimFloat.leb 0 (clamp01 x) = true /\ PrimFloat.leb (clamp01 x) 1 = true.
Proof.
  unfold clamp01, Py.fmax, Py.fmin.
  destruct (PrimFloat.ltb x 1) eqn:H1; [|split; reflexivity].
  destruct (PrimFloat.ltb 0 x) eqn:H0; [|split; reflexivity].
  rewrite ltb_key in H0, H1. rewrite !leb_key.
  apply andb_prop in H0 as [-> H0%Z.ltb_lt], H1 as [-> H1%Z.ltb_lt].
  cbn [andb]. split; apply Z.leb_le; lia.
Qed.

Lemma ltb_between_int (a x b : float) :
  PrimFloat.ltb a x = true -> PrimFloat.ltb x b = true ->
  is_Some (Py.int (Py.Float x)).
Proof.
  rewrite !FloatAxioms.ltb_spec. apply SFltb_between_trunc.
Qed.

(** ** Totality: the scorers raise no exception on a float dictionary *)

Lemma cap_int_total (cfg : Settings) (score : float) :
  is_Some (Py.int (Credit.cap cfg score)).
Proof.
  unfold Credit.cap, Py.max, Py.min, Py.gt.
  cbn [Py.lt Py.to_float].
  destruct (PrimFloat.ltb score _) eqn:Hhi.
  - cbn [Py.lt Py.to_float].
    destruct (PrimFloat.ltb _ score) eqn:Hlo.
    + eapply ltb_between_int; eassumption.
    + simpl. eauto.
  - cbn [Py.lt]. destruct (_ <? _); simpl; eauto.
Qed.

Lemma credit_mock_predict_total (cfg : Settings) (features : gmap string float) :
  is_Some (Credit._mock_predict cfg features).
Proof.
  unfold Credit._mock_predict.
  destruct (cap_int_total cfg (Credit.mock_score features)) as [z ->].
  simpl. eauto.
Qed.

Lemma credit_predict_total (cfg : Settings) model (features : gmap string float) :
  is_Some (Credit.predict cfg model features).
Proof.
  destruct model as [model_predict|]; [|apply credit_mock_predict_total].
  unfold Credit.predict.
  destruct (cap_int_total cfg
             (model_predict (_prepare_features Credit.feature_names features)))
    as [z ->].
  simpl. eauto.
Qed.

Lemma avg_divisor_nonzero (features : gmap string float) :
  PrimFloat.eqb (Risk.avg_divisor features) 0 = false.
Proof.
  unfold Risk.avg_divisor, Py.fmax.
  destruct (PrimFloat.ltb _ 1) eqn:Hlt; [reflexivity|].
  revert Hlt. rewrite FloatAxioms.ltb_spec, FloatAxioms.eqb_spec, Prim2SF_zero, Prim2SF_one.
  now destruct (Prim2SF _) as [?|[]| |[] ? ?].
Qed.

Lemma avg_divisor_ge_1 (features : gmap string float) :
  is_nan (get features "avg_amount_7d" 1) = false ->
  PrimFloat.leb 1 (Risk.avg_divisor features) = true.
Proof.
  unfold Risk.avg_divisor, Py.fmax, is_nan.
  destruct (PrimFloat.ltb _ 1) eqn:Hlt; [reflexivity|].
  revert Hlt. rewrite FloatAxioms.ltb_spec, FloatAxioms.leb_spec, FloatAxioms.eqb_spec.
  unfold SFltb, SFleb, SFeqb.
  rewrite (SFcompare_antisym (Prim2SF _) (Prim2SF 1)).
  destruct (SFcompare (Prim2SF _) (Prim2SF 1)) as [[]|] eqn:Hc;
    simpl; try congruence.
  intros _. rewrite Prim2SF_one in Hc.
  now destruct (Prim2SF _) as [?|[]| |[] ? ?].
Qed.

Lemma fraud_features_total (features : gmap string float) :
  is_Some (Risk.fraud_features features).
Proof.
  unfold Risk.fraud_features, Py.truediv.
  rewrite avg_divisor_nonzero. simpl. eauto.
Qed.

Lemma risk_predict_total (cfg : Settings) credit_model fraud_model
    (features : gmap string float) :
  is_Some (Risk.predict cfg credit_model fraud_model features).
Proof.
  unfold Risk.predict.
  destruct (fraud_features_total features) as [ff ->].
  destruct (credit_predict_total cfg credit_model (Risk.credit_features features))
    as [cr ->].
  simpl. eauto.
Qed.

(** ** The cap of the credit score on keys *)

Lemma cap_bounds_lt_INF : 850 * ONE < INF.
Proof.
  unfold ONE, INF. apply Z.lt_le_trans with (2 ^ 10 * 2 ^ 1074).
  - apply Z.mul_lt_mono_pos_r; [apply pow2_pos|]; lia.
  - rewrite <- Z.pow_add_r by lia. apply Z.pow_le_mono_r; lia.
Qed.

Lemma fkey_300 : fkey 300 = 300 * ONE. Proof. vm_compute. reflexivity. Qed.
Lemma fkey_600 : fkey 600 = 600 * ONE. Proof. vm_compute. reflexivity. Qed.
Lemma fkey_650 : fkey 650 = 650 * ONE. Proof. vm_compute. reflexivity. Qed.
Lemma fkey_700 : fkey 700 = 700 * ONE. Proof. vm_compute. reflexivity. Qed.
Lemma fkey_750 : fkey 750 = 750 * ONE. Proof. vm_compute. reflexivity. Qed.
Lemma fkey_850 : fkey 850 = 850 * ONE. Proof. vm_compute. reflexivity. Qed.

Lemma finite_of_range (x : float) :
  fnan x = false -> - INF < fkey x < INF -> ffinite x = true.
Proof.
  intros Hn Hr. destruct (ffinite x) eqn:Hf; [reflexivity|].
  destruct (fkey_infinite x Hf Hn); lia.
Qed.

(** [int(x)] of a finite non-negative double is the integer part of its
    key. *)
Lemma trunc_key (x : float) :
  ffinite x = true -> 0 <= fkey x ->
  Py.int (Py.Float x) = Some (fkey x / ONE).
Proof.
  unfold ffinite, fkey. cbn [Py.int]. pose proof (Prim2SF_valid x) as Hv.
  pose proof ONE_pos as H1.
  destruct (Prim2SF x) as [s|s| |s m e]; try discriminate; intros _ Hk.
  { cbn [Py.trunc_SF key]. now rewrite Z.div_0_l by lia. }
  cbn [valid_binary] in Hv. pose proof (key_finite_bounds s m e Hv) as Hb.
  apply bounded_inv in Hv. destruct Hv as (He & _).
  cbn [key] in *. destruct s; cbn [cond_Zopp] in *; [lia|].
  cbn [Py.trunc_SF]. f_equal. unfold ONE.
  destruct e as [|p|p].
  - rewrite Z.shiftl_0_r. change (0 + 1074) with 1074.
    symmetry. apply Z.div_mul. lia.
  - rewrite Z.shiftl_mul_pow2, Z.pow_add_r, Z.mul_assoc by lia.
    symmetry. apply Z.div_mul. lia.
  - rewrite Z.shiftr_div_pow2 by lia.
    replace (2 ^ 1074) with (2 ^ Zpos p * 2 ^ (Zneg p + 1074)).
    2:{ rewrite <- Z.pow_add_r by lia. f_equal. lia. }
    symmetry. apply Z.div_mul_cancel_r.
    + apply Z.pow_nonzero; lia.
    + apply Z.pow_nonzero; lia.
Qed.

Lemma cap_key_range (k : Z) : 300 <= cap_key k <= 850.
Proof.
  unfold cap_key. pose proof ONE_pos.
  destruct (Z.ltb_spec k (850 * ONE)); [|lia].
  destruct (Z.ltb_spec (300 * ONE) k); [|lia].
  split.
  - apply Z.div_le_lower_bound; lia.
  - apply Z.lt_le_incl, Z.div_lt_upper_bound; lia.
Qed.

Lemma cap_key_mono (k1 k2 : Z) : k1 <= k2 -> cap_key k1 <= cap_key k2.
Proof.
  intros Hk. pose proof (cap_key_range k1). pose proof (cap_key_range k2).
  pose proof ONE_pos. unfold cap_key in *.
  destruct (Z.ltb_spec k1 (850 * ONE)), (Z.ltb_spec k2 (850 * ONE)); try lia.
  destruct (Z.ltb_spec (300 * ONE) k1), (Z.ltb_spec (300 * ONE) k2); try lia.
  apply Z.div_le_mono; lia.
Qed.

Lemma capped_range (x : float) : 300 <= capped x <= 850.
Proof. unfold capped. destruct (fnan x); [lia|apply cap_key_range]. Qed.

(** The cap under the default settings, and the comparison of the capped
    score with an integer threshold [c]. *)
Lemma cap_spec (x : float) (c : Z) (fc : float) :
  Py.float_of_Z c = fc -> fnan fc = false -> fkey fc = c * ONE ->
  Py.int (Credit.cap settings x) = Some (capped x)
  /\ Py.ge (Credit.cap settings x) (Py.Int c) = (c <=? capped x).
Proof.
  intros Hfc Hnc Hkc. unfold Credit.cap, Py.max, Py.min, Py.gt, capped.
  cbn [settings CREDIT_SCORE_MIN CREDIT_SCORE_MAX Py.lt Py.to_float].
  change (Py.float_of_Z 850) with 850%float.
  change (Py.float_of_Z 300) with 300%float.
  rewrite !ltb_key, fkey_850, fkey_300.
  change (fnan 850) with false. change (fnan 300) with false.
  rewrite orb_false_r, orb_false_l.
  pose proof ONE_pos as H1. pose proof cap_bounds_lt_INF as HI.
  unfold cap_key.
  destruct (fnan x) eqn:Hn; cbn [negb andb].
  { split; reflexivity. }
  destruct (Z.ltb_spec (fkey x) (850 * ONE)) as [Hhi|Hhi];
    [|split; reflexivity].
  cbn [Py.to_float]. rewrite Hn. cbn [negb andb].
  destruct (Z.ltb_spec (300 * ONE) (fkey x)) as [Hlo|Hlo];
    [|split; reflexivity].
  pose proof INF_pos as HIp.
  assert (ffinite x = true) as Hf by (apply finite_of_range; [assumption|lia]).
  split; [apply trunc_key; [assumption|lia]|].
  cbn [Py.ge Py.to_float]. rewrite Hfc, leb_key, Hnc, Hn, Hkc.
  cbn [orb negb andb].
  destruct (Z.leb_spec (c * ONE) (fkey x)) as [Hc|Hc]; symmetry.
  - apply Z.leb_le, Z.div_le_lower_bound; lia.
  - apply Z.leb_gt, Z.div_lt_upper_bound; lia.
Qed.

Lemma capped_result (x : float) :
  Py.int (Credit.cap settings x) = Some (capped x)
  /\ Credit._get_risk_category (Credit.cap settings x) = risk_band (capped x)
  /\ Credit._get_score_range (Credit.cap settings x) = range_band (capped x).
Proof.
  destruct (cap_spec x 750 750 eq_refl eq_refl fkey_750) as [Hint H750].
  destruct (cap_spec x 700 700 eq_refl eq_refl fkey_700) as [_ H700].
  destruct (cap_spec x 650 650 eq_refl eq_refl fkey_650) as [_ H650].
  destruct (cap_spec x 600 600 eq_refl eq_refl fkey_600) as [_ H600].
  unfold Credit._get_risk_category, Credit._get_score_range, risk_band, range_band.
  rewrite H750, H700, H650, H600. auto.
Qed.

Lemma credit_mock_predict_capped (features : gmap string float) :
  exists r,
    Credit.predict settings None features = Some r
    /\ Credit.credit_score r = capped (Credit.mock_score features).
Proof.
  destruct (capped_result (Credit.mock_score features)) as (Hint & _).
  unfold Credit.predict, Credit._mock_predict. rewrite Hint.
  eexists. split; reflexivity.
Qed.

(** ** Monotonicity of the rule-based credit score *)

Lemma ltb_leb_trans (c x y : float) :
  PrimFloat.ltb c x = true -> PrimFloat.leb x y = true -> PrimFloat.ltb c y = true.
Proof.
  rewrite !ltb_key, leb_key.
  intros [Hn1 H1%Z.ltb_lt]%andb_prop [Hn2 H2%Z.leb_le]%andb_prop.
  apply negb_true_iff, orb_false_elim in Hn1, Hn2.
  destruct Hn1 as [-> _], Hn2 as [_ ->]. cbn [orb negb andb].
  apply Z.ltb_lt. lia.
Qed.

Lemma ord_add (x y c : float) :
  ffinite c = true -> ord x y -> ord (x + c) (y + c).
Proof.
  intros Hc [[Hx Hy]|Hle].
  - left. split; apply add_nan; assumption.
  - right. apply add_mono; assumption.
Qed.

Lemma ord_capped (x y : float) : ord x y -> capped x <= capped y.
Proof.
  unfold capped. intros [[-> ->]|Hle]; [lia|].
  rewrite leb_key in Hle. apply andb_prop in Hle as [Hn Hk%Z.leb_le].
  apply negb_true_iff, orb_false_elim in Hn. destruct Hn as [-> ->].
  apply cap_key_mono. assumption.
Qed.

Lemma loan_history_bonus_ord (loan_history x y : float) :
  ord x y ->
  ord (Credit.loan_history_bonus loan_history x)
      (Credit.loan_history_bonus loan_history y).
Proof.
  intros H. unfold Credit.loan_history_bonus.
  destruct (PrimFloat.ltb 0 loan_history); [|assumption].
  apply ord_add; [reflexivity|assumption].
Qed.

Lemma balance_factor_ord (balance x y : float) :
  ord x y ->
  ord (Credit.balance_factor balance x) (Credit.balance_factor balance y).
Proof.
  intros H. unfold Credit.balance_factor.
  repeat match goal with
         | |- context [if ?b then _ else _] => destruct b
         end;
    try assumption; (apply ord_add; [reflexivity|assumption]).
Qed.

Lemma delinquency_penalty_ord (delinquency a b : float) :
  PrimFloat.leb a b = true -> ffinite a = true -> ffinite b = true ->
  ord (Credit.delinquency_penalty delinquency a)
      (Credit.delinquency_penalty delinquency b).
Proof. intros. apply sub_mono; assumption. Qed.

(** After the account age and income blocks the score is one of a few
    small integers, and a higher income gives the higher one. *)
Lemma income_factor_mono (account_age income1 income2 : float) :
  PrimFloat.leb income1 income2 = true ->
  let s := Credit.account_age_factor account_age 600 in
  PrimFloat.leb (Credit.income_factor income1 s) (Credit.income_factor income2 s)
  = true
  /\ ffinite (Credit.income_factor income1 s) = true
  /\ ffinite (Credit.income_factor income2 s) = true.
Proof.
  intros Hle. cbv zeta.
  pose proof (fun c H => ltb_leb_trans c income1 income2 H Hle) as Htr.
  unfold Credit.account_age_factor, Credit.income_factor.
  destruct (PrimFloat.ltb 365 account_age), (PrimFloat.ltb 180 account_age),
           (PrimFloat.ltb 90 account_age);
    destruct (PrimFloat.ltb 100000 income1) eqn:A1,
             (PrimFloat.ltb 50000 income1) eqn:B1,
             (PrimFloat.ltb 25000 income1) eqn:C1;
    try (rewrite (Htr _ A1)); try (rewrite (Htr _ B1)); try (rewrite (Htr _ C1));
    destruct (PrimFloat.ltb 100000 income2), (PrimFloat.ltb 50000 income2),
             (PrimFloat.ltb 25000 income2);
    repeat split; vm_compute; reflexivity.
Qed.

Lemma mock_score_ord (features1 features2 : gmap string float) :
  (forall k : string, k <> "monthly_income"%string -> features1 !! k = features2 !! k) ->
  PrimFloat.leb (get features1 "monthly_income" 50000)
                (get features2 "monthly_income" 50000) = true ->
  ord (Credit.mock_score features1) (Credit.mock_score features2).
Proof.
  intros Hsame Hle. unfold Credit.mock_score.
  assert (forall k d, k <> "monthly_income"%string ->
                      get features1 k d = get features2 k d) as Hget.
  { intros k d Hk. unfold get. now rewrite (Hsame k Hk). }
  rewrite (Hget "account_age_days"%string), (Hget "total_balance"%string),
    (Hget "delinquency_count"%string), (Hget "loan_history_count"%string) by done.
  cbv zeta.
  destruct (income_factor_mono (get features2 "account_age_days" 365) _ _ Hle)
    as (Hs & Hf1 & Hf2).
  apply balance_factor_ord, loan_history_bonus_ord, delinquency_penalty_ord;
    assumption.
Qed.

(** The account_age entry of the factors depends on the account age alone. *)
Lemma factor_analysis_account_age (features : gmap string float) :
  Credit._get_factor_analysis features !! "account_age"
  = let account_age := get features "account_age_days" 0 in
    if PrimFloat.ltb account_age 90
    then Some (Credit.Text "New account - negative impact")
    else if PrimFloat.ltb 365 account_age
    then Some (Credit.Text "Established account - positive impact")
    else None.
Proof.
  unfold Credit._get_factor_analysis. cbv zeta.
  repeat match goal with
         | |- context [if ?b then _ else _] => destruct b
         end;
    now simplify_map_eq.
Qed.

(** ** The clamp of the credit score and the defaults of absent features *)

(** [capped] is the clamp into [300, 850] followed by [int()]: the bounds
    outside, the truncated score inside, 850 on NaN. *)
Lemma capped_cases (x : float) :
  (fnan x = true -> capped x = 850)
  /\ (PrimFloat.leb x 300 = true -> capped x = 300)
  /\ (PrimFloat.leb 850 x = true -> capped x = 850)
  /\ (PrimFloat.ltb 300 x = true -> PrimFloat.ltb x 850 = true ->
      Py.int (Py.Float x) = Some (capped x)).
Proof.
  unfold capped, cap_key. rewrite !leb_key, !ltb_key, fkey_300, fkey_850.
  change (fnan 300) with false. change (fnan 850) with false.
  pose proof ONE_pos as H1. pose proof cap_bounds_lt_INF as HI.
  pose proof INF_pos as HIp.
  destruct (fnan x) eqn:Hn; cbn [orb negb andb].
  { split; [reflexivity|]. split; [discriminate|]. split; discriminate. }
  split; [discriminate|].
  split; [|split].
  - intros H%Z.leb_le.
    destruct (Z.ltb_spec (fkey x) (850 * ONE)); [|lia].
    destruct (Z.ltb_spec (300 * ONE) (fkey x)); [lia|reflexivity].
  - intros H%Z.leb_le.
    destruct (Z.ltb_spec (fkey x) (850 * ONE)); [lia|reflexivity].
  - intros Hlo Hhi. rewrite Hlo, Hhi.
    apply Z.ltb_lt in Hlo, Hhi.
    apply trunc_key; [apply finite_of_range; [assumption|lia] | lia].
Qed.

Lemma get_insert_ne (features : gmap string float) (k name : string) (v d : float) :
  k <> name -> get (<[k := v]> features) name d = get features name d.
Proof. intros H. unfold get. now rewrite lookup_insert_ne. Qed.

(** Subtracting [delinquency * 20] for a zero delinquency leaves a non-zero
    finite score unchanged. *)
Lemma delinquency_zero (delinquency score : float) :
  PrimFloat.eqb delinquency 0 = true ->
  ffinite score = true -> fkey score <> 0 ->
  Credit.delinquency_penalty delinquency score = score.
Proof.
  unfold Credit.delinquency_penalty, ffinite, fkey.
  rewrite FloatAxioms.eqb_spec, Prim2SF_zero. intros Hd Hf Hk.
  apply Prim2SF_inj. rewrite sub_spec, mul_spec.
  assert (Prim2SF 20 = S754_finite false 5629499534213120 (-48)) as ->
    by (vm_compute; reflexivity).
  destruct (Prim2SF delinquency) as [sd|[]| |[] md ed]; try discriminate.
  destruct (Prim2SF score) as [ss|ss| |ss ms es]; try discriminate.
  - now contradict Hk.
  - reflexivity.
Qed.

(** Without delinquencies the arithmetic of the rule-based score is exact:
    the +30 that the default 365 of an absent account_age_days earns is a
    +30 of the returned credit_score. *)
Lemma absent_account_age_plus_30 (features : gmap string float) :
  features !! "account_age_days" = None ->
  PrimFloat.eqb (get features "delinquency_count" 0) 0 = true ->
  capped (Credit.mock_score features)
  = capped (Credit.mock_score (<["account_age_days" := 0%float]> features)) + 30.
Proof.
  intros Habs Hd. unfold Credit.mock_score. cbv zeta.
  assert (get (<["account_age_days" := 0%float]> features) "account_age_days" 365
          = 0%float) as ->
    by (unfold get; now rewrite lookup_insert_eq).
  rewrite !(get_insert_ne features "account_age_days") by done.
  assert (get features "account_age_days" 365 = 365%float) as ->
    by (unfold get; now rewrite Habs).
  change (Credit.account_age_factor 365 600) with 630%float.
  change (Credit.account_age_factor 0 600) with 600%float.
  unfold Credit.income_factor.
  destruct (PrimFloat.ltb 100000 (get features "monthly_income" 50000));
    [| destruct (PrimFloat.ltb 50000 (get features "monthly_income" 50000));
       [| destruct (PrimFloat.ltb 25000 (get features "monthly_income" 50000)) ] ];
    (rewrite !(delinquency_zero _ _ Hd);
     [| vm_compute; reflexivity | vm_compute; discriminate
      | vm_compute; reflexivity | vm_compute; discriminate ]);
    unfold Credit.loan_history_bonus, Credit.balance_factor;
    destruct (PrimFloat.ltb 0 (get features "loan_history_count" 0));
    (destruct (PrimFloat.ltb 100000 (get features "total_balance" 100000));
     [| destruct (PrimFloat.ltb 50000 (get features "total_balance" 100000)) ]);
    vm_compute; reflexivity.
Qed.

(** The same for the +30 that the default 50000 of an absent monthly_income
    earns. *)
Lemma absent_income_plus_30 (features : gmap string float) :
  features !! "monthly_income" = None ->
  PrimFloat.eqb (get features "delinquency_count" 0) 0 = true ->
  capped (Credit.mock_score features)
  = capped (Credit.mock_score (<["monthly_income" := 0%float]> features)) + 30.
Proof.
  intros Habs Hd. unfold Credit.mock_score. cbv zeta.
  assert (get (<["monthly_income" := 0%float]> features) "monthly_income" 50000
          = 0%float) as ->
    by (unfold get; now rewrite lookup_insert_eq).
  rewrite !(get_insert_ne features "monthly_income") by done.
  assert (get features "monthly_income" 50000 = 50000%float) as ->
    by (unfold get; now rewrite Habs).
  unfold Credit.account_age_factor.
  destruct (PrimFloat.ltb 365 (get features "account_age_days" 365));
    [| destruct (PrimFloat.ltb 180 (get features "account_age_days" 365));
       [| destruct (PrimFloat.ltb 90 (get features "account_age_days" 365)) ] ];
    match goal with
    | |- context [Credit.income_factor 50000 ?a] =>
        let v := eval vm_compute in (Credit.income_factor 50000 a) in
        change (Credit.income_factor 50000 a) with v;
        let w := eval vm_compute in (Credit.income_factor 0 a) in
        change (Credit.income_factor 0 a) with w
    end;
    (rewrite !(delinquency_zero _ _ Hd);
     [| vm_compute; reflexivity | vm_compute; discriminate
      | vm_compute; reflexivity | vm_compute; discriminate ]);
    unfold Credit.loan_history_bonus, Credit.balance_factor;
    destruct (PrimFloat.ltb 0 (get features "loan_history_count" 0));
    (destruct (PrimFloat.ltb 100000 (get features "total_balance" 100000));
     [| destruct (PrimFloat.ltb 50000 (get features "total_balance" 100000)) ]);
    vm_compute; reflexivity.
Qed.

(** ** The claims of the specification *)

(** C1, as stated, does not hold: on the empty feature set the rule-based
    credit scorer does not return credit_score 600 with risk_category
    MEDIUM_HIGH. *)
Lemma C1_empty_features_not_600 :
  ~ (exists r, Credit.predict settings None ∅ = Some r
               /\ Credit.credit_score r = 600
               /\ Credit.risk_category r = "MEDIUM_HIGH"%string).
Proof.
  intros (r & Hr & Hs & _).
  assert (Credit.predict settings None ∅ = Some empty_features_result) as E
    by (vm_compute; reflexivity).
  rewrite E in Hr. injection Hr as <-. discriminate Hs.
Qed.

(** C1, amended: on the empty feature set the defaults 365, 50000 and
    100000 each earn the +30 of their band, so the rule-based credit scorer
    returns credit_score 690 = 600+30+30+30, risk_category MEDIUM and
    score_range FAIR; the risk aggregator, which fills in the same defaults,
    reports credit_score 690 as well.  The result is a closed value: every
    run returns it. *)
Theorem C1_empty_features_credit :
  Credit.mock_score ∅ = (600 + 30 + 30 + 30)%float
  /\ Credit.predict settings None ∅ = Some empty_features_result
  /\ Risk.credit_score <$> Risk.predict settings None None ∅ = Some 690.
Proof. repeat split; vm_compute; reflexivity. Qed.

(** C2: the rule-based fraud scorer caps its total at 1.0 only; with
    device_risk -5 it returns fraud_score -0.5, which is below 0. *)
Theorem C2_fraud_score_below_zero :
  Fraud.predict settings None negative_device_risk
  = {| Fraud.fraud_score := (-0.5)%float;
       Fraud.risk_level := "LOW";
       Fraud.is_fraud := false |}
  /\ PrimFloat.leb 0 (Fraud.fraud_score (Fraud.predict settings None negative_device_risk))
     = false.
Proof. split; vm_compute; reflexivity. Qed.

(** C3, as stated, does not hold: the aggregated score of scenario 3 is not
    0.4188. *)
Lemma C3_overall_not_04188 :
  ~ (exists d, Risk.predict settings None None scenario_3 = Some d
               /\ Risk.overall_risk_score d = 0.4188%float).
Proof.
  intros (d & Hd & Ho).
  assert (PrimFloat.ltb 0.5
            (default 0%float
               (Risk.overall_risk_score <$> Risk.predict settings None None scenario_3))
          = true) as E by (vm_compute; reflexivity).
  rewrite Hd in E. simpl in E. rewrite Ho in E.
  vm_compute in E. discriminate E.
Qed.

(** C3, amended: with no artifact loaded the aggregator on the combined
    scenario 1 and scenario 2 inputs yields credit_score 810, credit_risk
    1-810/850, fraud_risk 1.0, amount_risk 0.8, overall_risk_score
    0.4*(1-810/850) + 0.4*1.0 + 0.2*0.8 = 0.5788235294117647, risk_category
    MEDIUM and recommendation REVIEW. *)
Theorem C3_scenario_3 :
  Risk.predict settings None None scenario_3
  = Some {| Risk.overall_risk_score := 0.5788235294117647;
            Risk.risk_category := "MEDIUM";
            Risk.components :=
              {| Risk.credit_risk := 1 - 810 / 850;
                 Risk.fraud_risk := 1;
                 Risk.amount_risk := 0.8 |};
            Risk.credit_score := 810;
            Risk.fraud_score := 1;
            Risk.recommendation := "REVIEW" |}.
Proof. vm_compute. reflexivity. Qed.

(** C4: for every feature set, whatever artifacts are loaded, the aggregator
    returns a decision, and its overall_risk_score is exactly
    clamp01(0.4*(1 - credit_score/850) + 0.4*fraud_score + 0.2*amount_risk)
    of the credit_score, fraud_score and amount_risk of that decision: the
    products commute exactly in binary64, and [clamp01] is the clamp into
    [0, 1] ([clamp01_cases], [clamp01_range]). *)
Theorem C4_composition_law credit_model fraud_model
    (features : gmap string float) :
  exists d,
    Risk.predict settings credit_model fraud_model features = Some d
    /\ Risk.overall_risk_score d
       = composition_law (Risk.credit_score d) (Risk.fraud_score d)
           (Risk.amount_risk (Risk.components d)).
Proof.
  unfold Risk.predict.
  destruct (fraud_features_total features) as [ff ->].
  destruct (credit_predict_total settings credit_model
              (Risk.credit_features features)) as [cr ->].
  eexists. split; [reflexivity|].
  cbn -[PrimFloat.mul PrimFloat.add PrimFloat.sub PrimFloat.div Py.float_of_Z
        Fraud.predict Risk._calculate_amount_risk Py.fmax Py.fmin].
  unfold composition_law, clamp01.
  now rewrite !(float_mul_comm 0.4), (float_mul_comm 0.2).
Qed.

(** C5: in both execution paths neither the fraud_score nor the risk_level
    changes with the configured threshold, and in the rule-based path the
    returned is_fraud flag is fraud_score >= FRAUD_THRESHOLD and the returned
    risk_level is given by the cut points 0.7 and 0.4.  In the model-backed
    path the labels are computed on the np.float32 probability, which NumPy
    compares with the cut points rounded to float32, while the returned
    fraud_score is the double of the same value: a classifier that yields
    float32(0.7) gives fraud_score 0.699999988079071 with risk_level HIGH,
    although 0.699999988079071 >= 0.7 is false, and under a threshold of 0.7
    it gives is_fraud True although fraud_score >= FRAUD_THRESHOLD is
    false. *)
Theorem C5_fraud_labels_disagree_with_score (cfg cfg' : Settings) model
    (features : gmap string float) :
  Fraud.fraud_score (Fraud.predict cfg' model features)
  = Fraud.fraud_score (Fraud.predict cfg model features)
  /\ Fraud.risk_level (Fraud.predict cfg' model features)
     = Fraud.risk_level (Fraud.predict cfg model features)
  /\ (let r := Fraud.predict cfg None features in
      Fraud.is_fraud r = PrimFloat.leb (FRAUD_THRESHOLD cfg) (Fraud.fraud_score r)
      /\ Fraud.risk_level r
         = (if PrimFloat.leb 0.7 (Fraud.fraud_score r) then "HIGH"
            else if PrimFloat.leb 0.4 (Fraud.fraud_score r) then "MEDIUM"
            else "LOW")%string)
  /\ (let r := Fraud.predict settings (Some (fun _ => 0.7%float)) features in
      r = {| Fraud.fraud_score := 0.699999988079071;
             Fraud.risk_level := "HIGH";
             Fraud.is_fraud := true |}
      /\ PrimFloat.leb 0.7 (Fraud.fraud_score r) = false)
  /\ (let cfg07 := {| FRAUD_THRESHOLD := 0.7;
                      CREDIT_SCORE_MIN := 300;
                      CREDIT_SCORE_MAX := 850 |} in
      let r := Fraud.predict cfg07 (Some (fun _ => 0.7%float)) features in
      Fraud.is_fraud r = true
      /\ PrimFloat.leb (FRAUD_THRESHOLD cfg07) (Fraud.fraud_score r) = false).
Proof.
  split; [destruct model; reflexivity|].
  split; [destruct model; reflexivity|].
  split; [split; reflexivity|].
  split; split; vm_compute; reflexivity.
Qed.

(** C6: in both execution paths the credit scorer returns a result whose
    credit_score is the raw score clamped into
    [CREDIT_SCORE_MIN, CREDIT_SCORE_MAX] = [300, 850] and truncated: 300 for
    a raw score of at most 300, 850 for one of at least 850 (and for NaN),
    int(raw) for a raw score strictly between; hence it lies in [300, 850],
    and its risk_category and score_range are the bands of that
    credit_score. *)
Theorem C6_credit_score_capped model (features : gmap string float) :
  let raw := match model with
             | None => Credit.mock_score features
             | Some model_predict =>
                 model_predict (_prepare_features Credit.feature_names features)
             end in
  exists r,
    Credit.predict settings model features = Some r
    /\ Py.int (Credit.cap settings raw) = Some (Credit.credit_score r)
    /\ CREDIT_SCORE_MIN settings <= Credit.credit_score r <= CREDIT_SCORE_MAX settings
    /\ Credit.risk_category r = risk_band (Credit.credit_score r)
    /\ Credit.score_range r = range_band (Credit.credit_score r)
    /\ (PrimFloat.leb raw 300 = true -> Credit.credit_score r = 300)
    /\ (PrimFloat.leb 850 raw = true -> Credit.credit_score r = 850)
    /\ (PrimFloat.ltb 300 raw = true -> PrimFloat.ltb raw 850 = true ->
        Py.int (Py.Float raw) = Some (Credit.credit_score r))
    /\ (fnan raw = true -> Credit.credit_score r = 850).
Proof.
  intros raw.
  destruct (capped_result raw) as (Hint & Hcat & Hrange).
  pose proof (capped_range raw) as Hr.
  destruct (capped_cases raw) as (Hnan & Hlow & Hhigh & Hmid).
  exists {| Credit.credit_score := capped raw;
            Credit.risk_category := risk_band (capped raw);
            Credit.score_range := range_band (capped raw);
            Credit.factors := Credit._get_factor_analysis features |}.
  cbn [Credit.credit_score Credit.risk_category Credit.score_range
       settings CREDIT_SCORE_MIN CREDIT_SCORE_MAX].
  split; [|repeat (split; [assumption || reflexivity|]); assumption].
  subst raw. destruct model as [model_predict|];
    unfold Credit.predict, Credit._mock_predict;
    rewrite Hint, Hcat, Hrange; reflexivity.
Qed.

(** C7: the amount_risk bands compare with a strict '>' at 50000, 100000
    and 200000: the threshold itself falls into the lower band (50000 gives
    0.1), the next integer and even the next double above it into the higher
    one (50001 gives 0.3); the aggregator reports these values as the
    amount_risk component. *)
Theorem C7_amount_risk_boundaries :
  Risk._calculate_amount_risk 50000 = 0.1%float
  /\ Risk._calculate_amount_risk 50001 = 0.3%float
  /\ Risk._calculate_amount_risk (next_up 50000) = 0.3%float
  /\ Risk._calculate_amount_risk 100000 = 0.3%float
  /\ Risk._calculate_amount_risk 100001 = 0.5%float
  /\ Risk._calculate_amount_risk (next_up 100000) = 0.5%float
  /\ Risk._calculate_amount_risk 200000 = 0.5%float
  /\ Risk._calculate_amount_risk 200001 = 0.8%float
  /\ Risk._calculate_amount_risk (next_up 200000) = 0.8%float
  /\ (Risk.amount_risk ∘ Risk.components)
       <$> Risk.predict settings None None {[ "amount"%string := 50000%float ]}
     = Some 0.1%float
  /\ (Risk.amount_risk ∘ Risk.components)
       <$> Risk.predict settings None None {[ "amount"%string := 50001%float ]}
     = Some 0.3%float.
Proof. repeat split; vm_compute; reflexivity. Qed.

(** C8: for two feature sets that agree on every key but monthly_income,
    the second having the greater or equal monthly_income (the default
    50000 standing in for an absent one), the rule-based credit scorer
    returns a result for each, and the credit_score of the second is greater
    than or equal to that of the first. *)
Theorem C8_credit_score_monotone_in_income
    (features1 features2 : gmap string float) :
  (forall k : string, k <> "monthly_income"%string -> features1 !! k = features2 !! k) ->
  PrimFloat.leb (get features1 "monthly_income" 50000)
                (get features2 "monthly_income" 50000) = true ->
  exists r1 r2,
    Credit.predict settings None features1 = Some r1
    /\ Credit.predict settings None features2 = Some r2
    /\ Credit.credit_score r1 <= Credit.credit_score r2.
Proof.
  intros Hsame Hle.
  pose proof (ord_capped _ _ (mock_score_ord _ _ Hsame Hle)) as Hcap.
  destruct (credit_mock_predict_capped features1) as (r1 & Hr1 & Hs1).
  destruct (credit_mock_predict_capped features2) as (r2 & Hr2 & Hs2).
  exists r1, r2. rewrite Hs1, Hs2. auto.
Qed.

Lemma C8_credit_score_monotone_in_income_witness :
  PrimFloat.leb (get {[ "monthly_income"%string := 30000%float ]} "monthly_income" 50000)
                (get {[ "monthly_income"%string := 120000%float ]} "monthly_income" 50000)
  = true
  /\ exists r1 r2,
       Credit.predict settings None {[ "monthly_income"%string := 30000%float ]} = Some r1
       /\ Credit.predict settings None {[ "monthly_income"%string := 120000%float ]} = Some r2
       /\ Credit.credit_score r1 <= Credit.credit_score r2.
Proof.
  split; [reflexivity|].
  apply C8_credit_score_monotone_in_income; [|reflexivity].
  intros k Hk. rewrite !lookup_singleton_ne by done. reflexivity.
Defined.

(** C9: the divisor of amount_vs_avg_ratio, max(avg_amount_7d, 1.0) with
    default 1.0, is never zero; it is at least 1.0 unless avg_amount_7d is
    NaN; and the derivation of the fraud features raises no exception. *)
Theorem C9_ratio_divisor (features : gmap string float) :
  PrimFloat.eqb (Risk.avg_divisor features) 0 = false
  /\ (is_nan (get features "avg_amount_7d" 1)
      || PrimFloat.leb 1 (Risk.avg_divisor features)) = true
  /\ Py.truediv (get features "amount" 0) (Risk.avg_divisor features)
     = Some (get features "amount" 0 / Risk.avg_divisor features)%float
  /\ is_Some (Risk.fraud_features features).
Proof.
  split; [apply avg_divisor_nonzero|].
  split.
  { destruct (is_nan _) eqn:Hn; [reflexivity|]. now apply avg_divisor_ge_1. }
  split; [|apply fraud_features_total].
  unfold Py.truediv. now rewrite avg_divisor_nonzero.
Qed.

(** C10: when account_age_days is absent, the rule-based scorer returns the
    credit_score, risk_category and score_range that it returns for an
    explicit account age of 365 days, whose +30 of the >180 band is in the
    returned credit_score (without delinquencies, where the arithmetic is
    exact, the credit_score is exactly 30 above the one for an explicit
    account age of 0), while the factors of the same result are those of an
    account age of 0 and hold account_age = "New account - negative impact";
    for an explicit 365 the factors hold no account_age entry at all. *)
Theorem C10_absent_account_age (features : gmap string float) :
  features !! "account_age_days" = None ->
  (exists r r365,
     Credit.predict settings None features = Some r
     /\ Credit.predict settings None (<["account_age_days" := 365%float]> features)
        = Some r365
     /\ Credit.credit_score r = Credit.credit_score r365
     /\ Credit.risk_category r = Credit.risk_category r365
     /\ Credit.score_range r = Credit.score_range r365
     /\ Credit.factors r !! "account_age"
        = Some (Credit.Text "New account - negative impact")
     /\ Credit.factors r365 !! "account_age" = None)
  /\ (PrimFloat.eqb (get features "delinquency_count" 0) 0 = true ->
      exists r r0,
        Credit.predict settings None features = Some r
        /\ Credit.predict settings None (<["account_age_days" := 0%float]> features)
           = Some r0
        /\ Credit.credit_score r = Credit.credit_score r0 + 30
        /\ Credit.factors r = Credit.factors r0)
  /\ Credit.mock_score features
     = Credit.mock_score (<["account_age_days" := 365%float]> features)
  /\ (forall score,
        Credit.account_age_factor (get features "account_age_days" 365) score
        = (score + 30)%float)
  /\ Credit._get_factor_analysis features
     = Credit._get_factor_analysis (<["account_age_days" := 0%float]> features).
Proof.
  intros Habs.
  assert (Credit.mock_score features
          = Credit.mock_score (<["account_age_days" := 365%float]> features)) as Hs.
  { unfold Credit.mock_score, get.
    rewrite lookup_insert_eq, !lookup_insert_ne, Habs by done. reflexivity. }
  assert (Credit._get_factor_analysis features
          = Credit._get_factor_analysis (<["account_age_days" := 0%float]> features))
    as Hf.
  { unfold Credit._get_factor_analysis, get.
    rewrite lookup_insert_eq, !lookup_insert_ne, Habs by done. reflexivity. }
  assert (forall f, Credit.predict settings None f
                    = Some {| Credit.credit_score := capped (Credit.mock_score f);
                              Credit.risk_category := risk_band (capped (Credit.mock_score f));
                              Credit.score_range := range_band (capped (Credit.mock_score f));
                              Credit.factors := Credit._get_factor_analysis f |}) as Hp.
  { intros f. destruct (capped_result (Credit.mock_score f)) as (Hint & Hcat & Hrange).
    unfold Credit.predict, Credit._mock_predict.
    rewrite Hint, Hcat, Hrange. reflexivity. }
  split; [|split; [|split; [|split]]].
  - eexists _, _. split; [apply Hp|]. split; [apply Hp|].
    cbn [Credit.credit_score Credit.risk_category Credit.score_range Credit.factors].
    rewrite <- Hs. repeat (split; [reflexivity|]).
    rewrite !factor_analysis_account_age. unfold get.
    rewrite Habs, lookup_insert_eq. split; reflexivity.
  - intros Hd. eexists _, _. split; [apply Hp|]. split; [apply Hp|].
    cbn [Credit.credit_score Credit.factors].
    split; [apply absent_account_age_plus_30; assumption | exact Hf].
  - exact Hs.
  - intros score. unfold get. rewrite Habs. reflexivity.
  - exact Hf.
Qed.

Lemma C10_absent_account_age_witness :
  (exists r r365,
     Credit.predict settings None ∅ = Some r
     /\ Credit.predict settings None (<["account_age_days" := 365%float]> ∅)
        = Some r365
     /\ Credit.credit_score r = Credit.credit_score r365
     /\ Credit.risk_category r = Credit.risk_category r365
     /\ Credit.score_range r = Credit.score_range r365
     /\ Credit.factors r !! "account_age"
        = Some (Credit.Text "New account - negative impact")
     /\ Credit.factors r365 !! "account_age" = None)
  /\ (PrimFloat.eqb (get ∅ "delinquency_count" 0) 0 = true ->
      exists r r0,
        Credit.predict settings None ∅ = Some r
        /\ Credit.predict settings None (<["account_age_days" := 0%float]> ∅)
           = Some r0
        /\ Credit.credit_score r = Credit.credit_score r0 + 30
        /\ Credit.factors r = Credit.factors r0)
  /\ Credit.mock_score ∅
     = Credit.mock_score (<["account_age_days" := 365%float]> ∅)
  /\ (forall score,
        Credit.account_age_factor (get ∅ "account_age_days" 365) score
        = (score + 30)%float)
  /\ Credit._get_factor_analysis ∅
     = Credit._get_factor_analysis (<["account_age_days" := 0%float]> ∅).
Proof. apply (C10_absent_account_age ∅). reflexivity. Defined.

(** * Further properties of the scorers *)

(** ** NaN and the IEEE operations *)

Lemma mul_nan_l (x y : float) : fnan x = true -> fnan (x * y) = true.
Proof. unfold fnan. rewrite mul_spec. now destruct (Prim2SF x). Qed.

Lemma add_nan_r (x c : float) : fnan c = true -> fnan (x + c) = true.
Proof.
  unfold fnan. rewrite add_spec.
  destruct (Prim2SF c); try discriminate. now destruct (Prim2SF x).
Qed.

Lemma sub_nan_r (x c : float) : fnan c = true -> fnan (x - c) = true.
Proof.
  unfold fnan. rewrite sub_spec.
  destruct (Prim2SF c); try discriminate. now destruct (Prim2SF x).
Qed.

Lemma ltb_nan_l (x y : float) : fnan x = true -> PrimFloat.ltb x y = false.
Proof. intros H. now rewrite ltb_key, H. Qed.

Lemma ltb_nan_r (x y : float) : fnan y = true -> PrimFloat.ltb x y = false.
Proof. intros H. now rewrite ltb_key, H, orb_true_r. Qed.

Lemma leb_nan_r (x y : float) : fnan y = true -> PrimFloat.leb x y = false.
Proof. intros H. now rewrite leb_key, H, orb_true_r. Qed.

Lemma leb_not_nan (x y : float) :
  PrimFloat.leb x y = true -> fnan x = false /\ fnan y = false /\ fkey x <= fkey y.
Proof.
  rewrite leb_key. intros [Hn Hk%Z.leb_le]%andb_prop.
  apply negb_true_iff, orb_false_elim in Hn. tauto.
Qed.

Lemma ltb_not_nan (x y : float) :
  PrimFloat.ltb x y = true -> fnan x = false /\ fnan y = false /\ fkey x < fkey y.
Proof.
  rewrite ltb_key. intros [Hn Hk%Z.ltb_lt]%andb_prop.
  apply negb_true_iff, orb_false_elim in Hn. tauto.
Qed.

Lemma leb_of_keys (x y : float) :
  fnan x = false -> fnan y = false -> fkey x <= fkey y -> PrimFloat.leb x y = true.
Proof. intros Hx Hy Hk. rewrite leb_key, Hx, Hy. now apply Z.leb_le. Qed.

Lemma ltb_false_cases (x y : float) :
  PrimFloat.ltb x y = false ->
  fnan x = true \/ fnan y = true \/ fkey y <= fkey x.
Proof.
  rewrite ltb_key. destruct (fnan x), (fnan y); auto.
  cbn [orb negb andb]. intros H%Z.ltb_ge. auto.
Qed.

Lemma leb_false_cases (x y : float) :
  PrimFloat.leb x y = false ->
  fnan x = true \/ fnan y = true \/ fkey y < fkey x.
Proof.
  rewrite leb_key. destruct (fnan x), (fnan y); auto.
  cbn [orb negb andb]. intros H%Z.leb_gt. auto.
Qed.

(** ** The fraud scorer *)

(** The total of the rule-based fraud scorer before its cap. *)
Lemma fraud_mock_predict_unfold (cfg : Settings) (features : gmap string float) :
  exists total score : float,
    score = (if PrimFloat.ltb 1 total then 1%float else total)
    /\ Fraud._mock_predict cfg features
       = {| Fraud.fraud_score := score;
            Fraud.risk_level := Fraud._get_risk_level score;
            Fraud.is_fraud := PrimFloat.leb (FRAUD_THRESHOLD cfg) score |}
    /\ (fnan (get features "device_risk" 0) = true
        \/ fnan (get features "location_risk" 0) = true -> fnan total = true).
Proof.
  unfold Fraud._mock_predict. cbv zeta.
  match goal with
  | |- context [PrimFloat.ltb 1 ?t] => exists t
  end.
  eexists. split; [reflexivity|]. split; [reflexivity|].
  intros [Hd|Hl].
  - apply add_nan, add_nan_r, mul_nan_l, Hd.
  - apply add_nan_r, mul_nan_l, Hl.
Qed.

(** X1: the rule-based fraud_score never exceeds 1.0: it is NaN or at most
    1.0, whatever the features. *)
Theorem fraud_score_at_most_1 (cfg : Settings) (features : gmap string float) :
  let score := Fraud.fraud_score (Fraud.predict cfg None features) in
  (fnan score || PrimFloat.leb score 1) = true.
Proof.
  cbv zeta. cbn [Fraud.predict].
  destruct (fraud_mock_predict_unfold cfg features) as (total & s & -> & -> & _).
  cbn [Fraud.fraud_score].
  destruct (PrimFloat.ltb 1 total) eqn:H; [reflexivity|].
  destruct (fnan total) eqn:Hn; [reflexivity|]. cbn [orb].
  apply ltb_false_cases in H. change (fnan 1) with false in H.
  apply leb_of_keys; [assumption|reflexivity|].
  destruct H as [H|[H|H]]; congruence || assumption.
Qed.

Lemma fraud_mock_predict_nan (cfg : Settings) (features : gmap string float) :
  fnan (get features "device_risk" 0) = true
  \/ fnan (get features "location_risk" 0) = true ->
  let r := Fraud._mock_predict cfg features in
  fnan (Fraud.fraud_score r) = true
  /\ Fraud.risk_level r = "LOW"%string
  /\ Fraud.is_fraud r = false.
Proof.
  intros H. cbv zeta.
  destruct (fraud_mock_predict_unfold cfg features) as (total & s & -> & -> & Hn).
  specialize (Hn H).
  cbn [Fraud.fraud_score Fraud.risk_level Fraud.is_fraud].
  rewrite (ltb_nan_r 1 total Hn).
  unfold Fraud._get_risk_level. rewrite !(leb_nan_r _ total Hn). auto.
Qed.

(** X2: a NaN device_risk or location_risk makes the rule-based fraud_score
    NaN, and a NaN score is reported as risk_level LOW and is_fraud False,
    whatever the threshold. *)
Theorem fraud_nan_is_low (cfg : Settings) (features : gmap string float) :
  fnan (get features "device_risk" 0) = true
  \/ fnan (get features "location_risk" 0) = true ->
  let r := Fraud.predict cfg None features in
  fnan (Fraud.fraud_score r) = true
  /\ Fraud.risk_level r = "LOW"%string
  /\ Fraud.is_fraud r = false.
Proof. apply fraud_mock_predict_nan. Qed.

Lemma fraud_nan_is_low_witness :
  (fnan (get {[ "device_risk"%string := nan ]} "device_risk" 0) = true
   \/ fnan (get {[ "device_risk"%string := nan ]} "location_risk" 0) = true)
  /\ let r := Fraud.predict settings None {[ "device_risk"%string := nan ]} in
     fnan (Fraud.fraud_score r) = true
     /\ Fraud.risk_level r = "LOW"%string
     /\ Fraud.is_fraud r = false.
Proof.
  assert (fnan (get {[ "device_risk"%string := nan ]} "device_risk" 0) = true
          \/ fnan (get {[ "device_risk"%string := nan ]} "location_risk" 0) = true)
    as H by (left; reflexivity).
  split; [exact H|]. exact (fraud_nan_is_low settings _ H).
Defined.

Lemma fkey_cutpoints :
  fkey 0.4 < fkey 0.5 /\ fkey 0.5 <= fkey 0.7.
Proof. split; [apply Z.ltb_lt | apply Z.leb_le]; vm_compute; reflexivity. Qed.

(** The cut points and the default threshold as NumPy rounds them to
    float32. *)
Lemma fkey_float32_cutpoints :
  fkey (Py.float32 0.4) < fkey (Py.float32 0.5)
  /\ fkey (Py.float32 0.5) <= fkey (Py.float32 0.7)
  /\ fnan (Py.float32 0.4) = false
  /\ fnan (Py.float32 0.5) = false
  /\ fnan (Py.float32 0.7) = false.
Proof.
  split; [apply Z.ltb_lt; vm_compute; reflexivity|].
  split; [apply Z.leb_le; vm_compute; reflexivity|].
  repeat split; vm_compute; reflexivity.
Qed.

(** X3: under the default threshold 0.5 the two outputs of the fraud scorer
    agree in both paths: a HIGH risk_level comes with is_fraud True and a LOW
    one with is_fraud False. *)
Theorem fraud_level_and_flag_agree model (features : gmap string float) :
  let r := Fraud.predict settings model features in
  Fraud.risk_level r = "HIGH"%string /\ Fraud.is_fraud r = true
  \/ Fraud.risk_level r = "MEDIUM"%string
  \/ Fraud.risk_level r = "LOW"%string /\ Fraud.is_fraud r = false.
Proof.
  cbv zeta.
  assert (forall s,
            Fraud._get_risk_level s = "HIGH"%string /\ PrimFloat.leb 0.5 s = true
            \/ Fraud._get_risk_level s = "MEDIUM"%string
            \/ Fraud._get_risk_level s = "LOW"%string /\ PrimFloat.leb 0.5 s = false)
    as Hs.
  { intros s. unfold Fraud._get_risk_level.
    pose proof fkey_cutpoints as [H45 H57].
    destruct (PrimFloat.leb 0.7 s) eqn:H7.
    - left. split; [reflexivity|].
      apply leb_not_nan in H7 as (_ & Hn & Hk).
      apply leb_of_keys; [reflexivity|assumption|lia].
    - destruct (PrimFloat.leb 0.4 s) eqn:H4; [auto|].
      right. right. split; [reflexivity|].
      destruct (PrimFloat.leb 0.5 s) eqn:H5; [|reflexivity].
      apply leb_not_nan in H5 as (_ & Hn & Hk).
      apply leb_false_cases in H4. change (fnan 0.4) with false in H4.
      destruct H4 as [H4|[H4|H4]]; try congruence. lia. }
  destruct model as [predict_proba|].
  - cbn [Fraud.predict Fraud.risk_level Fraud.is_fraud settings FRAUD_THRESHOLD].
    set (p := Py.float32 _).
    unfold Fraud._get_risk_level_float32, Py.float32_ge.
    pose proof fkey_float32_cutpoints as (H45 & H57 & N4 & N5 & N7).
    destruct (PrimFloat.leb (Py.float32 0.7) p) eqn:H7.
    + left. split; [reflexivity|].
      apply leb_not_nan in H7 as (_ & Hn & Hk).
      apply leb_of_keys; [assumption|assumption|lia].
    + destruct (PrimFloat.leb (Py.float32 0.4) p) eqn:H4; [auto|].
      right. right. split; [reflexivity|].
      destruct (PrimFloat.leb (Py.float32 0.5) p) eqn:H5; [|reflexivity].
      apply leb_not_nan in H5 as (_ & Hn & Hk).
      apply leb_false_cases in H4.
      destruct H4 as [H4|[H4|H4]]; try congruence. lia.
  - cbn [Fraud.predict].
    destruct (fraud_mock_predict_unfold settings features) as (total & s & _ & -> & _).
    cbn [Fraud.risk_level Fraud.is_fraud settings FRAUD_THRESHOLD]. apply Hs.
Qed.

(** ** The credit scorer *)

(** Under the default settings the result of either path is read off the
    capped raw score. *)
Lemma credit_result (model : option (list float -> float))
    (features : gmap string float) :
  let raw := match model with
             | None => Credit.mock_score features
             | Some model_predict =>
                 model_predict (_prepare_features Credit.feature_names features)
             end in
  Credit.predict settings model features
  = Some {| Credit.credit_score := capped raw;
            Credit.risk_category := risk_band (capped raw);
            Credit.score_range := range_band (capped raw);
            Credit.factors := Credit._get_factor_analysis features |}.
Proof.
  cbv zeta.
  destruct model as [model_predict|];
    unfold Credit.predict, Credit._mock_predict;
    match goal with
    | |- context [Credit.cap settings ?x] =>
        destruct (capped_result x) as (-> & -> & ->)
    end; reflexivity.
Qed.

Lemma loan_history_bonus_nan (loan_history x : float) :
  fnan x = true -> fnan (Credit.loan_history_bonus loan_history x) = true.
Proof.
  intros H. unfold Credit.loan_history_bonus.
  destruct (PrimFloat.ltb 0 loan_history); [apply add_nan|]; assumption.
Qed.

Lemma balance_factor_nan (balance x : float) :
  fnan x = true -> fnan (Credit.balance_factor balance x) = true.
Proof.
  intros H. unfold Credit.balance_factor.
  repeat match goal with
         | |- context [if ?b then _ else _] => destruct b
         end; try apply add_nan; assumption.
Qed.

(** X4: a NaN delinquency_count turns the rule-based score into NaN, which
    the cap sends to CREDIT_SCORE_MAX: the scorer returns the best score,
    850, with risk_category LOW and score_range EXCELLENT. *)
Theorem credit_nan_delinquency_is_850 (features : gmap string float) :
  fnan (get features "delinquency_count" 0) = true ->
  fnan (Credit.mock_score features) = true
  /\ exists r,
       Credit.predict settings None features = Some r
       /\ Credit.credit_score r = 850
       /\ Credit.risk_category r = "LOW"%string
       /\ Credit.score_range r = "EXCELLENT"%string.
Proof.
  intros Hd.
  assert (fnan (Credit.mock_score features) = true) as Hn.
  { unfold Credit.mock_score. cbv zeta.
    apply balance_factor_nan, loan_history_bonus_nan.
    unfold Credit.delinquency_penalty. apply sub_nan_r, mul_nan_l, Hd. }
  split; [assumption|].
  pose proof (credit_result None features) as Hr. cbv zeta in Hr.
  eexists. split; [exact Hr|].
  cbn [Credit.credit_score Credit.risk_category Credit.score_range].
  unfold capped. rewrite Hn. auto.
Qed.

Lemma credit_nan_delinquency_is_850_witness :
  fnan (get {[ "delinquency_count"%string := nan ]} "delinquency_count" 0) = true
  /\ fnan (Credit.mock_score {[ "delinquency_count"%string := nan ]}) = true
  /\ exists r,
       Credit.predict settings None {[ "delinquency_count"%string := nan ]} = Some r
       /\ Credit.credit_score r = 850
       /\ Credit.risk_category r = "LOW"%string
       /\ Credit.score_range r = "EXCELLENT"%string.
Proof.
  split; [reflexivity|].
  apply (credit_nan_delinquency_is_850 {[ "delinquency_count"%string := nan ]}).
  reflexivity.
Defined.


(** The cap leaves a score strictly between the bounds unchanged. *)
Lemma cap_inactive (x : float) :
  fnan x = false -> 300 * ONE < fkey x < 850 * ONE ->
  Credit.cap settings x = Py.Float x /\ capped x = fkey x / ONE.
Proof.
  intros Hn [Hlo Hhi]. unfold Credit.cap, Py.max, Py.min, Py.gt, capped, cap_key.
  cbn [settings CREDIT_SCORE_MIN CREDIT_SCORE_MAX Py.lt Py.to_float].
  change (Py.float_of_Z 850) with 850%float.
  rewrite ltb_key, fkey_850, Hn. change (fnan 850) with false.
  cbn [orb negb andb].
  apply Z.ltb_lt in Hhi as Hhi'. rewrite Hhi'.
  cbn [Py.lt Py.to_float]. change (Py.float_of_Z 300) with 300%float.
  rewrite ltb_key, fkey_300, Hn. change (fnan 300) with false.
  cbn [orb negb andb].
  apply Z.ltb_lt in Hlo as Hlo'. rewrite Hlo'. auto.
Qed.

Lemma mock_score_no_delinquency (features : gmap string float) :
  PrimFloat.eqb (get features "delinquency_count" 0) 0 = true ->
  undelinquent (Credit.mock_score features).
Proof.
  intros Hd. unfold Credit.mock_score. cbv zeta.
  unfold Credit.account_age_factor, Credit.income_factor.
  repeat match goal with
         | |- context [if PrimFloat.ltb ?c (get features ?k ?d) then _ else _] =>
             lazymatch k with
             | "account_age_days"%string => destruct (PrimFloat.ltb c (get features k d))
             | "monthly_income"%string => destruct (PrimFloat.ltb c (get features k d))
             end
         end;
    (rewrite (delinquency_zero _ _ Hd);
     [| vm_compute; reflexivity | vm_compute; discriminate]);
    unfold Credit.loan_history_bonus, Credit.balance_factor;
    repeat match goal with
           | |- context [if ?b then _ else _] => destruct b
           end;
    (split; [vm_compute; reflexivity|]);
    (split; apply Z.leb_le; vm_compute; reflexivity).
Qed.

(** X5: without delinquencies (delinquency_count absent or zero) the
    rule-based score lies between 600 and 830, so the cap is never active and
    the risk_category is never HIGH. *)
Theorem credit_without_delinquency (features : gmap string float) :
  PrimFloat.eqb (get features "delinquency_count" 0) 0 = true ->
  Credit.cap settings (Credit.mock_score features)
  = Py.Float (Credit.mock_score features)
  /\ exists r,
       Credit.predict settings None features = Some r
       /\ 600 <= Credit.credit_score r <= 830
       /\ Credit.risk_category r <> "HIGH"%string.
Proof.
  intros Hd. destruct (mock_score_no_delinquency features Hd) as (Hn & Hlo & Hhi).
  pose proof ONE_pos as H1.
  destruct (cap_inactive (Credit.mock_score features) Hn ltac:(lia)) as [Hcap Hc].
  split; [assumption|].
  pose proof (credit_result None features) as Hr. cbv zeta in Hr.
  eexists. split; [exact Hr|].
  cbn [Credit.credit_score Credit.risk_category]. rewrite Hc.
  assert (600 <= fkey (Credit.mock_score features) / ONE <= 830) as Hz.
  { split.
    - apply Z.div_le_lower_bound; lia.
    - apply Z.div_le_upper_bound; lia. }
  split; [assumption|].
  unfold risk_band.
  repeat match goal with
         | |- context [if ?a <=? ?b then _ else _] => destruct (Z.leb_spec a b)
         end; try discriminate. lia.
Qed.

Lemma credit_without_delinquency_witness :
  PrimFloat.eqb (get ∅ "delinquency_count" 0) 0 = true
  /\ Credit.cap settings (Credit.mock_score ∅) = Py.Float (Credit.mock_score ∅)
  /\ exists r,
       Credit.predict settings None ∅ = Some r
       /\ 600 <= Credit.credit_score r <= 830
       /\ Credit.risk_category r <> "HIGH"%string.
Proof.
  split; [reflexivity|]. apply (credit_without_delinquency ∅). reflexivity.
Defined.

(** X6: in both paths risk_category and score_range name the same band of
    the credit_score: the scorer returns one of five pairs. *)
Theorem credit_category_matches_range model (features : gmap string float) :
  exists r,
    Credit.predict settings model features = Some r
    /\ (Credit.risk_category r = "LOW"%string
        /\ Credit.score_range r = "EXCELLENT"%string /\ 750 <= Credit.credit_score r
        \/ Credit.risk_category r = "MEDIUM_LOW"%string
           /\ Credit.score_range r = "GOOD"%string /\ 700 <= Credit.credit_score r < 750
        \/ Credit.risk_category r = "MEDIUM"%string
           /\ Credit.score_range r = "FAIR"%string /\ 650 <= Credit.credit_score r < 700
        \/ Credit.risk_category r = "MEDIUM_HIGH"%string
           /\ Credit.score_range r = "POOR"%string /\ 600 <= Credit.credit_score r < 650
        \/ Credit.risk_category r = "HIGH"%string
           /\ Credit.score_range r = "VERY_POOR"%string /\ Credit.credit_score r < 600).
Proof.
  pose proof (credit_result model features) as Hr. cbv zeta in Hr.
  eexists. split; [exact Hr|].
  cbn [Credit.credit_score Credit.risk_category Credit.score_range].
  unfold risk_band, range_band.
  repeat match goal with
         | |- context [if ?a <=? ?b then _ else _] => destruct (Z.leb_spec a b)
         end; auto 10 with lia.
Qed.

(** The income entry of the factors depends on the income alone. *)
Lemma factor_analysis_income (features : gmap string float) :
  Credit._get_factor_analysis features !! "income"
  = let income := get features "monthly_income" 0 in
    if PrimFloat.ltb 100000 income
    then Some (Credit.Text "High income - positive impact")
    else if PrimFloat.ltb income 25000
    then Some (Credit.Text "Low income - negative impact")
    else None.
Proof.
  unfold Credit._get_factor_analysis. cbv zeta.
  repeat match goal with
         | |- context [if ?b then _ else _] => destruct b
         end;
    now simplify_map_eq.
Qed.

(** X7: when monthly_income is absent, the rule-based scorer returns the
    credit_score, risk_category and score_range that it returns for an
    explicit income of 50000, whose +30 of the >25000 band is in the returned
    credit_score (without delinquencies, where the arithmetic is exact, the
    credit_score is exactly 30 above the one for an explicit income of 0),
    while the factors of the same result are those of an income of 0 and hold
    income = "Low income - negative impact"; for an explicit 50000 the
    factors hold no income entry. *)
Theorem credit_absent_income (features : gmap string float) :
  features !! "monthly_income" = None ->
  (exists r r50000,
     Credit.predict settings None features = Some r
     /\ Credit.predict settings None (<["monthly_income" := 50000%float]> features)
        = Some r50000
     /\ Credit.credit_score r = Credit.credit_score r50000
     /\ Credit.risk_category r = Credit.risk_category r50000
     /\ Credit.score_range r = Credit.score_range r50000
     /\ Credit.factors r !! "income"
        = Some (Credit.Text "Low income - negative impact")
     /\ Credit.factors r50000 !! "income" = None)
  /\ (PrimFloat.eqb (get features "delinquency_count" 0) 0 = true ->
      exists r r0,
        Credit.predict settings None features = Some r
        /\ Credit.predict settings None (<["monthly_income" := 0%float]> features)
           = Some r0
        /\ Credit.credit_score r = Credit.credit_score r0 + 30
        /\ Credit.factors r = Credit.factors r0)
  /\ Credit.mock_score features
     = Credit.mock_score (<["monthly_income" := 50000%float]> features)
  /\ (forall score,
        Credit.income_factor (get features "monthly_income" 50000) score
        = (score + 30)%float).
Proof.
  intros Habs.
  assert (Credit.mock_score features
          = Credit.mock_score (<["monthly_income" := 50000%float]> features)) as Hs.
  { unfold Credit.mock_score, get.
    rewrite lookup_insert_eq, !lookup_insert_ne, Habs by done. reflexivity. }
  assert (Credit._get_factor_analysis features
          = Credit._get_factor_analysis (<["monthly_income" := 0%float]> features))
    as Hf.
  { unfold Credit._get_factor_analysis, get.
    rewrite lookup_insert_eq, !lookup_insert_ne, Habs by done. reflexivity. }
  pose proof (credit_result None) as Hp. cbv zeta in Hp.
  split; [|split; [|split]].
  - eexists _, _. split; [apply Hp|]. split; [apply Hp|].
    cbn [Credit.credit_score Credit.risk_category Credit.score_range Credit.factors].
    rewrite <- Hs. repeat (split; [reflexivity|]).
    rewrite !factor_analysis_income. unfold get.
    rewrite Habs, lookup_insert_eq. split; reflexivity.
  - intros Hd. eexists _, _. split; [apply Hp|]. split; [apply Hp|].
    cbn [Credit.credit_score Credit.factors].
    split; [apply absent_income_plus_30; assumption | exact Hf].
  - exact Hs.
  - intros score. unfold get. rewrite Habs. reflexivity.
Qed.

Lemma credit_absent_income_witness :
  (exists r r50000,
     Credit.predict settings None ∅ = Some r
     /\ Credit.predict settings None (<["monthly_income" := 50000%float]> ∅)
        = Some r50000
     /\ Credit.credit_score r = Credit.credit_score r50000
     /\ Credit.risk_category r = Credit.risk_category r50000
     /\ Credit.score_range r = Credit.score_range r50000
     /\ Credit.factors r !! "income"
        = Some (Credit.Text "Low income - negative impact")
     /\ Credit.factors r50000 !! "income" = None)
  /\ (PrimFloat.eqb (get ∅ "delinquency_count" 0) 0 = true ->
      exists r r0,
        Credit.predict settings None ∅ = Some r
        /\ Credit.predict settings None (<["monthly_income" := 0%float]> ∅)
           = Some r0
        /\ Credit.credit_score r = Credit.credit_score r0 + 30
        /\ Credit.factors r = Credit.factors r0)
  /\ Credit.mock_score ∅
     = Credit.mock_score (<["monthly_income" := 50000%float]> ∅)
  /\ (forall score,
        Credit.income_factor (get ∅ "monthly_income" 50000) score
        = (score + 30)%float).
Proof. apply (credit_absent_income ∅). reflexivity. Defined.

(** ** The risk aggregator *)

(** The decision of the aggregator, read off the results of the two
    scorers. *)
Lemma risk_predict_unfold credit_model fraud_model (features : gmap string float) :
  exists (ff : gmap string float) (cr : Credit.Result) (overall : float),
    Risk.fraud_features features = Some ff
    /\ Credit.predict settings credit_model (Risk.credit_features features) = Some cr
    /\ overall
       = ((1 - Py.float_of_Z (Credit.credit_score cr) / 850) * 0.4
          + Fraud.fraud_score (Fraud.predict settings fraud_model ff) * 0.4
          + Risk._calculate_amount_risk (get features "amount" 0) * 0.2)%float
    /\ Risk.predict settings credit_model fraud_model features
       = Some {| Risk.overall_risk_score := clamp01 overall;
                 Risk.risk_category := Risk._get_risk_category (clamp01 overall);
                 Risk.components :=
                   {| Risk.credit_risk :=
                        (1 - Py.float_of_Z (Credit.credit_score cr) / 850)%float;
                      Risk.fraud_risk :=
                        Fraud.fraud_score (Fraud.predict settings fraud_model ff);
                      Risk.amount_risk :=
                        Risk._calculate_amount_risk (get features "amount" 0) |};
                 Risk.credit_score := Credit.credit_score cr;
                 Risk.fraud_score :=
                   Fraud.fraud_score (Fraud.predict settings fraud_model ff);
                 Risk.recommendation := Risk._get_recommendation (clamp01 overall) |}.
Proof.
  destruct (fraud_features_total features) as [ff Hff].
  destruct (credit_predict_total settings credit_model
              (Risk.credit_features features)) as [cr Hcr].
  exists ff, cr. eexists. split; [assumption|]. split; [assumption|].
  split; [reflexivity|].
  unfold Risk.predict. rewrite Hff, Hcr. reflexivity.
Qed.

Lemma clamp01_not_nan (x : float) : fnan (clamp01 x) = false.
Proof.
  destruct (clamp01_range x) as [H _]. now apply leb_not_nan in H.
Qed.

(** X8: whatever the features and the artifacts, the aggregator returns a
    decision whose overall_risk_score lies in [0, 1]. *)
Theorem risk_overall_in_unit_interval credit_model fraud_model
    (features : gmap string float) :
  exists d,
    Risk.predict settings credit_model fraud_model features = Some d
    /\ PrimFloat.leb 0 (Risk.overall_risk_score d) = true
    /\ PrimFloat.leb (Risk.overall_risk_score d) 1 = true.
Proof.
  destruct (risk_predict_unfold credit_model fraud_model features)
    as (ff & cr & overall & _ & _ & _ & Hd).
  eexists. split; [exact Hd|]. cbn [Risk.overall_risk_score].
  apply clamp01_range.
Qed.

Lemma fkey_risk_cutpoints :
  fkey 0.3 <= fkey 0.4 /\ fkey 0.4 < fkey 0.6 /\ fkey 0.6 <= fkey 0.7.
Proof.
  split; [apply Z.leb_le | split; [apply Z.ltb_lt | apply Z.leb_le]];
    vm_compute; reflexivity.
Qed.

(** X9: category and recommendation of a decision are consistent: LOW comes
    with APPROVE only, BLOCK with HIGH only, and a HIGH risk is never
    approved. *)
Theorem risk_category_and_recommendation credit_model fraud_model
    (features : gmap string float) :
  exists d,
    Risk.predict settings credit_model fraud_model features = Some d
    /\ (Risk.risk_category d = "LOW"%string /\ Risk.recommendation d = "APPROVE"%string
        \/ Risk.risk_category d = "MEDIUM"%string /\ Risk.recommendation d = "APPROVE"%string
        \/ Risk.risk_category d = "MEDIUM"%string /\ Risk.recommendation d = "REVIEW"%string
        \/ Risk.risk_category d = "HIGH"%string /\ Risk.recommendation d = "REVIEW"%string
        \/ Risk.risk_category d = "HIGH"%string /\ Risk.recommendation d = "BLOCK"%string).
Proof.
  destruct (risk_predict_unfold credit_model fraud_model features)
    as (ff & cr & overall & _ & _ & _ & Hd).
  eexists. split; [exact Hd|]. cbn [Risk.risk_category Risk.recommendation].
  pose proof (clamp01_not_nan overall) as Hn.
  pose proof fkey_risk_cutpoints as (H34 & H46 & H67).
  unfold Risk._get_risk_category, Risk._get_recommendation.
  rewrite !ltb_key, Hn.
  change (fnan 0.3) with false. change (fnan 0.6) with false.
  change (fnan 0.7) with false. change (fnan 0.4) with false.
  cbn [orb negb andb].
  repeat match goal with
         | |- context [if ?a <? ?b then _ else _] => destruct (Z.ltb_spec a b)
         end; try lia; auto 10.
Qed.

(** The dictionary [fraud_features], with its two quotients written out. *)
Lemma fraud_features_eq (features : gmap string float) :
  Risk.fraud_features features
  = Some (list_to_map
      [ ("amount", get features "amount" 0);
        ("hour", get features "hour" 12);
        ("day_of_week", get features "day_of_week" 3);
        ("transaction_count_24h", get features "transaction_count_24h" 0);
        ("transaction_count_7d", get features "transaction_count_7d" 5);
        ("avg_amount_7d", get features "avg_amount_7d" 10000);
        ("beneficiary_age_days", get features "beneficiary_age_days" 365);
        ("device_risk", get features "device_risk" 0);
        ("location_risk", get features "location_risk" 0);
        ("user_account_age_days", get features "account_age_days" 365);
        ("user_balance", get features "total_balance" 100000);
        ("is_new_beneficiary",
          if PrimFloat.ltb (get features "beneficiary_age_days" 365) 7
          then 1 else 0);
        ("is_unusual_hour",
          if PrimFloat.ltb (get features "hour" 12) 6
             || PrimFloat.ltb 23 (get features "hour" 12)
          then 1 else 0);
        ("amount_vs_avg_ratio",
          get features "amount" 0 / Risk.avg_divisor features);
        ("velocity_score",
          Py.fmin (get features "transaction_count_24h" 0 / 10) 1) ]%string%float).
Proof.
  unfold Risk.fraud_features, Py.truediv.
  rewrite avg_divisor_nonzero.
  change (PrimFloat.eqb 10 0) with false.
  reflexivity.
Qed.

Ltac lookup_literal :=
  cbn [list_to_map foldr uncurry fst snd];
  repeat first [ rewrite lookup_insert_eq | rewrite lookup_insert_ne by done ];
  try rewrite lookup_empty.

(** What the rule-based fraud scorer reads from the aggregator's
    dictionary. *)
Lemma fraud_features_get (features ff : gmap string float) (d : float) :
  Risk.fraud_features features = Some ff ->
  get ff "amount" d = get features "amount" 0
  /\ get ff "beneficiary_age_days" d = get features "beneficiary_age_days" 365
  /\ get ff "transaction_count_24h" d = get features "transaction_count_24h" 0
  /\ get ff "device_risk" d = get features "device_risk" 0
  /\ get ff "location_risk" d = get features "location_risk" 0.
Proof.
  rewrite fraud_features_eq. intros [= <-].
  repeat split; unfold get at 1; lookup_literal; reflexivity.
Qed.

(** What the rule-based credit scorer reads from the aggregator's
    dictionary. *)
Lemma credit_features_get (features : gmap string float) (d : float) :
  get (Risk.credit_features features) "account_age_days" d
  = get features "account_age_days" 365
  /\ get (Risk.credit_features features) "monthly_income" d
     = get features "monthly_income" 50000
  /\ get (Risk.credit_features features) "total_balance" d
     = get features "total_balance" 100000
  /\ get (Risk.credit_features features) "delinquency_count" d
     = get features "delinquency_count" 0
  /\ get (Risk.credit_features features) "loan_history_count" d
     = get features "loan_history_count" 0.
Proof.
  unfold Risk.credit_features.
  repeat split; unfold get at 1; lookup_literal; reflexivity.
Qed.

Lemma clamp01_nan (x : float) : fnan x = true -> clamp01 x = 1%float.
Proof. apply clamp01_cases. Qed.

(** X10: with no fraud artifact loaded, a NaN device_risk or location_risk,
    which the fraud scorer alone reports as LOW, makes the weighted sum NaN,
    and the clamp sends NaN to 1.0: the decision is overall_risk_score 1.0,
    HIGH, BLOCK. *)
Theorem risk_nan_is_blocked credit_model (features : gmap string float) :
  fnan (get features "device_risk" 0) = true
  \/ fnan (get features "location_risk" 0) = true ->
  exists d,
    Risk.predict settings credit_model None features = Some d
    /\ fnan (Risk.fraud_score d) = true
    /\ Risk.overall_risk_score d = 1%float
    /\ Risk.risk_category d = "HIGH"%string
    /\ Risk.recommendation d = "BLOCK"%string.
Proof.
  intros H.
  destruct (risk_predict_unfold credit_model None features)
    as (ff & cr & overall & Hff & _ & Ho & Hd).
  assert (fnan (Fraud.fraud_score (Fraud.predict settings None ff)) = true) as Hn.
  { apply (fraud_mock_predict_nan settings ff).
    destruct (fraud_features_get features ff 0 Hff) as (_ & _ & _ & -> & ->).
    assumption. }
  assert (fnan overall = true) as Hov.
  { rewrite Ho. apply add_nan, add_nan_r, mul_nan_l, Hn. }
  eexists. split; [exact Hd|].
  cbn [Risk.fraud_score Risk.overall_risk_score Risk.risk_category
       Risk.recommendation].
  rewrite (clamp01_nan overall Hov). auto.
Qed.

Lemma risk_nan_is_blocked_witness :
  (fnan (get {[ "device_risk"%string := nan ]} "device_risk" 0) = true
   \/ fnan (get {[ "device_risk"%string := nan ]} "location_risk" 0) = true)
  /\ exists d,
       Risk.predict settings None None {[ "device_risk"%string := nan ]} = Some d
       /\ fnan (Risk.fraud_score d) = true
       /\ Risk.overall_risk_score d = 1%float
       /\ Risk.risk_category d = "HIGH"%string
       /\ Risk.recommendation d = "BLOCK"%string.
Proof.
  assert (fnan (get {[ "device_risk"%string := nan ]} "device_risk" 0) = true
          \/ fnan (get {[ "device_risk"%string := nan ]} "location_risk" 0) = true)
    as H by (left; reflexivity).
  split; [exact H|]. exact (risk_nan_is_blocked None _ H).
Defined.

(** X11: the aggregator's two dictionaries hold every declared feature name,
    so the vectors built from them for the artifacts default nothing to 0.0:
    they are the features with the aggregator's own defaults, in the declared
    order, followed for the fraud vector by the four derived features. *)
Theorem aggregator_feature_vectors (features : gmap string float) :
  _prepare_features Credit.feature_names (Risk.credit_features features)
  = [ get features "account_age_days" 365; get features "monthly_income" 50000;
      get features "total_balance" 100000; get features "transaction_count_30d" 10;
      get features "delinquency_count" 0; get features "loan_history_count" 0;
      get features "avg_transaction_amount" 10000;
      get features "credit_utilization" 0.3; get features "savings_ratio" 0.2 ]%float
  /\ exists ff,
       Risk.fraud_features features = Some ff
       /\ _prepare_features Fraud.feature_names ff
          = [ get features "amount" 0; get features "hour" 12;
              get features "day_of_week" 3; get features "transaction_count_24h" 0;
              get features "transaction_count_7d" 5; get features "avg_amount_7d" 10000;
              get features "beneficiary_age_days" 365; get features "device_risk" 0;
              get features "location_risk" 0; get features "account_age_days" 365;
              get features "total_balance" 100000;
              if PrimFloat.ltb (get features "beneficiary_age_days" 365) 7
              then 1 else 0;
              if PrimFloat.ltb (get features "hour" 12) 6
                 || PrimFloat.ltb 23 (get features "hour" 12)
              then 1 else 0;
              get features "amount" 0
              / Py.fmax (get features "avg_amount_7d" 1) 1;
              Py.fmin (get features "transaction_count_24h" 0 / 10) 1 ]%float.
Proof.
  split.
  - unfold _prepare_features, Credit.feature_names, Risk.credit_features.
    cbn [map].
    repeat (f_equal; [unfold get at 1; lookup_literal; reflexivity|]).
    reflexivity.
  - eexists. split; [apply fraud_features_eq|].
    unfold _prepare_features, Fraud.feature_names. cbn [map].
    repeat (f_equal; [unfold get at 1; lookup_literal; reflexivity|]).
    reflexivity.
Qed.

Lemma mock_score_credit_features (features : gmap string float) :
  Credit.mock_score (Risk.credit_features features) = Credit.mock_score features.
Proof.
  unfold Credit.mock_score.
  destruct (credit_features_get features 365) as (-> & _).
  destruct (credit_features_get features 50000) as (_ & -> & _).
  destruct (credit_features_get features 100000) as (_ & _ & -> & _).
  destruct (credit_features_get features 0) as (_ & _ & _ & -> & ->).
  reflexivity.
Qed.

(** X12: with no artifact loaded the aggregator reports the credit_score and
    the fraud_score that the two scorers return on the raw features: its
    defaults are the scorers' own. *)
Theorem aggregator_scores_are_the_scorers (features : gmap string float) :
  exists d cr,
    Risk.predict settings None None features = Some d
    /\ Credit.predict settings None features = Some cr
    /\ Risk.credit_score d = Credit.credit_score cr
    /\ Risk.fraud_score d = Fraud.fraud_score (Fraud.predict settings None features).
Proof.
  destruct (risk_predict_unfold None None features)
    as (ff & cr' & overall & Hff & Hcr & _ & Hd).
  pose proof (credit_result None features) as Hc. cbv zeta in Hc.
  eexists. eexists. split; [exact Hd|]. split; [exact Hc|].
  cbn [Risk.credit_score Risk.fraud_score Credit.credit_score].
  split.
  - pose proof (credit_result None (Risk.credit_features features)) as Hc'.
    cbv zeta in Hc'. rewrite Hcr in Hc'. injection Hc' as ->.
    cbn [Credit.credit_score]. now rewrite mock_score_credit_features.
  - cbn [Fraud.predict]. unfold Fraud._mock_predict.
    destruct (fraud_features_get features ff 0 Hff) as (-> & _ & -> & -> & ->).
    destruct (fraud_features_get features ff 365 Hff) as (_ & -> & _).
    reflexivity.
Qed.

(** X13: when avg_amount_7d is absent the aggregator passes 10000 as the
    avg_amount_7d feature but divides by 1.0, not by 10000, for
    amount_vs_avg_ratio. *)
Theorem aggregator_absent_average (features : gmap string float) :
  features !! "avg_amount_7d" = None ->
  exists ff,
    Risk.fraud_features features = Some ff
    /\ ff !! "avg_amount_7d" = Some 10000%float
    /\ ff !! "amount_vs_avg_ratio" = Some (get features "amount" 0 / 1)%float.
Proof.
  intros Habs. eexists. split; [apply fraud_features_eq|].
  assert (Risk.avg_divisor features = 1%float) as ->.
  { unfold Risk.avg_divisor, get. rewrite Habs. reflexivity. }
  unfold get at 6. rewrite Habs.
  split; lookup_literal; reflexivity.
Qed.

Lemma aggregator_absent_average_witness :
  exists ff,
    Risk.fraud_features ∅ = Some ff
    /\ ff !! "avg_amount_7d" = Some 10000%float
    /\ ff !! "amount_vs_avg_ratio" = Some (get ∅ "amount" 0 / 1)%float.
Proof. apply (aggregator_absent_average ∅). reflexivity. Defined.

(** ** Keys outside the declared feature names *)


Lemma prepare_features_insert_ne (names : list string)
    (features : gmap string float) (k : string) (v : float) :
  k ∉ names ->
  _prepare_features names (<[k := v]> features) = _prepare_features names features.
Proof.
  intros Hk. unfold _prepare_features. apply map_ext_in.
  intros name Hin. apply get_insert_ne. intros ->.
  apply Hk, list_elem_of_In, Hin.
Qed.

(** X14: a key outside the fifteen declared feature names never changes the
    prediction of the fraud scorer, in either path: a misspelt feature name
    is ignored, and the default of the intended feature is used. *)
Theorem fraud_ignores_undeclared_keys (cfg : Settings) model
    (features : gmap string float) (k : string) (v : float) :
  k ∉ Fraud.feature_names ->
  Fraud.predict cfg model (<[k := v]> features) = Fraud.predict cfg model features.
Proof.
  intros Hk. destruct model as [predict_proba|]; cbn [Fraud.predict].
  - now rewrite prepare_features_insert_ne.
  - unfold Fraud.feature_names in Hk. rewrite !not_elem_of_cons in Hk.
    unfold Fraud._mock_predict.
    rewrite !get_insert_ne by tauto. reflexivity.
Qed.

Lemma fraud_ignores_undeclared_keys_witness :
  ("ammount"%string ∉ Fraud.feature_names)
  /\ Fraud.predict settings None (<["ammount"%string := 250000%float]> ∅)
     = Fraud.predict settings None ∅.
Proof.
  assert ("ammount"%string ∉ Fraud.feature_names) as H
    by (unfold Fraud.feature_names;
        repeat (apply not_elem_of_cons; split; [discriminate|]);
        apply not_elem_of_nil).
  split; [exact H|]. exact (fraud_ignores_undeclared_keys settings None ∅ _ _ H).
Defined.

(** X15: a key outside the nine declared feature names never changes the
    result of the credit scorer, factors included, in either path. *)
Theorem credit_ignores_undeclared_keys (cfg : Settings) model
    (features : gmap string float) (k : string) (v : float) :
  k ∉ Credit.feature_names ->
  Credit.predict cfg model (<[k := v]> features) = Credit.predict cfg model features.
Proof.
  intros Hk.
  assert (Credit._get_factor_analysis (<[k := v]> features)
          = Credit._get_factor_analysis features) as Hfa.
  { unfold Credit.feature_names in Hk. rewrite !not_elem_of_cons in Hk.
    unfold Credit._get_factor_analysis.
    rewrite !get_insert_ne by tauto. reflexivity. }
  assert (Credit.mock_score (<[k := v]> features) = Credit.mock_score features)
    as Hms.
  { unfold Credit.feature_names in Hk. rewrite !not_elem_of_cons in Hk.
    unfold Credit.mock_score.
    rewrite !get_insert_ne by tauto. reflexivity. }
  destruct model as [model_predict|]; cbn [Credit.predict].
  - rewrite prepare_features_insert_ne, Hfa by assumption. reflexivity.
  - unfold Credit._mock_predict. rewrite Hfa, Hms. reflexivity.
Qed.

Lemma credit_ignores_undeclared_keys_witness :
  ("income"%string ∉ Credit.feature_names)
  /\ Credit.predict settings None (<["income"%string := 120000%float]> ∅)
     = Credit.predict settings None ∅.
Proof.
  assert ("income"%string ∉ Credit.feature_names) as H
    by (unfold Credit.feature_names;
        repeat (apply not_elem_of_cons; split; [discriminate|]);
        apply not_elem_of_nil).
  split; [exact H|]. exact (credit_ignores_undeclared_keys settings None ∅ _ _ H).
Defined.

(** ** Signs *)

Lemma binary_round_aux_nonneg (m : positive) (e : Z) :
  let r := binary_round_aux prec emax false (Zpos m) e loc_Exact in
  SFis_nan r = false /\ 0 <= key r.
Proof.
  cbv zeta. unfold binary_round_aux, shr_fexp. cbn [shr_record_of_loc].
  match goal with
  | |- context [shr _ e ?n] =>
      pose proof (shr_round (Zpos m) e n ltac:(lia)) as H1;
      destruct (shr _ e n) as [mrs' e']
  end.
  cbv zeta in H1. destruct H1 as (_ & _ & ->).
  match goal with
  | |- context [rne (Zpos m) ?k] =>
      pose proof (rne_between (Zpos m) k ltac:(lia)) as Hq;
      assert (0 <= Zpos m / 2 ^ k) as Hd
        by (apply Z.div_pos; [lia | apply pow2_pos; lia]);
      set (q := rne (Zpos m) k) in *
  end.
  match goal with
  | |- context [shr _ e' ?n] =>
      pose proof (shr_round q e' n ltac:(lia)) as H2;
      destruct (shr _ e' n) as [mrs'' e'']
  end.
  cbv zeta in H2. destruct H2 as (_ & Hm & _).
  assert (0 <= shr_m mrs'') as Hnn.
  { rewrite Hm. apply Z.div_pos; [lia | apply pow2_pos; lia]. }
  destruct (shr_m mrs'') as [|p|p]; [| |lia].
  - split; [reflexivity|]. cbn [key]. lia.
  - destruct (_ <=? _); split; try reflexivity; cbn [key cond_Zopp].
    + pose proof (Z.pow_nonneg 2 (e'' + 1074) ltac:(lia)). nia.
    + pose proof INF_pos. lia.
Qed.

(** The product of a non-negative number with a positive finite one is not
    NaN and not negative. *)
Lemma mul_nonneg (x c : float) :
  fnan x = false -> 0 <= fkey x -> ffinite c = true -> 0 < fkey c ->
  fnan (x * c) = false /\ 0 <= fkey (x * c).
Proof.
  unfold fnan, ffinite, fkey. rewrite mul_spec. unfold SF64mul.
  pose proof (Prim2SF_valid x) as Vx. pose proof (Prim2SF_valid c) as Vc.
  pose proof INF_pos as HI.
  destruct (Prim2SF x) as [sx|sx| |sx mx ex], (Prim2SF c) as [sc|sc| |sc mc ec];
    try discriminate; cbn [key valid_binary] in *; intros _ Hx _ Hc; try lia.
  - split; [reflexivity|]. cbn [SFmul key]. lia.
  - pose proof (key_finite_bounds sc _ _ Vc).
    destruct sx, sc; cbn [cond_Zopp] in *; try lia.
    split; [reflexivity|]. cbn [SFmul key xorb cond_Zopp]. lia.
  - pose proof (key_finite_bounds sx _ _ Vx). pose proof (key_finite_bounds sc _ _ Vc).
    destruct sx, sc; cbn [cond_Zopp] in *; try lia.
    cbn [SFmul xorb]. apply binary_round_aux_nonneg.
Qed.

(** The sum of two non-negative numbers is not NaN and not negative. *)
Lemma add_nonneg (x c : float) :
  fnan x = false -> 0 <= fkey x -> fnan c = false -> 0 <= fkey c ->
  fnan (x + c) = false /\ 0 <= fkey (x + c).
Proof.
  intros Hnx Hx Hnc Hc. pose proof INF_pos as HI.
  destruct (ffinite c) eqn:Fc.
  - destruct (add_key x c Hnx Fc) as [Hn Hk]. split; [assumption|]. rewrite Hk.
    destruct (ffinite x); [|assumption].
    change 0 with (rnd 0). apply rnd_mono. lia.
  - unfold fnan, ffinite, fkey in *. rewrite add_spec. unfold SF64add.
    destruct (key_infinite _ Fc Hnc) as [sc Ec]. rewrite Ec in *.
    destruct sc; cbn [key cond_Zopp] in Hc; [lia|].
    destruct (Prim2SF x) as [sx|sx| |sx mx ex]; try discriminate;
      try (split; [reflexivity|cbn [SFadd key cond_Zopp]; lia]).
    destruct sx; cbn [key cond_Zopp] in Hx; [lia|].
    split; [reflexivity|]. cbn [SFadd key cond_Zopp]. lia.
Qed.

Lemma add_literal_nonneg (x c : float) :
  fnan x = false /\ 0 <= fkey x ->
  fnan c = false -> (0 <=? fkey c) = true ->
  fnan (x + c) = false /\ 0 <= fkey (x + c).
Proof. intros [Hn Hx] Hc Hk%Z.leb_le. now apply add_nonneg. Qed.

(** X16: when device_risk and location_risk are not negative (an absent one
    counts as 0.0), the rule-based fraud_score lies in [0, 1]. *)
Theorem fraud_score_in_unit_interval (cfg : Settings)
    (features : gmap string float) :
  PrimFloat.leb 0 (get features "device_risk" 0) = true ->
  PrimFloat.leb 0 (get features "location_risk" 0) = true ->
  let score := Fraud.fraud_score (Fraud.predict cfg None features) in
  PrimFloat.leb 0 score = true /\ PrimFloat.leb score 1 = true.
Proof.
  intros Hd Hl. cbv zeta. cbn [Fraud.predict].
  apply leb_not_nan in Hd as (_ & Hnd & Hkd), Hl as (_ & Hnl & Hkl).
  change (fkey 0) with 0 in Hkd, Hkl.
  assert (ffinite 0.1 = true /\ 0 < fkey 0.1) as [F01 K01]
    by (split; [reflexivity | apply Z.ltb_lt; vm_compute; reflexivity]).
  destruct (mul_nonneg _ 0.1 Hnd Hkd F01 K01) as [Hnd' Hkd'].
  destruct (mul_nonneg _ 0.1 Hnl Hkl F01 K01) as [Hnl' Hkl'].
  unfold Fraud._mock_predict. cbv zeta. cbn [Fraud.fraud_score].
  match goal with
  | |- context [PrimFloat.ltb 1 (?b + ?c1 + ?c2)%float] =>
      assert (fnan b = false /\ 0 <= fkey b) as [Hnb Hkb];
      [|destruct (add_nonneg b c1 Hnb Hkb Hnd' Hkd') as [Hn1 Hk1];
        destruct (add_nonneg (b + c1) c2 Hn1 Hk1 Hnl' Hkl') as [Hn Hk];
        set (total := (b + c1 + c2)%float) in *]
  end.
  { repeat match goal with
           | |- context [if ?b then _ else _] => destruct b
           end;
      repeat (apply add_literal_nonneg; [|reflexivity|vm_compute; reflexivity]);
      (split; [reflexivity | change (fkey 0) with 0; lia]). }
  destruct (PrimFloat.ltb 1 total) eqn:H1; [split; reflexivity|].
  split.
  - apply leb_of_keys; [reflexivity|assumption|assumption].
  - apply ltb_false_cases in H1. change (fnan 1) with false in H1.
    apply leb_of_keys; [assumption|reflexivity|].
    destruct H1 as [H1|[H1|H1]]; congruence || assumption.
Qed.

Lemma fraud_score_in_unit_interval_witness :
  PrimFloat.leb 0 (get scenario_1 "device_risk" 0) = true
  /\ PrimFloat.leb 0 (get scenario_1 "location_risk" 0) = true
  /\ PrimFloat.leb 0 (Fraud.fraud_score (Fraud.predict settings None scenario_1))
     = true
  /\ PrimFloat.leb (Fraud.fraud_score (Fraud.predict settings None scenario_1)) 1
     = true.
Proof.
  split; [reflexivity|]. split; [reflexivity|].
  apply (fraud_score_in_unit_interval settings scenario_1); reflexivity.
Defined.

(** ** Sums in order *)

Lemma le_or_same_gt (c x y : float) :
  le_or_same x y -> PrimFloat.ltb c x = true -> PrimFloat.ltb c y = true.
Proof. intros [<-|H] Hc; [assumption|]. eapply ltb_leb_trans; eassumption. Qed.

Lemma le_or_same_lt (c x y : float) :
  le_or_same x y -> PrimFloat.ltb y c = true -> PrimFloat.ltb x c = true.
Proof.
  intros [<-|H] Hc; [assumption|].
  apply leb_not_nan in H as (Hx & Hy & Hk).
  apply ltb_not_nan in Hc as (_ & Hn & Hc).
  rewrite ltb_key, Hx, Hn. cbn [orb negb andb]. apply Z.ltb_lt. lia.
Qed.

Lemma ord_refl (x : float) : ord x x.
Proof.
  unfold ord. destruct (fnan x) eqn:Hn; [auto|].
  right. apply leb_of_keys; auto; lia.
Qed.

Lemma fnan_eq (x y : float) : fnan x = true -> fnan y = true -> x = y.
Proof.
  unfold fnan. intros Hx Hy. apply Prim2SF_inj.
  destruct (Prim2SF x), (Prim2SF y); try discriminate. reflexivity.
Qed.

Lemma rnd_fkey_id (x : float) : ffinite x = true -> rnd (fkey x) = fkey x.
Proof. intros H. apply rnd_key_id; [apply Prim2SF_valid | exact H]. Qed.

(** The key of [x + c] for a finite [c] is monotone in both. *)
Lemma add_keys_mono (x y c c' : float) :
  fnan x = false -> fnan y = false -> fkey x <= fkey y ->
  ffinite c = true -> ffinite c' = true -> fkey c <= fkey c' ->
  PrimFloat.leb (x + c) (y + c') = true.
Proof.
  intros Hnx Hny Hle Hc Hc' Hcc.
  destruct (add_key x c Hnx Hc) as [Hn1 Hk1], (add_key y c' Hny Hc') as [Hn2 Hk2].
  apply leb_of_keys; [assumption|assumption|]. rewrite Hk1, Hk2.
  pose proof (rnd_range (fkey x + fkey c)). pose proof (rnd_range (fkey y + fkey c')).
  destruct (ffinite x) eqn:Fx, (ffinite y) eqn:Fy.
  - apply rnd_mono. lia.
  - pose proof (fkey_finite_range x Fx). destruct (fkey_infinite y Fy Hny); lia.
  - pose proof (fkey_finite_range y Fy). destruct (fkey_infinite x Fx Hnx); lia.
  - assumption.
Qed.

Lemma ord_add_le (x y c c' : float) :
  ord x y -> ffinite c = true -> ffinite c' = true -> fkey c <= fkey c' ->
  ord (x + c) (y + c').
Proof.
  intros [[Hx Hy]|Hle] Hc Hc' Hcc.
  - left. split; apply add_nan; assumption.
  - right. apply leb_not_nan in Hle as (Hx & Hy & Hk).
    apply add_keys_mono; assumption.
Qed.

(** Adding a non-negative finite constant does not lower a number. *)
Lemma ord_add_r (x y c : float) :
  ord x y -> ffinite c = true -> 0 <= fkey c -> ord x (y + c).
Proof.
  intros [[Hx Hy]|Hle] Hc Hk.
  - left. split; [assumption | apply add_nan; assumption].
  - right. apply leb_not_nan in Hle as (Hx & Hy & Hxy).
    destruct (add_key y c Hy Hc) as [Hn2 Hk2].
    apply leb_of_keys; [assumption|assumption|]. rewrite Hk2.
    destruct (ffinite y) eqn:Fy; [|assumption].
    rewrite <- (rnd_fkey_id y Fy) in Hxy.
    pose proof (rnd_mono (fkey y) (fkey y + fkey c) ltac:(lia)). lia.
Qed.

(** ** Products *)

Lemma shifted_mantissa_at (t X : Z) :
  0 <= t -> 0 < X ->
  let n := Z.max (Z.log2 X - 52) t in
  X / 2 ^ n < 2 ^ 53 /\ (t < n -> 2 ^ 52 <= X / 2 ^ n).
Proof.
  intros Ht HX n.
  pose proof (Z.log2_spec X HX) as [Hlo Hhi].
  pose proof (Z.log2_nonneg X).
  assert (0 <= n) as Hn by lia.
  pose proof (pow2_pos n Hn).
  split.
  - apply Z.div_lt_upper_bound; [lia|].
    rewrite <- Z.pow_add_r by lia.
    eapply Z.lt_le_trans; [exact Hhi|].
    apply Z.pow_le_mono_r; lia.
  - intros Hn0. apply Z.div_le_lower_bound; [lia|].
    rewrite <- Z.pow_add_r by lia.
    replace (n + 52) with (Z.log2 X) by lia. exact Hlo.
Qed.

Lemma rnd_pos_at_range (t X : Z) :
  0 <= t -> 0 < X -> 0 <= rnd_pos_at t X <= INF.
Proof.
  intros Ht HX. unfold rnd_pos_at.
  pose proof INF_pos.
  set (n := Z.max (Z.log2 X - 52) t).
  pose proof (pow2_pos n ltac:(lia)).
  pose proof (pow2_pos (n - t) ltac:(lia)).
  pose proof (rne_between X n ltac:(lia)).
  assert (0 <= X / 2 ^ n) by (apply Z.div_pos; lia).
  split; [|apply Z.le_min_r].
  apply Z.min_glb; [nia|lia].
Qed.

Lemma rnd_pos_at_mono (t X Y : Z) :
  0 <= t -> 0 < X -> X <= Y -> rnd_pos_at t X <= rnd_pos_at t Y.
Proof.
  intros Ht HX HXY. unfold rnd_pos_at.
  pose proof (shifted_mantissa_at t X Ht HX) as [HXhi _].
  pose proof (shifted_mantissa_at t Y Ht ltac:(lia)) as [_ HYlo].
  pose proof (Z.log2_le_mono X Y HXY) as Hlog.
  pose proof (Z.log2_nonneg X).
  set (n := Z.max (Z.log2 X - 52) t) in *.
  set (k := Z.max (Z.log2 Y - 52) t) in *.
  assert (t <= n <= k) as Hnk by lia.
  apply Z.min_le_compat_r.
  destruct (Z.eq_dec n k) as [<-|Hne].
  - pose proof (pow2_pos (n - t) ltac:(lia)).
    pose proof (rne_mono X Y n ltac:(lia) HXY). nia.
  - pose proof (rne_between X n ltac:(lia)).
    pose proof (rne_between Y k ltac:(lia)).
    specialize (HYlo ltac:(lia)).
    pose proof (pow2_pos (n - t) ltac:(lia)).
    pose proof (pow2_pos (k - n - 1) ltac:(lia)).
    assert (2 ^ (k - t) = 2 ^ (n - t) * 2 * 2 ^ (k - n - 1)) as ->.
    { replace (k - t) with (n - t + 1 + (k - n - 1)) at 1 by lia.
      rewrite !Z.pow_add_r by lia. reflexivity. }
    change (2 ^ 53) with (2 * 2 ^ 52) in HXhi.
    assert (rne X n <= 2 * rne Y k) as Hab by lia.
    assert (0 < rne Y k) by (pose proof (pow2_pos 52 ltac:(lia)); lia).
    set (a := rne X n) in *. set (b := rne Y k) in *.
    set (P := 2 ^ (n - t)) in *. set (Q := 2 ^ (k - n - 1)) in *.
    assert (a * P <= 2 * b * P) by nia.
    assert (2 * b * P * 1 <= 2 * b * P * Q) by (apply Z.mul_le_mono_nonneg_l; nia).
    lia.
Qed.

Lemma rnd_pos_at_scale (t a X : Z) :
  0 <= t -> 0 <= a -> 0 < X ->
  rnd_pos_at (t + a) (X * 2 ^ a) = rnd_pos_at t X.
Proof.
  intros Ht Ha HX. unfold rnd_pos_at.
  rewrite Z.log2_mul_pow2 by lia.
  pose proof (Z.log2_nonneg X).
  replace (Z.max (a + Z.log2 X - 52) (t + a))
    with (Z.max (Z.log2 X - 52) t + a) by lia.
  set (n := Z.max (Z.log2 X - 52) t).
  rewrite (rne_scale X n a) by lia.
  replace (n + a - (t + a)) with (n - t) by lia. reflexivity.
Qed.

Lemma rnd_pos_at_0 (X : Z) : rnd_pos_at 0 X = rnd_pos X.
Proof. unfold rnd_pos_at, rnd_pos. now rewrite Z.sub_0_r. Qed.

Lemma rnd_at_mono (t X Y : Z) : 0 <= t -> X <= Y -> rnd_at t X <= rnd_at t Y.
Proof.
  intros Ht HXY.
  destruct X as [|x|x], Y as [|y|y]; cbn [rnd_at]; try lia;
    try (pose proof (rnd_pos_at_range t (Zpos x) Ht ltac:(lia)));
    try (pose proof (rnd_pos_at_range t (Zpos y) Ht ltac:(lia))); try lia.
  - apply rnd_pos_at_mono; lia.
  - pose proof (rnd_pos_at_mono t (Zpos y) (Zpos x) Ht ltac:(lia) ltac:(lia)). lia.
Qed.

Lemma rnd_at_range (t X : Z) : 0 <= t -> - INF <= rnd_at t X <= INF.
Proof.
  intros Ht. pose proof INF_pos.
  destruct X as [|x|x]; cbn [rnd_at]; try lia;
    pose proof (rnd_pos_at_range t (Zpos x) Ht ltac:(lia)); lia.
Qed.

Lemma rnd_at_opp (t X : Z) : rnd_at t (- X) = - rnd_at t X.
Proof.
  destruct X as [|x|x]; try reflexivity.
  change (rnd_pos_at t (Zpos x) = - - rnd_pos_at t (Zpos x)). lia.
Qed.

Lemma rnd_at_cond_Zopp (t : Z) (s : bool) (X : Z) :
  rnd_at t (cond_Zopp s X) = cond_Zopp s (rnd_at t X).
Proof. destruct s; cbn [cond_Zopp]; [apply rnd_at_opp | reflexivity]. Qed.

(** A key taken as a number of units of [2^-2148] rounds to [rnd] of itself. *)
Lemma rnd_at_key (k : Z) : rnd_at 1074 (k * ONE) = rnd k.
Proof.
  pose proof ONE_pos as H1.
  destruct k as [|p|p].
  - reflexivity.
  - assert (0 < Zpos p * ONE) as Hp by lia.
    destruct (Zpos p * ONE) eqn:E; try lia. rewrite <- E.
    cbn [rnd_at rnd]. rewrite <- rnd_pos_at_0.
    apply (rnd_pos_at_scale 0 1074 (Zpos p)); lia.
  - assert (Zneg p * ONE = - (Zpos p * ONE)) as -> by lia.
    rewrite rnd_at_opp.
    assert (0 < Zpos p * ONE) as Hp by lia.
    destruct (Zpos p * ONE) eqn:E; try lia. rewrite <- E.
    cbn [rnd_at rnd]. rewrite <- rnd_pos_at_0. f_equal.
    apply (rnd_pos_at_scale 0 1074 (Zpos p)); lia.
Qed.

(** The two shifts of [binary_round_aux] on an exact positive mantissa at an
    exponent of at most -1074. *)
Lemma binary_round_aux_low (s : bool) (mz : positive) (ez : Z) :
  ez <= -1074 ->
  let r := binary_round_aux prec emax s (Zpos mz) ez loc_Exact in
  SFis_nan r = false
  /\ key r = cond_Zopp s (rnd_pos_at (-1074 - ez) (Zpos mz)).
Proof.
  intros Hez. cbv zeta.
  remember (Z.max (Z.log2 (Zpos mz) + 1 + ez - 53) (-1074)) as E eqn:HEdef.
  pose proof (shifted_mantissa_at (-1074 - ez) (Zpos mz) ltac:(lia) ltac:(lia))
    as Hsm.
  cbv zeta in Hsm. unfold rnd_pos_at.
  set (k1 := E - ez).
  assert (Z.max (Z.log2 (Zpos mz) - 52) (-1074 - ez) = k1) as Hn
    by (subst k1; clear - HEdef; lia).
  rewrite Hn in *.
  replace (k1 - (-1074 - ez)) with (E + 1074) by (subst k1; lia).
  destruct Hsm as [Hhi Hlo].
  pose proof (rne_between (Zpos mz) k1 ltac:(lia)) as Hbt.
  unfold binary_round_aux, shr_fexp. cbn [shr_record_of_loc].
  rewrite Zdigits2_pos, fexp64 by lia.
  rewrite <- HEdef. fold k1.
  pose proof (shr_round (Zpos mz) ez k1 ltac:(lia)) as H1. cbv zeta in H1.
  destruct (shr _ ez k1) as [mrs' e'].
  destruct H1 as (-> & _ & ->).
  replace (Z.max k1 0) with k1 in * by lia.
  replace (ez + k1) with E by (subst k1; lia).
  set (q' := rne (Zpos mz) k1) in *.
  assert (0 <= Zpos mz / 2 ^ k1) as Hdiv
    by (apply Z.div_pos; [lia | apply pow2_pos; lia]).
  assert (0 <= q') as Hq' by lia.
  destruct (Z.eq_dec q' 0) as [Hz|Hnz].
  { rewrite Hz.
    match goal with
    | |- context [shr _ E ?n] =>
        pose proof (shr_round 0 E n ltac:(lia)) as H2;
        destruct (shr _ E n) as [mrs'' e'']
    end.
    cbv zeta in H2. destruct H2 as (_ & Hm & _).
    rewrite Z.div_0_l in Hm by (apply Z.pow_nonzero; lia).
    rewrite Hm. split; [reflexivity|]. cbn [key].
    rewrite Z.mul_0_l, Z.min_l by (pose proof INF_pos; lia).
    now destruct s. }
  assert (0 < q') as Hq'p by lia.
  rewrite Zdigits2_pos, fexp64 by assumption.
  set (k2 := Z.max (Z.log2 q' + 1 + E - 53) (-1074) - E).
  pose proof (shr_round q' E k2 ltac:(lia)) as H2. cbv zeta in H2.
  destruct (shr _ E k2) as [mrs'' e''].
  destruct H2 as (-> & Hq'' & _).
  change (Z.sub emax prec) with 971.
  assert (0 < 2 ^ 52) as H52 by (apply pow2_pos; lia).
  assert (2 ^ 53 = 2 * 2 ^ 52) as H53 by reflexivity.
  assert (exists j, Z.max k2 0 = j /\ 0 <= j
                    /\ shr_m mrs'' * 2 ^ j = q'
                    /\ 0 < shr_m mrs'' < 2 ^ 53
                    /\ (-1074 < E + j -> 2 ^ 52 <= shr_m mrs''))
    as (j & -> & Hj & Hqj & Hqr & Hqn).
  { destruct (Z.eq_dec q' (2 ^ 53)) as [Heq|Hne].
    - exists 1. assert (k2 = 1) as Hk2.
      { subst k2. rewrite Heq, Z.log2_pow2 by lia. lia. }
      rewrite Hk2 in *. change (Z.max 1 0) with 1 in *.
      rewrite Hq'', Heq. change (2 ^ 53 / 2 ^ 1) with (2 ^ 52).
      change (2 ^ 1) with 2. lia.
    - exists 0. assert (q' < 2 ^ 53) as Hlt by lia.
      apply Z.log2_lt_pow2 in Hlt; [|assumption].
      assert (0 < E + 1074 -> 52 <= Z.log2 q') as Hge.
      { intros HEp. apply Z.log2_le_pow2; [assumption|].
        assert (-1074 - ez < k1) as Hk by (subst k1; lia).
        specialize (Hlo Hk). lia. }
      assert (Z.max k2 0 = 0) as Hk2 by (subst k2; lia).
      rewrite Hk2 in *. change (2 ^ 0) with 1 in *.
      rewrite Z.div_1_r in Hq''. rewrite Hq''.
      split; [reflexivity|]. split; [lia|]. split; [lia|].
      split; [lia|]. intros HEj.
      assert (-1074 - ez < k1) as Hk by (subst k1; lia).
      specialize (Hlo Hk). lia. }
  destruct (shr_m mrs'') as [|p|p]; try lia.
  rewrite <- Hqj.
  assert (0 < 2 ^ (E + 1074)) by (apply pow2_pos; lia).
  assert (Zpos p * 2 ^ j * 2 ^ (E + 1074) = Zpos p * 2 ^ (E + j + 1074)) as ->.
  { rewrite <- Z.mul_assoc, <- Z.pow_add_r by lia. do 2 f_equal. lia. }
  destruct (Z.leb_spec (E + j) 971) as [Hfin|Hovf]; cbn [SFis_nan key];
    (split; [reflexivity|]); f_equal.
  - symmetry. apply Z.min_l. apply Z.lt_le_incl.
    rewrite INF_split_hi. apply mul_lt_bound; [lia|].
    split; [apply pow2_pos; lia | apply Z.pow_le_mono_r; lia].
  - symmetry. apply Z.min_r.
    rewrite INF_split_lo. apply mul_ge_bound; [split; [assumption | apply Hqn; lia]|].
    split; [apply pow2_pos; lia | apply Z.pow_le_mono_r; lia].
Qed.

Lemma key_mul_finite (sx sy : bool) (mx my : positive) (ex ey : Z) :
  -1074 <= ex -> -1074 <= ey ->
  cond_Zopp sx (Zpos mx * 2 ^ (ex + 1074)) * cond_Zopp sy (Zpos my * 2 ^ (ey + 1074))
  = cond_Zopp (xorb sx sy) (Zpos (mx * my) * 2 ^ (ex + ey + 2148)).
Proof.
  intros Hx Hy.
  replace (ex + ey + 2148) with ((ex + 1074) + (ey + 1074)) by lia.
  rewrite (Z.pow_add_r 2 (ex + 1074) (ey + 1074)) by lia. rewrite Pos2Z.inj_mul.
  generalize (2 ^ (ex + 1074)) (2 ^ (ey + 1074)). intros A B.
  destruct sx, sy; cbn [cond_Zopp xorb]; ring.
Qed.

(** The key of a product of two finite doubles is their exact product,
    rounded. *)
Lemma SFmul_key (x y : spec_float) :
  valid_binary x = true -> valid_binary y = true ->
  SFis_finite x = true -> SFis_finite y = true ->
  SFis_nan (SF64mul x y) = false
  /\ key (SF64mul x y) = rnd_at 1074 (key x * key y).
Proof.
  intros Hx Hy Fx Fy. unfold SF64mul.
  destruct x as [sx|sx| |sx mx ex], y as [sy|sy| |sy my ey]; try discriminate;
    try (split; reflexivity).
  - split; [reflexivity|]. cbn [SFmul key]. now rewrite Z.mul_0_r.
  - cbn [SFmul key]. cbn [valid_binary] in Hx, Hy.
    pose proof (bounded_inv _ _ Hx) as (Hex & Hmx & Hnx & _).
    pose proof (bounded_inv _ _ Hy) as (Hey & Hmy & Hny & _).
    rewrite key_mul_finite by lia.
    set (M := (mx * my)%positive).
    assert (0 < Zpos M * 2 ^ (ex + ey + 2148)) as HP.
    { pose proof (pow2_pos (ex + ey + 2148) ltac:(lia)). lia. }
    rewrite rnd_at_cond_Zopp.
    assert (rnd_at 1074 (Zpos M * 2 ^ (ex + ey + 2148))
            = rnd_pos_at 1074 (Zpos M * 2 ^ (ex + ey + 2148))) as ->.
    { destruct (Zpos M * 2 ^ (ex + ey + 2148)) eqn:E; try lia. reflexivity. }
    destruct (Z_le_gt_dec (ex + ey) (-1074)) as [Hlow|Hhigh].
    + destruct (binary_round_aux_low (xorb sx sy) M (ex + ey) Hlow) as [Hn Hk].
      split; [exact Hn|]. rewrite Hk. f_equal.
      rewrite <- (rnd_pos_at_scale (-1074 - (ex + ey)) (ex + ey + 2148) (Zpos M))
        by lia.
      f_equal. lia.
    + assert (52 <= Z.log2 (Zpos M)) as Hlog.
      { apply Z.log2_le_pow2; [lia|]. subst M. rewrite Pos2Z.inj_mul.
        assert (0 < 2 ^ 52) by (apply pow2_pos; lia).
        destruct (Z_le_gt_dec ex (-1074)).
        - specialize (Hny ltac:(lia)). nia.
        - specialize (Hnx ltac:(lia)). nia. }
      destruct (binary_round_aux_key (xorb sx sy) M (ex + ey) ltac:(lia) ltac:(lia))
        as [Hn Hk].
      split; [exact Hn|]. rewrite Hk. f_equal.
      rewrite <- rnd_pos_at_0.
      assert (0 < Zpos M * 2 ^ (ex + ey + 1074)) as HQ.
      { pose proof (pow2_pos (ex + ey + 1074) ltac:(lia)). lia. }
      rewrite <- (rnd_pos_at_scale 0 1074 _ ltac:(lia) ltac:(lia) HQ).
      f_equal. rewrite <- Z.mul_assoc, <- Z.pow_add_r by lia.
      do 2 f_equal. lia.
Qed.

Lemma mul_key (x c : float) :
  fnan x = false -> ffinite c = true -> 0 < fkey c ->
  fnan (x * c) = false
  /\ fkey (x * c) = if ffinite x then rnd_at 1074 (fkey x * fkey c) else fkey x.
Proof.
  unfold fnan, ffinite, fkey. rewrite mul_spec. intros Hn Hc Hk.
  destruct (SFis_finite (Prim2SF x)) eqn:Hf.
  - apply SFmul_key; auto using Prim2SF_valid.
  - destruct (key_infinite _ Hf Hn) as [s ->].
    pose proof (Prim2SF_valid c) as Vc.
    unfold SF64mul.
    destruct (Prim2SF c) as [?|?| |sc mc ec]; try discriminate;
      cbn [key] in Hk; try lia.
    cbn [valid_binary] in Vc. pose proof (key_finite_bounds sc mc ec Vc).
    destruct sc; cbn [cond_Zopp] in Hk; [lia|].
    cbn [SFmul SFis_nan key]. now destruct s.
Qed.

(** Multiplying by a positive finite constant is monotone. *)
Lemma mul_mono (x y c : float) :
  ffinite c = true -> 0 < fkey c -> ord x y -> ord (x * c) (y * c).
Proof.
  intros Hc Hk [[Hx Hy]|Hle].
  - left. split; apply mul_nan_l; assumption.
  - right. apply leb_not_nan in Hle as (Hnx & Hny & Hle).
    destruct (mul_key x c Hnx Hc Hk) as [Hn1 Hk1], (mul_key y c Hny Hc Hk) as [Hn2 Hk2].
    apply leb_of_keys; [assumption|assumption|]. rewrite Hk1, Hk2.
    pose proof (rnd_at_range 1074 (fkey x * fkey c) ltac:(lia)).
    pose proof (rnd_at_range 1074 (fkey y * fkey c) ltac:(lia)).
    destruct (ffinite x) eqn:Fx, (ffinite y) eqn:Fy.
    + apply rnd_at_mono; [lia|]. apply Z.mul_le_mono_nonneg_r; lia.
    + pose proof (fkey_finite_range x Fx). destruct (fkey_infinite y Fy Hny); lia.
    + pose proof (fkey_finite_range y Fy). destruct (fkey_infinite x Fx Hnx); lia.
    + assumption.
Qed.

(** Multiplying a finite double by a positive one of at most 1.0 gives a
    finite double. *)
Lemma mul_fraction_finite (x c : float) :
  ffinite x = true -> ffinite c = true -> 0 < fkey c <= ONE ->
  ffinite (x * c) = true.
Proof.
  intros Fx Fc Hc.
  destruct (mul_key x c (ffinite_not_nan x Fx) Fc ltac:(lia)) as [Hn Hk].
  rewrite Fx in Hk. apply finite_of_range; [assumption|]. rewrite Hk.
  pose proof (fkey_finite_range x Fx) as Hr.
  pose proof (rnd_fkey_id x Fx) as Hid.
  pose proof (rnd_at_key (fkey x)) as Hone. rewrite Hid in Hone.
  pose proof (rnd_at_key (- fkey x)) as Hneg. rewrite rnd_opp, Hid in Hneg.
  destruct (Z_le_gt_dec 0 (fkey x)) as [Hpos|Hneg'].
  - pose proof (rnd_at_mono 1074 (fkey x * fkey c) (fkey x * ONE) ltac:(lia)
                  ltac:(apply Z.mul_le_mono_nonneg_l; lia)).
    pose proof (rnd_at_mono 1074 0 (fkey x * fkey c) ltac:(lia)
                  ltac:(apply Z.mul_nonneg_nonneg; lia)) as H0.
    change (rnd_at 1074 0) with 0 in H0. lia.
  - pose proof (rnd_at_mono 1074 (fkey x * ONE) (fkey x * fkey c) ltac:(lia)
                  ltac:(apply Z.mul_le_mono_nonpos_l; lia)).
    pose proof (rnd_at_mono 1074 (fkey x * fkey c) 0 ltac:(lia)
                  ltac:(apply Z.mul_nonpos_nonneg; lia)) as H0.
    change (rnd_at 1074 0) with 0 in H0. lia.
Qed.

(** ** Monotonicity of the scores *)

(** *** The credit score in its five inputs *)

Lemma account_age_income_mono (age1 age2 income1 income2 : float) :
  le_or_same age1 age2 -> le_or_same income1 income2 ->
  let s1 := Credit.income_factor income1 (Credit.account_age_factor age1 600) in
  let s2 := Credit.income_factor income2 (Credit.account_age_factor age2 600) in
  PrimFloat.leb s1 s2 = true /\ ffinite s1 = true /\ ffinite s2 = true.
Proof.
  intros Ha Hi. cbv zeta.
  pose proof (fun c => le_or_same_gt c _ _ Ha) as Hta.
  pose proof (fun c => le_or_same_gt c _ _ Hi) as Hti.
  unfold Credit.account_age_factor, Credit.income_factor.
  destruct (PrimFloat.ltb 365 age1) eqn:A1, (PrimFloat.ltb 180 age1) eqn:B1,
           (PrimFloat.ltb 90 age1) eqn:C1;
    try (rewrite (Hta _ A1)); try (rewrite (Hta _ B1)); try (rewrite (Hta _ C1));
    destruct (PrimFloat.ltb 365 age2), (PrimFloat.ltb 180 age2),
             (PrimFloat.ltb 90 age2);
    destruct (PrimFloat.ltb 100000 income1) eqn:D1,
             (PrimFloat.ltb 50000 income1) eqn:E1,
             (PrimFloat.ltb 25000 income1) eqn:F1;
    try (rewrite (Hti _ D1)); try (rewrite (Hti _ E1)); try (rewrite (Hti _ F1));
    destruct (PrimFloat.ltb 100000 income2), (PrimFloat.ltb 50000 income2),
             (PrimFloat.ltb 25000 income2);
    repeat split; vm_compute; reflexivity.
Qed.

Lemma loan_history_bonus_mono (loan1 loan2 x y : float) :
  le_or_same loan1 loan2 -> ord x y ->
  ord (Credit.loan_history_bonus loan1 x) (Credit.loan_history_bonus loan2 y).
Proof.
  intros Hl H. unfold Credit.loan_history_bonus.
  destruct (PrimFloat.ltb 0 loan1) eqn:E1.
  - rewrite (le_or_same_gt _ _ _ Hl E1). apply ord_add; [reflexivity|assumption].
  - destruct (PrimFloat.ltb 0 loan2); [|assumption].
    apply ord_add_r; [assumption|reflexivity|vm_compute; discriminate].
Qed.

Lemma balance_factor_mono (balance1 balance2 x y : float) :
  le_or_same balance1 balance2 -> ord x y ->
  ord (Credit.balance_factor balance1 x) (Credit.balance_factor balance2 y).
Proof.
  intros Hb H. unfold Credit.balance_factor.
  pose proof (fun c => le_or_same_gt c _ _ Hb) as Ht.
  destruct (PrimFloat.ltb 100000 balance1) eqn:A1,
           (PrimFloat.ltb 50000 balance1) eqn:B1;
    try (rewrite (Ht _ A1)); try (rewrite (Ht _ B1));
    destruct (PrimFloat.ltb 100000 balance2), (PrimFloat.ltb 50000 balance2);
    try assumption;
    first [ apply ord_add_le; [assumption|reflexivity|reflexivity|
                               vm_compute; discriminate]
          | apply ord_add_r; [assumption|reflexivity|vm_compute; discriminate] ].
Qed.

Lemma sub_key (a t : float) :
  ffinite a = true -> fnan t = false ->
  fnan (a - t) = false
  /\ fkey (a - t) = if ffinite t then rnd (fkey a - fkey t) else - fkey t.
Proof.
  unfold fnan, ffinite, fkey. rewrite sub_spec. intros Fa Hn.
  destruct (SFis_finite (Prim2SF t)) eqn:Hf.
  - apply SFsub_key; auto using Prim2SF_valid.
  - destruct (key_infinite _ Hf Hn) as [s ->].
    unfold SF64sub.
    destruct (Prim2SF a) as [?|?| |? ? ?]; try discriminate;
      (split; [reflexivity|]); cbn [SFsub key]; destruct s; cbn [cond_Zopp negb];
      lia.
Qed.

(** The penalty block takes more from the score the more delinquencies
    there are. *)
Lemma delinquency_penalty_mono (delinquency1 delinquency2 a b : float) :
  le_or_same delinquency2 delinquency1 ->
  PrimFloat.leb a b = true -> ffinite a = true -> ffinite b = true ->
  ord (Credit.delinquency_penalty delinquency1 a)
      (Credit.delinquency_penalty delinquency2 b).
Proof.
  intros [->|Hd] Hle Fa Fb; [apply delinquency_penalty_ord; assumption|].
  unfold Credit.delinquency_penalty. right.
  apply leb_not_nan in Hle as (_ & _ & Hab).
  assert (ord (delinquency2 * 20) (delinquency1 * 20)) as Ht.
  { apply mul_mono; [reflexivity | vm_compute; reflexivity | right; assumption]. }
  apply leb_not_nan in Hd as (Hn2 & Hn1 & _).
  destruct (mul_key delinquency1 20 Hn1 eq_refl eq_refl) as [Ht1 _].
  destruct (mul_key delinquency2 20 Hn2 eq_refl eq_refl) as [Ht2 _].
  destruct Ht as [[Hc _]|Ht]; [congruence|].
  apply leb_not_nan in Ht as (_ & _ & Ht).
  set (t1 := (delinquency1 * 20)%float) in *.
  set (t2 := (delinquency2 * 20)%float) in *.
  destruct (sub_key a t1 Fa Ht1) as [Hs1 Hk1], (sub_key b t2 Fb Ht2) as [Hs2 Hk2].
  apply leb_of_keys; [assumption|assumption|]. rewrite Hk1, Hk2.
  pose proof (rnd_range (fkey a - fkey t1)). pose proof (rnd_range (fkey b - fkey t2)).
  destruct (ffinite t1) eqn:F1, (ffinite t2) eqn:F2.
  - apply rnd_mono. lia.
  - pose proof (fkey_finite_range t1 F1). destruct (fkey_infinite t2 F2 Ht2); lia.
  - pose proof (fkey_finite_range t2 F2). destruct (fkey_infinite t1 F1 Ht1); lia.
  - lia.
Qed.

Lemma mock_score_mono (features1 features2 : gmap string float) :
  le_or_same (get features1 "account_age_days" 365)
             (get features2 "account_age_days" 365) ->
  le_or_same (get features1 "monthly_income" 50000)
             (get features2 "monthly_income" 50000) ->
  le_or_same (get features2 "delinquency_count" 0)
             (get features1 "delinquency_count" 0) ->
  le_or_same (get features1 "loan_history_count" 0)
             (get features2 "loan_history_count" 0) ->
  le_or_same (get features1 "total_balance" 100000)
             (get features2 "total_balance" 100000) ->
  ord (Credit.mock_score features1) (Credit.mock_score features2).
Proof.
  intros Ha Hi Hd Hl Hb. unfold Credit.mock_score. cbv zeta.
  destruct (account_age_income_mono _ _ _ _ Ha Hi) as (H1 & H2 & H3).
  apply balance_factor_mono; [assumption|].
  apply loan_history_bonus_mono; [assumption|].
  apply delinquency_penalty_mono; assumption.
Qed.

(** X17: with no artifact loaded the credit_score never falls when
    account_age_days, monthly_income, loan_history_count and total_balance
    rise or stay and delinquency_count falls or stays (the defaults standing
    in for absent features); both calls return a result. *)
Theorem credit_score_monotone (features1 features2 : gmap string float) :
  le_or_same (get features1 "account_age_days" 365)
             (get features2 "account_age_days" 365) ->
  le_or_same (get features1 "monthly_income" 50000)
             (get features2 "monthly_income" 50000) ->
  le_or_same (get features2 "delinquency_count" 0)
             (get features1 "delinquency_count" 0) ->
  le_or_same (get features1 "loan_history_count" 0)
             (get features2 "loan_history_count" 0) ->
  le_or_same (get features1 "total_balance" 100000)
             (get features2 "total_balance" 100000) ->
  exists r1 r2,
    Credit.predict settings None features1 = Some r1
    /\ Credit.predict settings None features2 = Some r2
    /\ Credit.credit_score r1 <= Credit.credit_score r2.
Proof.
  intros Ha Hi Hd Hl Hb.
  pose proof (ord_capped _ _ (mock_score_mono _ _ Ha Hi Hd Hl Hb)) as Hcap.
  rewrite (credit_result None features1), (credit_result None features2).
  eexists _, _. split; [reflexivity|]. split; [reflexivity|]. exact Hcap.
Qed.

Lemma credit_score_monotone_witness :
  let features1 : gmap string float :=
    {[ "account_age_days"%string := 100%float;
       "monthly_income"%string := 30000%float;
       "delinquency_count"%string := 2%float ]} in
  let features2 : gmap string float :=
    {[ "account_age_days"%string := 400%float;
       "monthly_income"%string := 120000%float;
       "total_balance"%string := 200000%float;
       "loan_history_count"%string := 3%float ]} in
  exists r1 r2,
    Credit.predict settings None features1 = Some r1
    /\ Credit.predict settings None features2 = Some r2
    /\ Credit.credit_score r1 <= Credit.credit_score r2.
Proof.
  cbv zeta.
  apply credit_score_monotone; right; vm_compute; reflexivity.
Defined.

(** *** The fraud score in its five inputs *)

Lemma fraud_mock_predict_rule_score (cfg : Settings)
    (features : gmap string float) :
  let total :=
    (fraud_rule_score (get features "amount" 0)
                      (get features "beneficiary_age_days" 365)
                      (get features "transaction_count_24h" 0)
     + get features "device_risk" 0 * 0.1
     + get features "location_risk" 0 * 0.1)%float in
  Fraud.fraud_score (Fraud._mock_predict cfg features)
  = if PrimFloat.ltb 1 total then 1%float else total.
Proof. reflexivity. Qed.

Lemma fraud_rule_score_mono (amount1 amount2 age1 age2 count1 count2 : float) :
  le_or_same amount1 amount2 -> le_or_same age2 age1 ->
  le_or_same count1 count2 ->
  let s1 := fraud_rule_score amount1 age1 count1 in
  let s2 := fraud_rule_score amount2 age2 count2 in
  PrimFloat.leb s1 s2 = true /\ small s1 /\ small s2.
Proof.
  intros Ha Hb Hc. cbv zeta.
  pose proof (fun c => le_or_same_gt c _ _ Ha) as Hta.
  pose proof (fun c => le_or_same_gt c _ _ Hc) as Htc.
  pose proof (fun c => le_or_same_lt c _ _ Hb) as Htb.
  unfold fraud_rule_score, small.
  destruct (PrimFloat.ltb 200000 amount1) eqn:A1;
    [ rewrite (Hta _ A1)
    | destruct (PrimFloat.ltb 100000 amount1) eqn:B1;
      [ rewrite (Hta _ B1)
      | destruct (PrimFloat.ltb 50000 amount1) eqn:C1;
        [ rewrite (Hta _ C1) | ] ] ];
    cbv iota;
    repeat match goal with
           | |- context [if PrimFloat.ltb ?c amount2 then _ else _] =>
               destruct (PrimFloat.ltb c amount2); cbv iota
           end;
    (destruct (PrimFloat.ltb age1 7) eqn:D1;
     [ rewrite (Htb _ D1) | destruct (PrimFloat.ltb age2 7) ]);
    cbv iota;
    (destruct (PrimFloat.ltb 10 count1) eqn:E1;
     [ rewrite (Htc _ E1)
     | destruct (PrimFloat.ltb 5 count1) eqn:F1; [ rewrite (Htc _ F1) | ] ]);
    cbv iota;
    repeat match goal with
           | |- context [if PrimFloat.ltb ?c count2 then _ else _] =>
               destruct (PrimFloat.ltb c count2); cbv iota
           end;
    (split; [vm_compute; reflexivity|]);
    split; (split; [vm_compute; reflexivity|]);
    split; apply Z.leb_le; vm_compute; reflexivity.
Qed.

Lemma KMAX_bounds : 0 < KMAX /\ KMAX + 2 * ONE < INF /\ rnd (KMAX + 2 * ONE) = KMAX.
Proof.
  split; [apply Z.ltb_lt; vm_compute; reflexivity|].
  split; [apply Z.ltb_lt|]; vm_compute; reflexivity.
Qed.

Lemma fkey_finite_max (c : float) : ffinite c = true -> - KMAX <= fkey c <= KMAX.
Proof.
  unfold ffinite, fkey. pose proof (Prim2SF_valid c) as Hv.
  destruct KMAX_bounds as (Hpos & _ & _).
  destruct (Prim2SF c) as [s|s| |s m e]; try discriminate; intros _;
    cbn [key]; [lia|].
  cbn [valid_binary] in Hv.
  pose proof (key_finite_bounds s m e Hv) as Hb.
  apply bounded_inv in Hv as (He & Hm & _ & _).
  assert (Zpos m * 2 ^ (e + 1074) <= KMAX) as Hle.
  { unfold KMAX.
    assert (2 ^ (e + 1074) <= 2 ^ 2045) by (apply Z.pow_le_mono_r; lia).
    pose proof (pow2_pos (e + 1074) ltac:(lia)).
    generalize dependent (2 ^ (e + 1074)). generalize dependent (2 ^ 2045).
    generalize dependent (2 ^ 53). intros. nia. }
  destruct s; cbn [cond_Zopp]; lia.
Qed.

(** Adding any finite double to a small one does not overflow. *)
Lemma small_add_finite (x c : float) :
  small x -> ffinite c = true -> ffinite (x + c) = true.
Proof.
  intros [Fx Hx] Fc.
  destruct (add_key x c (ffinite_not_nan x Fx) Fc) as [Hn Hk].
  rewrite Fx in Hk. apply finite_of_range; [assumption|]. rewrite Hk.
  destruct KMAX_bounds as (Hpos & Hlt & Hr).
  pose proof (fkey_finite_max c Fc) as Hc.
  pose proof (rnd_mono (fkey x + fkey c) (KMAX + 2 * ONE) ltac:(lia)) as Hup.
  pose proof (rnd_mono (- (KMAX + 2 * ONE)) (fkey x + fkey c) ltac:(lia)) as Hlo.
  rewrite rnd_opp in Hlo. rewrite Hr in Hup, Hlo.
  pose proof ONE_pos. lia.
Qed.

(** Two sums of a small score and the same double are the same double or
    two finite doubles in order. *)
Lemma small_add_cases (x y c : float) :
  PrimFloat.leb x y = true -> small x -> small y ->
  (x + c = y + c)%float
  \/ PrimFloat.leb (x + c) (y + c) = true
     /\ ffinite (x + c) = true /\ ffinite (y + c) = true.
Proof.
  intros Hle Sx Sy.
  destruct (ffinite c) eqn:Fc.
  - right. split; [apply add_mono; assumption|].
    split; apply small_add_finite; assumption.
  - left. destruct Sx as [Fx _], Sy as [Fy _].
    apply Prim2SF_inj. rewrite !add_spec.
    unfold ffinite in *.
    destruct (Prim2SF c) as [?|sc| |? ? ?]; try discriminate;
      destruct (Prim2SF x) as [?|?| |? ? ?]; try discriminate;
      destruct (Prim2SF y) as [?|?| |? ? ?]; try discriminate; reflexivity.
Qed.

Lemma add_same_or_finite (x y c : float) :
  x = y \/ PrimFloat.leb x y = true /\ ffinite x = true /\ ffinite y = true ->
  ord (x + c) (y + c).
Proof.
  intros [<-|(Hle & Fx & Fy)]; [apply ord_refl|].
  destruct (ffinite c) eqn:Fc.
  - right. apply add_mono; assumption.
  - destruct (fnan c) eqn:Nc.
    + left. split; apply add_nan_r; assumption.
    + assert (x + c = y + c)%float as ->; [|apply ord_refl].
      apply Prim2SF_inj. rewrite !add_spec.
      unfold ffinite, fnan in *.
      destruct (Prim2SF c) as [?|sc| |? ? ?]; try discriminate;
        destruct (Prim2SF x) as [?|?| |? ? ?]; try discriminate;
        destruct (Prim2SF y) as [?|?| |? ? ?]; try discriminate; reflexivity.
Qed.

Lemma cap_at_1_ord (x y : float) :
  ord x y ->
  ord (if PrimFloat.ltb 1 x then 1%float else x)
      (if PrimFloat.ltb 1 y then 1%float else y).
Proof.
  intros [[Hx Hy]|Hle].
  - rewrite (ltb_nan_r 1 x Hx), (ltb_nan_r 1 y Hy). left. auto.
  - right. destruct (PrimFloat.ltb 1 x) eqn:E1.
    + rewrite (ltb_leb_trans _ _ _ E1 Hle). reflexivity.
    + destruct (PrimFloat.ltb 1 y) eqn:E2; [|assumption].
      apply leb_not_nan in Hle as (Hx & Hy & _).
      apply ltb_false_cases in E1 as [E1|[E1|E1]];
        [discriminate E1 | congruence |].
      apply leb_of_keys; [assumption|reflexivity|assumption].
Qed.

Lemma risk_term_mono (risk1 risk2 : float) :
  le_finite_or_same risk1 risk2 ->
  le_finite_or_same (risk1 * 0.1) (risk2 * 0.1).
Proof.
  intros [->|(Hle & F1 & F2)]; [left; reflexivity|]. right.
  assert (0 < fkey 0.1 <= ONE) as Hc
    by (split; [apply Z.ltb_lt | apply Z.leb_le]; vm_compute; reflexivity).
  split; [|split; apply mul_fraction_finite; (assumption || reflexivity)].
  destruct (mul_mono risk1 risk2 0.1 eq_refl ltac:(lia) (or_intror Hle))
    as [[Hn _]|H]; [|assumption].
  apply leb_not_nan in Hle as (Hn1 & _ & _).
  destruct (mul_key risk1 0.1 Hn1 eq_refl ltac:(lia)) as [Hn' _]. congruence.
Qed.

Lemma small_add_terms (x y c c' : float) :
  PrimFloat.leb x y = true -> small x -> small y ->
  le_finite_or_same c c' ->
  le_finite_or_same (x + c) (y + c').
Proof.
  intros Hle Sx Sy [<-|(Hc & F1 & F2)]; [apply small_add_cases; assumption|].
  right. split; [|split; apply small_add_finite; assumption].
  apply leb_not_nan in Hle as (Hx & Hy & Hk).
  apply leb_not_nan in Hc as (_ & _ & Hc).
  apply add_keys_mono; assumption.
Qed.

Lemma add_terms_ord (x y c c' : float) :
  le_finite_or_same x y -> le_finite_or_same c c' -> ord (x + c) (y + c').
Proof.
  intros Hxy [<-|(Hc & F1 & F2)]; [apply add_same_or_finite; assumption|].
  apply leb_not_nan in Hc as (_ & _ & Hc).
  destruct Hxy as [<-|(Hle & _ & _)].
  - destruct (fnan x) eqn:Hn.
    + left. split; apply add_nan; assumption.
    + right. apply add_keys_mono; (assumption || lia).
  - right. apply leb_not_nan in Hle as (Hx & Hy & Hk).
    apply add_keys_mono; assumption.
Qed.

Lemma fraud_mock_predict_mono (cfg : Settings)
    (features1 features2 : gmap string float) :
  le_or_same (get features1 "amount" 0) (get features2 "amount" 0) ->
  le_or_same (get features2 "beneficiary_age_days" 365)
             (get features1 "beneficiary_age_days" 365) ->
  le_or_same (get features1 "transaction_count_24h" 0)
             (get features2 "transaction_count_24h" 0) ->
  le_finite_or_same (get features1 "device_risk" 0)
                    (get features2 "device_risk" 0) ->
  le_finite_or_same (get features1 "location_risk" 0)
                    (get features2 "location_risk" 0) ->
  ord (Fraud.fraud_score (Fraud._mock_predict cfg features1))
      (Fraud.fraud_score (Fraud._mock_predict cfg features2)).
Proof.
  intros Ha Hb Hc Hd Hl.
  rewrite !fraud_mock_predict_rule_score. cbv zeta.
  destruct (fraud_rule_score_mono _ _ _ _ _ _ Ha Hb Hc) as (Hle & S1 & S2).
  apply cap_at_1_ord, add_terms_ord; [|apply risk_term_mono; assumption].
  apply small_add_terms; try assumption. apply risk_term_mono; assumption.
Qed.

(** X18: the rule-based fraud_score never falls when amount and
    transaction_count_24h rise or stay, beneficiary_age_days falls or stays,
    and device_risk and location_risk stay the same or rise between two
    finite values: the second score is at least the first, or both are
    NaN. *)
Theorem fraud_score_monotone (cfg : Settings)
    (features1 features2 : gmap string float) :
  le_or_same (get features1 "amount" 0) (get features2 "amount" 0) ->
  le_or_same (get features2 "beneficiary_age_days" 365)
             (get features1 "beneficiary_age_days" 365) ->
  le_or_same (get features1 "transaction_count_24h" 0)
             (get features2 "transaction_count_24h" 0) ->
  le_finite_or_same (get features1 "device_risk" 0)
                    (get features2 "device_risk" 0) ->
  le_finite_or_same (get features1 "location_risk" 0)
                    (get features2 "location_risk" 0) ->
  ord (Fraud.fraud_score (Fraud.predict cfg None features1))
      (Fraud.fraud_score (Fraud.predict cfg None features2)).
Proof. apply fraud_mock_predict_mono. Qed.

Lemma fraud_score_monotone_witness :
  let features1 : gmap string float :=
    {[ "amount"%string := 60000%float;
       "beneficiary_age_days"%string := 30%float;
       "device_risk"%string := 0.2%float ]} in
  let features2 : gmap string float :=
    {[ "amount"%string := 250000%float;
       "beneficiary_age_days"%string := 2%float;
       "transaction_count_24h"%string := 12%float;
       "device_risk"%string := 0.5%float ]} in
  ord (Fraud.fraud_score (Fraud.predict settings None features1))
      (Fraud.fraud_score (Fraud.predict settings None features2)).
Proof.
  cbv zeta.
  apply fraud_score_monotone;
    [ right; vm_compute; reflexivity | right; vm_compute; reflexivity
    | right; vm_compute; reflexivity
    | right; repeat split; vm_compute; reflexivity
    | left; vm_compute; reflexivity ].
Defined.

(** *** The aggregator *)

(** With no artifact loaded the overall risk is the clamped sum of the
    three terms over the scores of the two rule-based scorers on the raw
    features. *)
Lemma risk_overall_rule_based (features : gmap string float) :
  exists d,
    Risk.predict settings None None features = Some d
    /\ Risk.overall_risk_score d
       = clamp01 (credit_risk_term (capped (Credit.mock_score features))
                  + fraud_risk_term
                      (Fraud.fraud_score (Fraud._mock_predict settings features))
                  + amount_risk_term (get features "amount" 0)).
Proof.
  destruct (risk_predict_unfold None None features)
    as (ff & cr & overall & Hff & Hcr & Ho & Hd).
  eexists. split; [exact Hd|]. cbn [Risk.overall_risk_score]. f_equal.
  rewrite Ho. unfold credit_risk_term, fraud_risk_term, amount_risk_term.
  pose proof (credit_result None (Risk.credit_features features)) as Hc.
  cbv zeta in Hc. rewrite Hcr in Hc. injection Hc as ->.
  cbn [Credit.credit_score]. rewrite mock_score_credit_features.
  do 3 f_equal. cbn [Fraud.predict]. unfold Fraud._mock_predict.
  destruct (fraud_features_get features ff 0 Hff) as (-> & _ & -> & -> & ->).
  destruct (fraud_features_get features ff 365 Hff) as (_ & -> & _).
  reflexivity.
Qed.

Lemma leb_trans (x y z : float) :
  PrimFloat.leb x y = true -> PrimFloat.leb y z = true -> PrimFloat.leb x z = true.
Proof.
  intros (Hx & _ & H1)%leb_not_nan (_ & Hz & H2)%leb_not_nan.
  apply leb_of_keys; [assumption|assumption|lia].
Qed.

(** One more point of credit score never raises the credit term. *)
Lemma credit_risk_term_step (z : Z) :
  300 <= z < 850 ->
  PrimFloat.leb (credit_risk_term (z + 1)) (credit_risk_term z) = true
  /\ ffinite (credit_risk_term z) = true
  /\ ffinite (credit_risk_term (z + 1)) = true.
Proof.
  intros Hz.
  assert (forallb (fun n =>
            PrimFloat.leb (credit_risk_term (300 + Z.of_nat n + 1))
                          (credit_risk_term (300 + Z.of_nat n))
            && ffinite (credit_risk_term (300 + Z.of_nat n))
            && ffinite (credit_risk_term (300 + Z.of_nat n + 1)))
          (seq 0 550) = true) as Hall by (vm_compute; reflexivity).
  rewrite forallb_forall in Hall.
  specialize (Hall (Z.to_nat (z - 300))).
  replace (300 + Z.of_nat (Z.to_nat (z - 300))) with z in Hall by lia.
  destruct (andb_prop _ _ (Hall ltac:(apply in_seq; lia))) as [[H1 H2]%andb_prop H3].
  auto.
Qed.

Lemma credit_risk_term_antitone (z1 z2 : Z) :
  300 <= z2 -> z2 <= z1 -> z1 <= 850 ->
  PrimFloat.leb (credit_risk_term z1) (credit_risk_term z2) = true
  /\ ffinite (credit_risk_term z1) = true
  /\ ffinite (credit_risk_term z2) = true.
Proof.
  intros Hlo Hle Hhi.
  assert (ffinite (credit_risk_term 850) = true) as H850 by reflexivity.
  assert (forall z, 300 <= z <= 850 -> ffinite (credit_risk_term z) = true) as Hfin.
  { intros z Hz. destruct (Z.eq_dec z 850) as [->|Hne]; [assumption|].
    apply credit_risk_term_step. lia. }
  split; [|split; apply Hfin; lia].
  replace z1 with (z2 + Z.of_nat (Z.to_nat (z1 - z2))) in * by lia.
  induction (Z.to_nat (z1 - z2)) as [|n IH].
  - rewrite Z.add_0_r. apply leb_of_keys; try lia;
      apply ffinite_not_nan, Hfin; lia.
  - destruct (Z_le_gt_dec (z2 + Z.of_nat (S n)) 850) as [Hin|Hout]; [|lia].
    apply leb_trans with (credit_risk_term (z2 + Z.of_nat n)); [|apply IH; lia].
    replace (z2 + Z.of_nat (S n)) with (z2 + Z.of_nat n + 1) by lia.
    apply credit_risk_term_step. lia.
Qed.

Lemma amount_risk_term_mono (amount1 amount2 : float) :
  le_or_same amount1 amount2 ->
  PrimFloat.leb (amount_risk_term amount1) (amount_risk_term amount2) = true
  /\ ffinite (amount_risk_term amount1) = true
  /\ ffinite (amount_risk_term amount2) = true.
Proof.
  intros Ha. pose proof (fun c => le_or_same_gt c _ _ Ha) as Hta.
  unfold amount_risk_term, Risk._calculate_amount_risk.
  destruct (PrimFloat.ltb 200000 amount1) eqn:A1;
    [ rewrite (Hta _ A1)
    | destruct (PrimFloat.ltb 100000 amount1) eqn:B1;
      [ rewrite (Hta _ B1)
      | destruct (PrimFloat.ltb 50000 amount1) eqn:C1;
        [ rewrite (Hta _ C1) | ] ] ];
    cbv iota;
    repeat match goal with
           | |- context [if PrimFloat.ltb ?c amount2 then _ else _] =>
               destruct (PrimFloat.ltb c amount2); cbv iota
           end;
    repeat split; vm_compute; reflexivity.
Qed.

Lemma add_key_l (a x : float) :
  ffinite a = true -> fnan x = false ->
  fnan (a + x) = false
  /\ fkey (a + x) = if ffinite x then rnd (fkey a + fkey x) else fkey x.
Proof.
  unfold fnan, ffinite, fkey. rewrite add_spec. intros Fa Hn.
  destruct (SFis_finite (Prim2SF x)) eqn:Hf.
  - apply SFadd_key; auto using Prim2SF_valid.
  - destruct (key_infinite _ Hf Hn) as [s ->].
    unfold SF64add.
    destruct (Prim2SF a) as [?|?| |? ? ?]; try discriminate; split; reflexivity.
Qed.

Lemma add_l_mono (a b x y : float) :
  PrimFloat.leb a b = true -> ffinite a = true -> ffinite b = true ->
  ord x y -> ord (a + x) (b + y).
Proof.
  intros Hab Fa Fb [[Hx Hy]|Hle].
  - left. split; apply add_nan_r; assumption.
  - right. apply leb_not_nan in Hab as (_ & _ & Hab).
    apply leb_not_nan in Hle as (Hx & Hy & Hxy).
    destruct (add_key_l a x Fa Hx) as [Hn1 Hk1], (add_key_l b y Fb Hy) as [Hn2 Hk2].
    apply leb_of_keys; [assumption|assumption|]. rewrite Hk1, Hk2.
    pose proof (rnd_range (fkey a + fkey x)). pose proof (rnd_range (fkey b + fkey y)).
    destruct (ffinite x) eqn:Fx, (ffinite y) eqn:Fy.
    + apply rnd_mono. lia.
    + pose proof (fkey_finite_range x Fx). destruct (fkey_infinite y Fy Hy); lia.
    + pose proof (fkey_finite_range y Fy). destruct (fkey_infinite x Fx Hx); lia.
    + assumption.
Qed.

(** The clamp is monotone, NaN counting as the highest risk. *)
Lemma clamp01_ord (x y : float) :
  ord x y -> PrimFloat.leb (clamp01 x) (clamp01 y) = true.
Proof.
  intros [[Hx Hy]|Hle].
  - rewrite (clamp01_nan x Hx), (clamp01_nan y Hy). reflexivity.
  - apply leb_not_nan in Hle as (Hx & Hy & Hk).
    pose proof ONE_pos as H1.
    unfold clamp01, Py.fmax, Py.fmin.
    rewrite !ltb_key, Hx, Hy, fkey_0, fkey_1.
    change (fnan 1) with false. change (fnan 0) with false.
    cbn [orb negb andb].
    destruct (Z.ltb_spec (fkey x) ONE), (Z.ltb_spec (fkey y) ONE);
      rewrite ?ltb_key, ?Hx, ?Hy, ?fkey_0, ?fkey_1;
      change (fnan 1) with false; change (fnan 0) with false;
      cbn [orb negb andb];
      repeat match goal with
             | |- context [0 <? ?k] => destruct (Z.ltb_spec 0 k)
             end;
      apply leb_of_keys; rewrite ?fkey_0, ?fkey_1; try reflexivity;
      try assumption; try lia.
Qed.

Lemma risk_sum_mono (c1 c2 : Z) (f1 f2 amount1 amount2 : float) :
  300 <= c2 -> c2 <= c1 -> c1 <= 850 ->
  ord f1 f2 -> le_or_same amount1 amount2 ->
  PrimFloat.leb
    (clamp01 (credit_risk_term c1 + fraud_risk_term f1 + amount_risk_term amount1))
    (clamp01 (credit_risk_term c2 + fraud_risk_term f2 + amount_risk_term amount2))
  = true.
Proof.
  intros Hlo Hle Hhi Hf Ha.
  destruct (credit_risk_term_antitone c1 c2 Hlo Hle Hhi) as (Hc & Fc1 & Fc2).
  destruct (amount_risk_term_mono _ _ Ha) as (Hr & Fr1 & Fr2).
  apply clamp01_ord, ord_add_le; try assumption.
  - apply add_l_mono; try assumption.
    apply mul_mono; [reflexivity | vm_compute; reflexivity | assumption].
  - now apply leb_not_nan in Hr.
Qed.

(** X19: with no artifact loaded the overall_risk_score never falls when
    account_age_days, monthly_income, loan_history_count and total_balance
    fall or stay, delinquency_count rises or stays, amount and
    transaction_count_24h rise or stay, beneficiary_age_days falls or stays,
    and device_risk and location_risk stay the same or rise between two
    finite values; both calls return a decision.  Without the finiteness of
    the two risks the order can fail: an infinite risk of one sign against
    one of the other makes the sum NaN, which the clamp sends to 1.0. *)
Theorem risk_overall_monotone (features1 features2 : gmap string float) :
  le_or_same (get features2 "account_age_days" 365)
             (get features1 "account_age_days" 365) ->
  le_or_same (get features2 "monthly_income" 50000)
             (get features1 "monthly_income" 50000) ->
  le_or_same (get features1 "delinquency_count" 0)
             (get features2 "delinquency_count" 0) ->
  le_or_same (get features2 "loan_history_count" 0)
             (get features1 "loan_history_count" 0) ->
  le_or_same (get features2 "total_balance" 100000)
             (get features1 "total_balance" 100000) ->
  le_or_same (get features1 "amount" 0) (get features2 "amount" 0) ->
  le_or_same (get features2 "beneficiary_age_days" 365)
             (get features1 "beneficiary_age_days" 365) ->
  le_or_same (get features1 "transaction_count_24h" 0)
             (get features2 "transaction_count_24h" 0) ->
  le_finite_or_same (get features1 "device_risk" 0)
                    (get features2 "device_risk" 0) ->
  le_finite_or_same (get features1 "location_risk" 0)
                    (get features2 "location_risk" 0) ->
  exists d1 d2,
    Risk.predict settings None None features1 = Some d1
    /\ Risk.predict settings None None features2 = Some d2
    /\ PrimFloat.leb (Risk.overall_risk_score d1) (Risk.overall_risk_score d2)
       = true.
Proof.
  intros Hage Hinc Hdel Hloan Hbal Ha Hb Hc Hd Hl.
  destruct (risk_overall_rule_based features1) as (d1 & Hd1 & Ho1).
  destruct (risk_overall_rule_based features2) as (d2 & Hd2 & Ho2).
  exists d1, d2. split; [assumption|]. split; [assumption|].
  rewrite Ho1, Ho2. apply risk_sum_mono.
  - apply capped_range.
  - apply ord_capped, mock_score_mono; assumption.
  - apply capped_range.
  - apply fraud_mock_predict_mono; assumption.
  - assumption.
Qed.

Lemma risk_overall_monotone_witness :
  let features1 : gmap string float :=
    {[ "account_age_days"%string := 400%float;
       "monthly_income"%string := 120000%float;
       "amount"%string := 1000%float ]} in
  exists d1 d2,
    Risk.predict settings None None features1 = Some d1
    /\ Risk.predict settings None None scenario_1 = Some d2
    /\ PrimFloat.leb (Risk.overall_risk_score d1) (Risk.overall_risk_score d2)
       = true.
Proof.
  cbv zeta.
  apply risk_overall_monotone;
    try (right; vm_compute; reflexivity);
    right; repeat split; vm_compute; reflexivity.
Defined.

(** The two risks have to be finite: with location_risk +inf on both sides,
    a device_risk of -inf makes the sum NaN and the decision a BLOCK at 1.0,
    while the greater device_risk 0.0 gives a REVIEW. *)
Example risk_order_fails_for_infinite_risks :
  let features1 : gmap string float :=
    {[ "device_risk"%string := neg_infinity;
       "location_risk"%string := infinity ]} in
  let features2 : gmap string float :=
    {[ "device_risk"%string := 0%float;
       "location_risk"%string := infinity ]} in
  PrimFloat.leb (get features1 "device_risk" 0) (get features2 "device_risk" 0)
  = true
  /\ get features1 "location_risk" 0 = get features2 "location_risk" 0
  /\ Risk.overall_risk_score <$> Risk.predict settings None None features1
     = Some 1%float
  /\ Risk.recommendation <$> Risk.predict settings None None features1
     = Some "BLOCK"%string
  /\ Risk.overall_risk_score <$> Risk.predict settings None None features2
     = Some 0.49529411764705888%float
  /\ Risk.recommendation <$> Risk.predict settings None None features2
     = Some "REVIEW"%string.
Proof. repeat split; vm_compute; reflexivity. Qed.

(** X20: category and recommendation follow the order of the risk: above a
    HIGH risk every risk is HIGH and below a LOW one every risk is LOW; above
    a BLOCK every risk is a BLOCK and below an APPROVE every risk is an
    APPROVE. *)
Theorem risk_labels_monotone (risk1 risk2 : float) :
  PrimFloat.leb risk1 risk2 = true ->
  (Risk._get_risk_category risk1 = "HIGH"%string ->
   Risk._get_risk_category risk2 = "HIGH"%string)
  /\ (Risk._get_risk_category risk2 = "LOW"%string ->
      Risk._get_risk_category risk1 = "LOW"%string)
  /\ (Risk._get_recommendation risk1 = "BLOCK"%string ->
      Risk._get_recommendation risk2 = "BLOCK"%string)
  /\ (Risk._get_recommendation risk2 = "APPROVE"%string ->
      Risk._get_recommendation risk1 = "APPROVE"%string).
Proof.
  intros Hle.
  pose proof (fun c => le_or_same_gt c _ _ (or_intror Hle)) as Hgt.
  pose proof (fun c => le_or_same_lt c _ _ (or_intror Hle)) as Hlt.
  unfold Risk._get_risk_category, Risk._get_recommendation.
  repeat split.
  - destruct (PrimFloat.ltb risk2 0.3) eqn:A2; [rewrite (Hlt _ A2); discriminate|].
    destruct (PrimFloat.ltb risk2 0.6) eqn:B2; [rewrite (Hlt _ B2)|reflexivity].
    destruct (PrimFloat.ltb risk1 0.3); discriminate.
  - destruct (PrimFloat.ltb risk2 0.3) eqn:A2; [now rewrite (Hlt _ A2)|].
    destruct (PrimFloat.ltb risk2 0.6); discriminate.
  - destruct (PrimFloat.ltb 0.7 risk1) eqn:A1; [now rewrite (Hgt _ A1)|].
    destruct (PrimFloat.ltb 0.4 risk1); discriminate.
  - destruct (PrimFloat.ltb 0.7 risk1) eqn:A1; [rewrite (Hgt _ A1); discriminate|].
    destruct (PrimFloat.ltb 0.4 risk1) eqn:B1; [rewrite (Hgt _ B1)|reflexivity].
    destruct (PrimFloat.ltb 0.7 risk2); discriminate.
Qed.

Lemma risk_labels_monotone_witness :
  (Risk._get_risk_category 0.65 = "HIGH"%string ->
   Risk._get_risk_category 0.9 = "HIGH"%string)
  /\ (Risk._get_risk_category 0.9 = "LOW"%string ->
      Risk._get_risk_category 0.65 = "LOW"%string)
  /\ (Risk._get_recommendation 0.65 = "BLOCK"%string ->
      Risk._get_recommendation 0.9 = "BLOCK"%string)
  /\ (Risk._get_recommendation 0.9 = "APPROVE"%string ->
      Risk._get_recommendation 0.65 = "APPROVE"%string).
Proof. apply risk_labels_monotone. reflexivity. Defined.

(** ** The labels of the training data *)

(** X21: the probability handed to np.random.binomial for a fraud label is
    always between 0.1 and 0.95, whatever the sample (NaN included), and it
    is the cap 0.95 exactly when all four suspicious patterns are present. *)
Theorem fraud_label_probability_range (amount beneficiary_age_days : float)
    (transaction_count_24h : Z) (device_risk : float) :
  let prob :=
    Train.fraud_label_probability amount beneficiary_age_days
      transaction_count_24h device_risk in
  PrimFloat.leb 0.1 prob = true
  /\ PrimFloat.leb prob 0.95 = true
  /\ PrimFloat.eqb prob 0.95
     = PrimFloat.ltb 100000 amount && PrimFloat.ltb beneficiary_age_days 7
       && (5 <? transaction_count_24h) && PrimFloat.ltb 0.5 device_risk.
Proof.
  cbv zeta. unfold Train.fraud_label_probability.
  destruct (PrimFloat.ltb 100000 amount), (PrimFloat.ltb beneficiary_age_days 7),
           (5 <? transaction_count_24h), (PrimFloat.ltb 0.5 device_risk);
    repeat split; vm_compute; reflexivity.
Qed.
